(** * cbpro-trader: the trade engine (daemon/engine/TradeEngine.py)

    A shallow embedding of [TradeEngine] and of the part of Python's
    [decimal] module it computes with, followed by the properties of the
    engine's specification and by further properties of the code.

    Conventions of the embedding:
    - a finite [Decimal] is a signed coefficient with a decimal exponent;
      arithmetic follows the [decimal] module under the default context
      (28 significant digits, ROUND_HALF_EVEN, Emax 999999, traps on
      InvalidOperation, DivisionByZero and Overflow).  NaN, the infinities
      and the sign of zero are not represented, and a value that the engine
      converts with [Decimal(...)] is given as the decimal it denotes;
    - a Python exception is a value of [exn]; a call that can raise returns
      a [resp];
    - the exchange client, the order books, the clock and the other threads
      are an environment [Env] of oracles indexed by a logical tick that
      advances at every interaction; every call to the exchange client is
      recorded in the trace of the world, with the decimals whose [str] it
      is given;
    - [time.time()] is a number of microseconds;
    - a product object is named by its position in [self.products];
    - the threads are not interleaved: a chase is a sequential run in which
      the other threads act while it sleeps, and starting a worker thread
      is an event of the trace;
    - the two [while] loops take fuel;
    - [close] and an iteration of [update_orders] are functions of the
      answers of the exchange and of the clock, and return the requests
      they have made; the loop of [update_orders] runs over the turns that
      are scheduled, with what the other threads do while it sleeps. *)

From Stdlib Require Import ZArith QArith Qround Lia Bool.
From stdpp Require Import base option list strings gmap.

Open Scope Z_scope.

(** ** Exceptions *)

Inductive exn : Set :=
| ExchangeError      (* any failure of a call to the exchange client *)
| ValueError
| TypeError
| AttributeError
| KeyError
| InvalidOperation   (* decimal.InvalidOperation *)
| DivisionByZero     (* decimal.DivisionByZero *)
| Overflow.          (* decimal.Overflow *)

Inductive resp (A : Type) : Type :=
| Ret (a : A)
| Exc (e : exn).
Arguments Ret {A} a.
Arguments Exc {A} e.

Definition resp_bind {A B} (r : resp A) (k : A -> resp B) : resp B :=
  match r with
  | Ret a => k a
  | Exc e => Exc e
  end.

Declare Scope resp_scope.
Delimit Scope resp_scope with resp.
Notation "'do' x <- c ; k" := (resp_bind c (fun x => k))
  (at level 10, x pattern, c at level 100, k at level 200) : resp_scope.

(** ** Python's decimal arithmetic *)

Module Dec.

Record Decimal : Set := mk { coeff : Z; exp : Z }.

Inductive rounding : Set := ROUND_DOWN | ROUND_HALF_EVEN.

(** The default context. *)
Definition prec : Z := 28.
Definition Emax : Z := 999999.
Definition Emin : Z := -999999.
Definition Etiny : Z := Emin - prec + 1.
Definition Etop : Z := Emax - prec + 1.

(** [len(self._int)]: the number of decimal digits of a magnitude, 1 for 0. *)
Fixpoint ndigits_fuel (n : nat) (a : Z) : Z :=
  match n with
  | O => 1
  | S n' => if a <? 10 then 1 else 1 + ndigits_fuel n' (a / 10)
  end.

Definition ndigits (a : Z) : Z := ndigits_fuel (Z.to_nat (Z.log2 a)) a.

Definition magnitude (d : Decimal) : Z := Z.abs (coeff d).

(** [Decimal.adjusted] *)
Definition adjusted (d : Decimal) : Z := exp d + ndigits (magnitude d) - 1.

(** Whether dropping the [k] low digits of the magnitude [a] rounds away
    from zero ([_round_down], [_round_half_even] returning 1). *)
Definition round_up (m : rounding) (a k : Z) : bool :=
  match m with
  | ROUND_DOWN => false
  | ROUND_HALF_EVEN =>
      let q := a / 10 ^ k in
      let r := a mod 10 ^ k in
      (10 ^ k <? 2 * r) || ((2 * r =? 10 ^ k) && Z.odd q)
  end.

(** [Decimal._rescale] *)
Definition rescale (d : Decimal) (e : Z) (m : rounding) : Decimal :=
  if coeff d =? 0 then mk 0 e
  else if e <=? exp d then mk (coeff d * 10 ^ (exp d - e)) e
  else
    let digits := ndigits (magnitude d) + exp d - e in
    let '(a, k) := if digits <? 0 then (1, 1) else (magnitude d, e - exp d) in
    let q := a / 10 ^ k in
    let q := if round_up m a k then q + 1 else q in
    mk (Z.sgn (coeff d) * q) e.

(** [Decimal._fix]: round to the context's precision. *)
Definition fix_ (d : Decimal) : resp Decimal :=
  if coeff d =? 0 then Ret (mk 0 (Z.min (Z.max (exp d) Etiny) Emax))
  else
    let exp_min := ndigits (magnitude d) + exp d - prec in
    if Etop <? exp_min then Exc Overflow
    else
      let exp_min := if exp_min <? Etiny then Etiny else exp_min in
      if exp d <? exp_min then
        let digits := ndigits (magnitude d) + exp d - exp_min in
        let '(a, k) :=
          if digits <? 0 then (1, 1) else (magnitude d, exp_min - exp d) in
        let q := a / 10 ^ k in
        let '(q, exp_min) :=
          if round_up ROUND_HALF_EVEN a k then
            if prec <? ndigits (q + 1) then ((q + 1) / 10, exp_min + 1)
            else (q + 1, exp_min)
          else (q, exp_min) in
        if Etop <? exp_min then Exc Overflow
        else Ret (mk (Z.sgn (coeff d) * q) exp_min)
      else Ret d.

(** [_normalize]: bring two operands to a common exponent. *)
Definition normalize (op1 op2 : Decimal) : Decimal * Decimal :=
  let swapped := exp op1 <? exp op2 in
  let tmp := if swapped then op2 else op1 in
  let other := if swapped then op1 else op2 in
  let tmp_len := ndigits (magnitude tmp) in
  let other_len := ndigits (magnitude other) in
  let e := exp tmp + Z.min (-1) (tmp_len - prec - 2) in
  let other :=
    if other_len + exp other - 1 <? e then mk (Z.sgn (coeff other)) e
    else other in
  let tmp := mk (coeff tmp * 10 ^ (exp tmp - exp other)) (exp other) in
  if swapped then (other, tmp) else (tmp, other).

(** [Decimal.__add__] *)
Definition add (x y : Decimal) : resp Decimal :=
  let e := Z.min (exp x) (exp y) in
  if (coeff x =? 0) && (coeff y =? 0) then fix_ (mk 0 e)
  else if coeff x =? 0 then
    fix_ (rescale y (Z.max e (exp y - prec - 1)) ROUND_HALF_EVEN)
  else if coeff y =? 0 then
    fix_ (rescale x (Z.max e (exp x - prec - 1)) ROUND_HALF_EVEN)
  else
    let '(op1, op2) := normalize x y in
    if coeff op1 + coeff op2 =? 0 then fix_ (mk 0 e)
    else fix_ (mk (coeff op1 + coeff op2) (exp op1)).

Definition neg (x : Decimal) : Decimal := mk (- coeff x) (exp x).

(** [Decimal.__sub__] *)
Definition sub (x y : Decimal) : resp Decimal := add x (neg y).

(** [Decimal.__mul__] *)
Definition mul (x y : Decimal) : resp Decimal :=
  fix_ (mk (coeff x * coeff y) (exp x + exp y)).

(** The loop of [__truediv__] that brings an exact quotient to its ideal
    exponent. *)
Fixpoint strip_zeros (n : nat) (c e ideal : Z) : Z * Z :=
  match n with
  | O => (c, e)
  | S n' =>
      if (e <? ideal) && (c mod 10 =? 0)
      then strip_zeros n' (c / 10) (e + 1) ideal
      else (c, e)
  end.

(** [Decimal.__truediv__] *)
Definition div (x y : Decimal) : resp Decimal :=
  if coeff y =? 0 then
    if coeff x =? 0 then Exc InvalidOperation else Exc DivisionByZero
  else if coeff x =? 0 then fix_ (mk 0 (exp x - exp y))
  else
    let sign := Z.sgn (coeff x) * Z.sgn (coeff y) in
    let shift := ndigits (magnitude y) - ndigits (magnitude x) + prec + 1 in
    let e := exp x - exp y - shift in
    let num := if 0 <=? shift then magnitude x * 10 ^ shift else magnitude x in
    let den := if 0 <=? shift then magnitude y else magnitude y * 10 ^ (- shift) in
    let c := num / den in
    let remainder := num mod den in
    let '(c, e) :=
      if remainder =? 0 then
        strip_zeros (Z.to_nat (exp x - exp y - e)) c e (exp x - exp y)
      else (if c mod 5 =? 0 then c + 1 else c, e) in
    fix_ (mk (sign * c) e).

(** [Decimal._cmp]: comparison of the values. *)
Definition cmp (x y : Decimal) : comparison :=
  let m := Z.min (exp x) (exp y) in
  (coeff x * 10 ^ (exp x - m) ?= coeff y * 10 ^ (exp y - m)).

Definition gt (x y : Decimal) : bool :=
  match cmp x y with Gt => true | _ => false end.
Definition lt (x y : Decimal) : bool :=
  match cmp x y with Lt => true | _ => false end.
Definition ge (x y : Decimal) : bool :=
  match cmp x y with Lt => false | _ => true end.

(** [Decimal.quantize] *)
Definition quantize (d e : Decimal) (m : rounding) : resp Decimal :=
  if negb ((Etiny <=? exp e) && (exp e <=? Emax)) then Exc InvalidOperation
  else if coeff d =? 0 then fix_ (mk 0 (exp e))
  else if Emax <? adjusted d then Exc InvalidOperation
  else if prec <? adjusted d - exp e + 1 then Exc InvalidOperation
  else
    let ans := rescale d (exp e) m in
    if Emax <? adjusted ans then Exc InvalidOperation
    else if prec <? ndigits (magnitude ans) then Exc InvalidOperation
    else fix_ ans.

(** The number a [Decimal] denotes. *)
Definition value (d : Decimal) : Q :=
  if 0 <=? exp d then inject_Z (coeff d * 10 ^ exp d)
  else Qmake (coeff d) (Z.to_pos (10 ^ (- exp d))).

End Dec.

Abbreviation Decimal := Dec.Decimal.

(** A Python value that is a [Decimal] or [None]. *)
Definition to_Decimal (v : option Decimal) : resp Decimal :=
  match v with
  | Some d => Ret d
  | None => Exc TypeError
  end.

(** [TradeEngine.round_fiat] and [TradeEngine.round_coin] *)
Definition round_fiat (money : option Decimal) : resp Decimal :=
  (do d <- to_Decimal money;
   Dec.quantize d (Dec.mk 1 (-2)) Dec.ROUND_DOWN)%resp.

Definition round_coin (money : option Decimal) : resp Decimal :=
  (do d <- to_Decimal money;
   Dec.quantize d (Dec.mk 1 (-8)) Dec.ROUND_DOWN)%resp.


(** ** Data of the engine *)

(** [time.time()], in microseconds. *)
Definition Time : Set := Z.
Definition one_second : Time := 1000000.

Inductive Side : Set := BuySide | SellSide.

(** An order as the exchange reports it: the keys of the dictionary that the
    engine reads.  A key that is absent or holds an empty value is [None]. *)
Record Order : Set := mkOrder {
  o_id : option string;
  o_status : option string;
  o_message : option string;
  o_price : option Decimal;
  o_product_id : option string
}.

(** The literal [{'status': 'done'}]. *)
Definition done_order : Order :=
  mkOrder None (Some "done"%string) None None None.

(** Modelled from the spec: the class [Product] of daemon/engine/Product.py,
    which is not among the sources.  The fields are the attributes that
    [TradeEngine] reads and writes (spec, section 3, Instrument); the order
    book of a product is part of the environment. *)
Record Product : Set := mkProduct {
  product_id : string;
  meta : bool;
  min_size : Decimal;
  quote_increment : Decimal;
  buy_flag : bool;
  sell_flag : bool;
  order_in_progress : bool;
  open_orders : list Order;
  last_signal_switch : Time;
  order_thread : option Side
}.

Definition set_buy_flag (b : bool) (p : Product) : Product :=
  mkProduct (product_id p) (meta p) (min_size p) (quote_increment p)
    b (sell_flag p) (order_in_progress p) (open_orders p)
    (last_signal_switch p) (order_thread p).

Definition set_sell_flag (b : bool) (p : Product) : Product :=
  mkProduct (product_id p) (meta p) (min_size p) (quote_increment p)
    (buy_flag p) b (order_in_progress p) (open_orders p)
    (last_signal_switch p) (order_thread p).

Definition set_order_in_progress (b : bool) (p : Product) : Product :=
  mkProduct (product_id p) (meta p) (min_size p) (quote_increment p)
    (buy_flag p) (sell_flag p) b (open_orders p)
    (last_signal_switch p) (order_thread p).

Definition set_open_orders (l : list Order) (p : Product) : Product :=
  mkProduct (product_id p) (meta p) (min_size p) (quote_increment p)
    (buy_flag p) (sell_flag p) (order_in_progress p) l
    (last_signal_switch p) (order_thread p).

Definition set_last_signal_switch (t : Time) (p : Product) : Product :=
  mkProduct (product_id p) (meta p) (min_size p) (quote_increment p)
    (buy_flag p) (sell_flag p) (order_in_progress p) (open_orders p)
    t (order_thread p).

Definition set_order_thread (s : Side) (p : Product) : Product :=
  mkProduct (product_id p) (meta p) (min_size p) (quote_increment p)
    (buy_flag p) (sell_flag p) (order_in_progress p) (open_orders p)
    (last_signal_switch p) (Some s).

(** An entry of [auth_client.get_accounts()]. *)
Record Account : Set := mkAccount {
  currency : option string;
  available : option Decimal
}.

Inductive Accounts : Set :=
| AccountList (l : list Account)
| NotAList.

(** The balances are attributes that exist once they have been assigned. *)
Record Balances : Set := mkBalances {
  btc : option Decimal;
  bch : option Decimal;
  eth : option Decimal;
  ltc : option Decimal;
  fiat : option Decimal
}.

Record TradeEngine : Set := mkEngine {
  fiat_currency : string;
  is_live : bool;
  max_slippage : Decimal;
  products : list Product;
  last_balance_update : Time;
  balances : Balances;
  fiat_equivalent : Decimal
}.

Definition set_products (l : list Product) (e : TradeEngine) : TradeEngine :=
  mkEngine (fiat_currency e) (is_live e) (max_slippage e) l
    (last_balance_update e) (balances e) (fiat_equivalent e).

Definition set_last_balance_update (t : Time) (e : TradeEngine) : TradeEngine :=
  mkEngine (fiat_currency e) (is_live e) (max_slippage e) (products e)
    t (balances e) (fiat_equivalent e).

Definition set_balances (b : Balances) (e : TradeEngine) : TradeEngine :=
  mkEngine (fiat_currency e) (is_live e) (max_slippage e) (products e)
    (last_balance_update e) b (fiat_equivalent e).

Definition set_fiat_equivalent (d : Decimal) (e : TradeEngine) : TradeEngine :=
  mkEngine (fiat_currency e) (is_live e) (max_slippage e) (products e)
    (last_balance_update e) (balances e) d.

(** ** The environment *)

(** What the engine does to the outside, in the order it does it.  The
    [size], [price] and [funds] arguments are the decimals whose [str] the
    engine passes. *)
Inductive Event : Set :=
| GetAccounts
| PlaceLimitOrder (pid : string) (side : Side) (size price : Decimal)
    (post_only : bool)
| PlaceMarketOrder (pid : string) (side : Side) (amount : option Decimal)
| CancelAll (pid : string)
| CancelOrder (id : option string)
| GetOrder (id : option string)
| ThreadStart (side : Side) (product : nat)
| ErrorLogged (e : exn).

(** The fields of a product that the other threads write while a chase
    sleeps: the signal evaluator its flags, the order poller its open
    orders.  [order_in_progress], which another thread writes only in
    [close] (line 37), is not among them: a shutdown in the middle of a
    chase is not a run of this model. *)
Record Shared : Set := mkShared {
  s_buy_flag : bool;
  s_sell_flag : bool;
  s_open_orders : list Order
}.

(** The answers of the outside world; the first argument is the tick of the
    interaction, a product is named by its position in [products]. *)
Record Env : Type := mkEnv {
  time_time : nat -> Time;
  api_get_accounts : nat -> resp Accounts;
  api_place_limit_order :
    nat -> string -> Side -> Decimal -> Decimal -> bool -> resp Order;
  api_place_market_order :
    nat -> string -> Side -> option Decimal -> resp Order;
  api_cancel_all : nat -> string -> resp unit;
  api_cancel_order : nat -> option string -> resp unit;
  api_get_order : nat -> option string -> resp Order;
  book_get_ask : nat -> nat -> resp Decimal;
  book_get_bid : nat -> nat -> resp Decimal;
  book_get_current_ticker : nat -> nat -> option (option Decimal);
  other_threads : nat -> nat -> Product -> Shared
}.

Record World : Type := mkWorld {
  engine : TradeEngine;
  tick : nat;
  trace : list Event
}.

(** ** The monad of engine code: state, exceptions, fuel for loops *)

Inductive result (A : Type) : Type :=
| Ok (a : A)
| Raise (e : exn)
| OutOfFuel.
Arguments Ok {A} a.
Arguments Raise {A} e.
Arguments OutOfFuel {A}.

Definition M (A : Type) : Type := World -> result A * World.

Definition ret {A} (a : A) : M A := fun w => (Ok a, w).

Definition bind {A B} (c : M A) (k : A -> M B) : M B :=
  fun w =>
    match c w with
    | (Ok a, w') => k a w'
    | (Raise e, w') => (Raise e, w')
    | (OutOfFuel, w') => (OutOfFuel, w')
    end.

Definition raise {A} (e : exn) : M A := fun w => (Raise e, w).

Definition out_of_fuel {A} : M A := fun w => (OutOfFuel, w).

Declare Scope engine_scope.
Delimit Scope engine_scope with M.
Notation "x <- y ;; z" := (bind y (fun x => z))
  (at level 20, y at level 99, z at level 200, only parsing) : engine_scope.
Notation "' x <- y ;; z" := (bind y (fun x => z))
  (at level 20, x pattern, y at level 99, z at level 200, only parsing)
  : engine_scope.
Notation "y ;; z" := (bind y (fun _ => z))
  (at level 100, z at level 200, only parsing, right associativity)
  : engine_scope.

(** [try: body except Exception as e: handler e] *)
Definition try_except {A} (body : M A) (handler : exn -> M A) : M A :=
  fun w =>
    match body w with
    | (Raise e, w') => handler e w'
    | r => r
    end.

Definition lift {A} (r : resp A) : M A :=
  match r with
  | Ret a => ret a
  | Exc e => raise e
  end.

Definition get_engine : M TradeEngine := fun w => (Ok (engine w), w).

Definition modify_engine (f : TradeEngine -> TradeEngine) : M unit :=
  fun w => (Ok tt, mkWorld (f (engine w)) (tick w) (trace w)).

(** An interaction with the environment: it takes the answer of the
    current tick, advances the tick and records the events. *)
Definition ask_env {A} (evs : list Event) (f : nat -> A) : M A :=
  fun w => (Ok (f (tick w)), mkWorld (engine w) (S (tick w)) (trace w ++ evs)).

Definition call_env {A} (evs : list Event) (f : nat -> resp A) : M A :=
  bind (ask_env evs f) lift.

Definition log_error (e : exn) : M unit :=
  fun w => (Ok tt, mkWorld (engine w) (tick w) (trace w ++ [ErrorLogged e])).

(** ** The engine *)

Definition D (c e : Z) : Decimal := Dec.mk c e.

(** Truthiness and equality of the values of a dictionary. *)
Definition truthy (s : option string) : bool :=
  match s with
  | Some s => negb (String.eqb s "")
  | None => false
  end.

Definition is_str (s : option string) (lit : string) : bool :=
  match s with
  | Some s => String.eqb s lit
  | None => false
  end.

Definition same_id (a b : option string) : bool :=
  match a, b with
  | Some a, Some b => String.eqb a b
  | None, None => true
  | _, _ => false
  end.

(** [x * y] where [x] may be [None]. *)
Definition py_mul (x : option Decimal) (y : Decimal) : resp Decimal :=
  match x with
  | Some d => Dec.mul d y
  | None => Exc TypeError
  end.

(** [TradeEngine.get_product_by_product_id]: the first product of the list
    with that id, with its position. *)
Definition get_product_by_product_id (e : TradeEngine) (pid : string)
  : option (nat * Product) :=
  list_find (fun p => product_id p = pid) (products e).

Inductive Currency : Set := BTC | BCH | ETH | LTC | FIAT.

Definition balance_of (c : Currency) (b : Balances) : option Decimal :=
  match c with
  | BTC => btc b
  | BCH => bch b
  | ETH => eth b
  | LTC => ltc b
  | FIAT => fiat b
  end.

Definition set_balance (c : Currency) (d : Decimal) (b : Balances) : Balances :=
  match c with
  | BTC => mkBalances (Some d) (bch b) (eth b) (ltc b) (fiat b)
  | BCH => mkBalances (btc b) (Some d) (eth b) (ltc b) (fiat b)
  | ETH => mkBalances (btc b) (bch b) (Some d) (ltc b) (fiat b)
  | LTC => mkBalances (btc b) (bch b) (eth b) (Some d) (fiat b)
  | FIAT => mkBalances (btc b) (bch b) (eth b) (ltc b) (Some d)
  end.

(** The if/elif chains of [get_base_currency_from_product_id] and
    [get_quoted_currency_from_product_id]: the attribute that is returned,
    [None] when no branch matches. *)
Definition base_currency (pid : string) : option Currency :=
  if String.eqb pid "BTC-USD" then Some BTC
  else if String.eqb pid "BCH-USD" then Some BCH
  else if String.eqb pid "BCH-EUR" then Some BCH
  else if String.eqb pid "BCH-BTC" then Some BCH
  else if String.eqb pid "BTC-EUR" then Some BTC
  else if String.eqb pid "ETH-USD" then Some ETH
  else if String.eqb pid "ETH-EUR" then Some ETH
  else if String.eqb pid "LTC-USD" then Some LTC
  else if String.eqb pid "LTC-EUR" then Some LTC
  else if String.eqb pid "ETH-BTC" then Some ETH
  else if String.eqb pid "LTC-BTC" then Some LTC
  else None.

Definition quoted_currency (pid : string) : option Currency :=
  if String.eqb pid "BTC-USD" then Some FIAT
  else if String.eqb pid "BCH-USD" then Some FIAT
  else if String.eqb pid "BCH-EUR" then Some FIAT
  else if String.eqb pid "BCH-BTC" then Some BTC
  else if String.eqb pid "BTC-EUR" then Some FIAT
  else if String.eqb pid "ETH-USD" then Some FIAT
  else if String.eqb pid "ETH-EUR" then Some FIAT
  else if String.eqb pid "LTC-USD" then Some FIAT
  else if String.eqb pid "LTC-EUR" then Some FIAT
  else if String.eqb pid "ETH-BTC" then Some BTC
  else if String.eqb pid "LTC-BTC" then Some BTC
  else None.

Section Engine.

Variable E : Env.

Local Open Scope engine_scope.

(** The product object at position [i]; a reference that does not denote a
    product behaves as [None]. *)
Definition get_product (i : nat) : M Product :=
  e <- get_engine;;
  match products e !! i with
  | Some p => ret p
  | None => raise AttributeError
  end.

Definition modify_product (i : nat) (f : Product -> Product) : M unit :=
  p <- get_product i;;
  modify_engine (fun e => set_products (<[i := f p]> (products e)) e).

(** Reading an attribute [self.btc], ..., [self.fiat]. *)
Definition read_balance (c : Currency) : M Decimal :=
  e <- get_engine;;
  match balance_of c (balances e) with
  | Some d => ret d
  | None => raise AttributeError
  end.

Definition read_currency (c : option Currency) : M (option Decimal) :=
  match c with
  | Some c => d <- read_balance c;; ret (Some d)
  | None => ret None
  end.

Definition write_balance (c : Currency) (d : Decimal) : M unit :=
  modify_engine (fun e => set_balances (set_balance c d (balances e)) e).

(** The body of the loop over the accounts in [update_amounts]. *)
Definition store_account (a : Account) : M unit :=
  e <- get_engine;;
  if is_str (currency a) "BTC" then
    d <- lift (round_coin (available a));; write_balance BTC d
  else if is_str (currency a) "BCH" then
    d <- lift (round_coin (available a));; write_balance BCH d
  else if is_str (currency a) "ETH" then
    d <- lift (round_coin (available a));; write_balance ETH d
  else if is_str (currency a) "LTC" then
    d <- lift (round_coin (available a));; write_balance LTC d
  else if is_str (currency a) (fiat_currency e) then
    d <- lift (round_fiat (available a));; write_balance FIAT d
  else ret tt.

Fixpoint store_accounts (l : list Account) : M unit :=
  match l with
  | [] => ret tt
  | a :: l' => store_account a;; store_accounts l'
  end.

(** The handler of [update_amounts]: every balance becomes [Decimal('0.0')]. *)
Definition zero_balances : M unit :=
  modify_engine (fun e =>
    set_fiat_equivalent (D 0 (-1))
      (set_balances
         (mkBalances (Some (D 0 (-1))) (Some (D 0 (-1))) (Some (D 0 (-1)))
            (Some (D 0 (-1))) (Some (D 0 (-1)))) e)).

(** [get_base_currency_from_product_id(product_id, update=False)] *)
Definition base_currency_no_update (pid : string) : M (option Decimal) :=
  read_currency (base_currency pid).

(** The body of the loop over the products in [update_amounts]: the base
    currency of a product with a ticker price is marked at that price. *)
Definition mark_product (j : nat) (p : Product) : M unit :=
  if meta p then ret tt
  else
    t1 <- ask_env [] (fun t => book_get_current_ticker E t j);;
    match t1 with
    | None => ret tt
    | Some _ =>
        t2 <- ask_env [] (fun t => book_get_current_ticker E t j);;
        match t2 with
        | None => raise AttributeError
        | Some None => ret tt
        | Some (Some _) =>
            e <- get_engine;;
            b <- base_currency_no_update (product_id p);;
            t3 <- ask_env [] (fun t => book_get_current_ticker E t j);;
            price <- match t3 with
                     | None => raise AttributeError
                     | Some price => lift (to_Decimal price)
                     end;;
            v <- lift (py_mul b price);;
            s <- lift (Dec.add (fiat_equivalent e) v);;
            modify_engine (set_fiat_equivalent s)
        end
    end.

Fixpoint mark_products (j : nat) (l : list Product) : M unit :=
  match l with
  | [] => ret tt
  | p :: l' => mark_product j p;; mark_products (S j) l'
  end.

(** [TradeEngine.update_amounts] *)
Definition update_amounts : M unit :=
  now <- ask_env [] (time_time E);;
  e <- get_engine;;
  if one_second <? now - last_balance_update e then
    failed <- try_except
      (now' <- ask_env [] (time_time E);;
       modify_engine (set_last_balance_update now');;
       r <- call_env [GetAccounts] (api_get_accounts E);;
       match r with
       | AccountList l => store_accounts l
       | NotAList => ret tt
       end;;
       ret false)
      (fun ex => log_error ex;; zero_balances;; ret true);;
    if failed : bool then ret tt
    else
      modify_engine (set_fiat_equivalent (D 0 (-1)));;
      e <- get_engine;;
      mark_products 0 (products e);;
      e <- get_engine;;
      f <- read_balance FIAT;;
      s <- lift (Dec.add (fiat_equivalent e) f);;
      modify_engine (set_fiat_equivalent s)
  else ret tt.

(** [TradeEngine.get_base_currency_from_product_id] with [update=True] *)
Definition get_base_currency_from_product_id (pid : string)
  : M (option Decimal) :=
  update_amounts;;
  read_currency (base_currency pid).

(** [TradeEngine.get_quoted_currency_from_product_id] *)
Definition get_quoted_currency_from_product_id (pid : string)
  : M (option Decimal) :=
  update_amounts;;
  read_currency (quoted_currency pid).

(** [product.open_orders.append(ret)] when the order is pending or open. *)
Definition remember_order (i : nat) (r : Order) : M unit :=
  if is_str (o_status r) "pending" || is_str (o_status r) "open" then
    modify_product i (fun p => set_open_orders (open_orders p ++ [r]) p)
  else ret tt.

(** [TradeEngine.place_buy]; [partial] is [Decimal(partial)]. *)
Definition place_buy (i : nat) (partial : Decimal) : M Order :=
  p <- get_product i;;
  q <- get_quoted_currency_from_product_id (product_id p);;
  amount <- lift (py_mul q partial);;
  ask <- call_env [] (fun t => book_get_ask E t i);;
  bid <- lift (Dec.sub ask (quote_increment p));;
  quot <- lift (Dec.div amount bid);;
  amount <- lift (round_coin (Some quot));;
  '(amount, bid) <-
    (if Dec.lt amount (min_size p) then
       q <- get_quoted_currency_from_product_id (product_id p);;
       ask <- call_env [] (fun t => book_get_ask E t i);;
       bid <- lift (Dec.sub ask (quote_increment p));;
       q <- lift (to_Decimal q);;
       quot <- lift (Dec.div q bid);;
       amount <- lift (round_coin (Some quot));;
       ret (amount, bid)
     else ret (amount, bid));;
  if Dec.ge amount (min_size p) then
    r <- call_env [PlaceLimitOrder (product_id p) BuySide amount bid true]
           (fun t => api_place_limit_order E t (product_id p) BuySide amount
                       bid true);;
    remember_order i r;;
    ret r
  else ret done_order.

(** [TradeEngine.place_sell] *)
Definition place_sell (i : nat) (partial : Decimal) : M Order :=
  p <- get_product i;;
  b <- get_base_currency_from_product_id (product_id p);;
  prod <- lift (py_mul b partial);;
  amount <- lift (round_coin (Some prod));;
  amount <-
    (if Dec.lt amount (min_size p) then
       b <- get_base_currency_from_product_id (product_id p);;
       ret b
     else ret (Some amount));;
  bid <- call_env [] (fun t => book_get_bid E t i);;
  ask <- lift (Dec.add bid (quote_increment p));;
  amount <- lift (match amount with
                  | Some a => Ret a
                  | None => Exc TypeError
                  end);;
  if Dec.ge amount (min_size p) then
    r <- call_env [PlaceLimitOrder (product_id p) SellSide amount ask true]
           (fun t => api_place_limit_order E t (product_id p) SellSide amount
                       ask true);;
    remember_order i r;;
    ret r
  else ret done_order.

(** [time.sleep(0.01)]: the other threads run. *)
Definition merge_shared (p : Product) (s : Shared) : Product :=
  set_open_orders (s_open_orders s)
    (set_sell_flag (s_sell_flag s) (set_buy_flag (s_buy_flag s) p)).

Definition sleep : M unit :=
  fun w =>
    (Ok tt,
     mkWorld
       (set_products
          (imap (fun j p => merge_shared p (other_threads E (tick w) j p))
             (products (engine w)))
          (engine w))
       (S (tick w)) (trace w)).

(** The variables of a chase: [ret], the price of the resting order ([bid]
    in [buy], [ask] in [sell]), [amount] and [last_order_update]. *)
Record Chase : Set := mkChase {
  c_ret : Order;
  c_price : option Decimal;
  c_amount : option Decimal;
  c_last_order_update : Time
}.

(** How a block ends: it falls through to the next statement, or it
    executes [return]. *)
Inductive Flow (A : Type) : Type :=
| Next (a : A)
| Returned.
#[global] Arguments Next {A} a.
#[global] Arguments Returned {A}.

(** [for order in product.open_orders: if order.get('id') != ret.get('id'):
    self.auth_client.cancel_order(order.get('id'))] *)
Fixpoint cancel_others (l : list Order) (r : Order) : M unit :=
  match l with
  | [] => ret tt
  | o :: l' =>
      (if same_id (o_id o) (o_id r) then ret tt
       else call_env [CancelOrder (o_id o)]
              (fun t => api_cancel_order E t (o_id o)));;
      cancel_others l' r
  end.

(** [ret.get('status') == 'rejected' or ret.get('status') == 'done' or
    ret.get('message') == 'NotFound'] *)
Definition order_finished (r : Order) : bool :=
  is_str (o_status r) "rejected" || is_str (o_status r) "done"
  || is_str (o_message r) "NotFound".

(** The condition of the loop of [buy]. *)
Definition buy_condition (i : nat) (c : Chase) : M bool :=
  p <- get_product i;;
  if buy_flag p then
    a <- lift (match c_amount c with
               | Some a => Ret a
               | None => Exc TypeError
               end);;
    ret (Dec.ge a (min_size p) || (0 <? length (open_orders p))%nat)
  else ret false.

(** The slippage test of [buy] (line 141). *)
Definition buy_slippage (starting_price : Decimal) (i : nat) : M bool :=
  p <- get_product i;;
  ask <- call_env [] (fun t => book_get_ask E t i);;
  x <- lift (Dec.sub ask (quote_increment p));;
  x <- lift (Dec.div x starting_price);;
  x <- lift (Dec.sub x (D 10 (-1)));;
  x <- lift (Dec.mul x (D 1000 (-1)));;
  e <- get_engine;;
  ret (Dec.gt x (max_slippage e)).

(** The escalation of [buy] (lines 142 to 145). *)
Definition buy_escalate (i : nat) : M unit :=
  p <- get_product i;;
  call_env [CancelAll (product_id p)]
    (fun t => api_cancel_all E t (product_id p));;
  q <- get_quoted_currency_from_product_id (product_id p);;
  call_env [PlaceMarketOrder (product_id p) BuySide q]
    (fun t => api_place_market_order E t (product_id p) BuySide q);;
  modify_product i (set_order_in_progress false).

(** The body of the loop of [buy] after the slippage test (lines 146 to
    166). *)
Definition buy_chase (i : nat) (c : Chase) : M Chase :=
  p <- get_product i;;
  '(r, bid) <-
    (if order_finished (c_ret c) then
       r <- place_buy i (D 5 (-1));;
       ret (r, o_price r)
     else
       stale <-
         match c_price c with
         | None => ret true
         | Some bid =>
             ask <- call_env [] (fun t => book_get_ask E t i);;
             best <- lift (Dec.sub ask (quote_increment p));;
             ret (Dec.lt bid best)
         end;;
       if stale : bool then
         p' <- get_product i;;
         r <- (if (0 <? length (open_orders p'))%nat
               then place_buy i (D 10 (-1))
               else place_buy i (D 5 (-1)));;
         p' <- get_product i;;
         cancel_others (open_orders p') r;;
         ret (r, o_price r)
       else ret (c_ret c, c_price c));;
  '(r, last) <-
    (if truthy (o_id r) then
       now <- ask_env [] (time_time E);;
       if one_second <=? now - c_last_order_update c then
         try_except
           (r' <- call_env [GetOrder (o_id r)]
                    (fun t => api_get_order E t (o_id r));;
            now' <- ask_env [] (time_time E);;
            ret (r', now'))
           (fun ex =>
              match ex with
              | ValueError => log_error ex;; ret (r, c_last_order_update c)
              | _ => raise ex
              end)
       else ret (r, c_last_order_update c)
     else ret (r, c_last_order_update c));;
  amount <- get_quoted_currency_from_product_id (product_id p);;
  sleep;;
  ret (mkChase r bid amount last).

(** [while ...:] of [buy] *)
Fixpoint buy_while (fuel : nat) (starting_price : Decimal) (i : nat)
    (c : Chase) : M (Flow unit) :=
  match fuel with
  | O => out_of_fuel
  | S fuel' =>
      go <- buy_condition i c;;
      if go : bool then
        slipped <- buy_slippage starting_price i;;
        if slipped : bool then buy_escalate i;; ret Returned
        else
          c' <- buy_chase i c;;
          buy_while fuel' starting_price i c'
      else ret (Next tt)
  end.

(** The rest of the [try] block of [buy] from the head of the loop: the
    loop, then lines 167 and 168. *)
Definition buy_try_tail (fuel : nat) (starting_price : Decimal) (i : nat)
    (c : Chase) : M (Flow unit) :=
  fl <- buy_while fuel starting_price i c;;
  match fl with
  | Returned => ret Returned
  | Next _ =>
      p <- get_product i;;
      call_env [CancelAll (product_id p)]
        (fun t => api_cancel_all E t (product_id p));;
      get_quoted_currency_from_product_id (product_id p);;
      ret (Next tt)
  end.

(** [try: body except Exception: ...] of a chase and the two statements
    after it (lines 169 to 173 of [buy], 229 to 233 of [sell]). *)
Definition chase_finish (i : nat) (body : M (Flow unit)) : M unit :=
  fl <- try_except body
          (fun ex =>
             modify_product i (set_order_in_progress false);;
             log_error ex;;
             ret (Next tt));;
  match fl with
  | Returned => ret tt
  | Next _ =>
      p <- get_product i;;
      call_env [CancelAll (product_id p)]
        (fun t => api_cancel_all E t (product_id p));;
      modify_product i (set_order_in_progress false)
  end.

(** [buy] from the head of its loop on. *)
Definition buy_from_loop (fuel : nat) (starting_price : Decimal) (i : nat)
    (c : Chase) : M unit :=
  chase_finish i (buy_try_tail fuel starting_price i c).

(** [TradeEngine.buy]; [fuel] bounds the iterations of the loop. *)
Definition buy (fuel : nat) (i : nat) : M unit :=
  modify_product i (set_order_in_progress true);;
  p <- get_product i;;
  ask <- call_env [] (fun t => book_get_ask E t i);;
  starting_price <- lift (Dec.sub ask (quote_increment p));;
  chase_finish i
    (r <- place_buy i (D 5 (-1));;
     amount <- get_quoted_currency_from_product_id (product_id p);;
     buy_try_tail fuel starting_price i (mkChase r (o_price r) amount 0)).

(** The condition of the loop of [sell]. *)
Definition sell_condition (i : nat) (c : Chase) : M bool :=
  p <- get_product i;;
  if sell_flag p then
    a <- lift (match c_amount c with
               | Some a => Ret a
               | None => Exc TypeError
               end);;
    ret (Dec.ge a (min_size p) || (0 <? length (open_orders p))%nat)
  else ret false.

(** The slippage test of [sell] (line 201). *)
Definition sell_slippage (starting_price : Decimal) (i : nat) : M bool :=
  p <- get_product i;;
  bid <- call_env [] (fun t => book_get_bid E t i);;
  x <- lift (Dec.add bid (quote_increment p));;
  x <- lift (Dec.div x starting_price);;
  x <- lift (Dec.sub (D 1 0) x);;
  x <- lift (Dec.mul x (D 1000 (-1)));;
  e <- get_engine;;
  ret (Dec.gt x (max_slippage e)).

(** The escalation of [sell] (lines 202 to 205). *)
Definition sell_escalate (i : nat) : M unit :=
  p <- get_product i;;
  call_env [CancelAll (product_id p)]
    (fun t => api_cancel_all E t (product_id p));;
  b <- get_base_currency_from_product_id (product_id p);;
  call_env [PlaceMarketOrder (product_id p) SellSide b]
    (fun t => api_place_market_order E t (product_id p) SellSide b);;
  modify_product i (set_order_in_progress false).

(** The body of the loop of [sell] after the slippage test (lines 206 to
    226). *)
Definition sell_chase (i : nat) (c : Chase) : M Chase :=
  p <- get_product i;;
  '(r, ask) <-
    (if order_finished (c_ret c) then
       r <- place_sell i (D 5 (-1));;
       ret (r, o_price r)
     else
       stale <-
         match c_price c with
         | None => ret true
         | Some ask =>
             bid <- call_env [] (fun t => book_get_bid E t i);;
             best <- lift (Dec.add bid (quote_increment p));;
             ret (Dec.gt ask best)
         end;;
       if stale : bool then
         p' <- get_product i;;
         r <- (if (0 <? length (open_orders p'))%nat
               then place_sell i (D 10 (-1))
               else place_sell i (D 5 (-1)));;
         p' <- get_product i;;
         cancel_others (open_orders p') r;;
         ret (r, o_price r)
       else ret (c_ret c, c_price c));;
  '(r, last) <-
    (if truthy (o_id r) then
       now <- ask_env [] (time_time E);;
       if one_second <=? now - c_last_order_update c then
         r' <- try_except
                 (call_env [GetOrder (o_id r)]
                    (fun t => api_get_order E t (o_id r)))
                 (fun ex =>
                    match ex with
                    | ValueError => log_error ex;; ret r
                    | _ => raise ex
                    end);;
         now' <- ask_env [] (time_time E);;
         ret (r', now')
       else ret (r, c_last_order_update c)
     else ret (r, c_last_order_update c));;
  amount <- get_base_currency_from_product_id (product_id p);;
  sleep;;
  ret (mkChase r ask amount last).

(** [while ...:] of [sell] *)
Fixpoint sell_while (fuel : nat) (starting_price : Decimal) (i : nat)
    (c : Chase) : M (Flow unit) :=
  match fuel with
  | O => out_of_fuel
  | S fuel' =>
      go <- sell_condition i c;;
      if go : bool then
        slipped <- sell_slippage starting_price i;;
        if slipped : bool then sell_escalate i;; ret Returned
        else
          c' <- sell_chase i c;;
          sell_while fuel' starting_price i c'
      else ret (Next tt)
  end.

Definition sell_try_tail (fuel : nat) (starting_price : Decimal) (i : nat)
    (c : Chase) : M (Flow unit) :=
  fl <- sell_while fuel starting_price i c;;
  match fl with
  | Returned => ret Returned
  | Next _ =>
      p <- get_product i;;
      call_env [CancelAll (product_id p)]
        (fun t => api_cancel_all E t (product_id p));;
      get_base_currency_from_product_id (product_id p);;
      ret (Next tt)
  end.

(** [sell] from the head of its loop on. *)
Definition sell_from_loop (fuel : nat) (starting_price : Decimal) (i : nat)
    (c : Chase) : M unit :=
  chase_finish i (sell_try_tail fuel starting_price i c).

(** [TradeEngine.sell]; [fuel] bounds the iterations of the loop. *)
Definition sell (fuel : nat) (i : nat) : M unit :=
  modify_product i (set_order_in_progress true);;
  p <- get_product i;;
  bid <- call_env [] (fun t => book_get_bid E t i);;
  starting_price <- lift (Dec.add bid (quote_increment p));;
  chase_finish i
    (r <- place_sell i (D 5 (-1));;
     amount <- get_base_currency_from_product_id (product_id p);;
     sell_try_tail fuel starting_price i (mkChase r (o_price r) amount 0)).

End Engine.

(** ** The signal evaluator *)

(** [indicators[name][key]], as a [Decimal]. *)
Definition indicator (indicators : gmap string (gmap string Decimal))
    (name key : string) : resp Decimal :=
  match indicators !! name with
  | Some m =>
      match m !! key with
      | Some d => Ret d
      | None => Exc KeyError
      end
  | None => Exc KeyError
  end.

(** The body of the loop over [period_list] (lines 296 to 305); [and] and
    [or] evaluate their right operand only when it decides the result. *)
Definition period_step (indicators : gmap string (gmap string Decimal))
    (flags : bool * bool) (name : string) : resp (bool * bool) :=
  let '(new_buy_flag, new_sell_flag) := flags in
  (do adx <- indicator indicators name "adx";
   if Dec.gt adx (D 25 0) then
     do b <- (if new_buy_flag then
                do obv <- indicator indicators name "obv";
                do obv_ema <- indicator indicators name "obv_ema";
                Ret (Dec.gt obv obv_ema)
              else Ret false);
     do s <- (if new_sell_flag then Ret true
              else
                do obv <- indicator indicators name "obv";
                do obv_ema <- indicator indicators name "obv_ema";
                Ret (Dec.lt obv obv_ema));
     Ret (b, s)
   else
     do b <- (if new_buy_flag then
                do k <- indicator indicators name "stoch_slowk";
                do d <- indicator indicators name "stoch_slowd";
                if Dec.gt k d then
                  do k' <- indicator indicators name "stoch_slowk";
                  Ret (Dec.lt k' (D 500 (-1)))
                else Ret false
              else Ret false);
     do s <- (if new_sell_flag then Ret true
              else
                do k <- indicator indicators name "stoch_slowk";
                do d <- indicator indicators name "stoch_slowd";
                if Dec.lt k d then Ret true
                else
                  do k' <- indicator indicators name "stoch_slowk";
                  Ret (Dec.gt k' (D 500 (-1))));
     Ret (b, s))%resp.

Fixpoint period_loop (indicators : gmap string (gmap string Decimal))
    (flags : bool * bool) (period_list : list string) : resp (bool * bool) :=
  match period_list with
  | [] => Ret flags
  | name :: rest =>
      (do flags' <- period_step indicators flags name;
       period_loop indicators flags' rest)%resp
  end.

(** Lines 293 to 305: the flags after the loop. *)
Definition period_flags (indicators : gmap string (gmap string Decimal))
    (period_list : list string) : resp (bool * bool) :=
  period_loop indicators (true, false) period_list.

(** [x.buy_flag] where [x] is the result of [get_product_by_product_id]. *)
Definition buy_flag_of (x : option (nat * Product)) : resp bool :=
  match x with
  | Some (_, p) => Ret (buy_flag p)
  | None => Exc AttributeError
  end.

(** Lines 307 to 311: the gate of the pairs quoted in BTC. *)
Definition cross_pair_gate (e : TradeEngine) (pid : string)
    (flags : bool * bool) : resp (bool * bool) :=
  let '(new_buy_flag, new_sell_flag) := flags in
  if String.eqb pid "LTC-BTC" || String.eqb pid "ETH-BTC" then
    let ltc_or_eth_fiat_product :=
      get_product_by_product_id e
        (String.substring 0 3 pid ++ "-" ++ fiat_currency e)%string in
    let btc_fiat_product :=
      get_product_by_product_id e ("BTC-" ++ fiat_currency e)%string in
    (do b <- (if new_buy_flag then buy_flag_of ltc_or_eth_fiat_product
              else Ret false);
     do s <- (if new_sell_flag then buy_flag_of btc_fiat_product
              else Ret false);
     Ret (b, s))%resp
  else Ret flags.

(** The buy intent and the sell intent of [determine_trades]: the values of
    [new_buy_flag] and [new_sell_flag] at line 313. *)
Definition trade_intents (e : TradeEngine) (pid : string)
    (period_list : list string)
    (indicators : gmap string (gmap string Decimal)) : resp (bool * bool) :=
  (do flags <- period_flags indicators period_list;
   cross_pair_gate e pid flags)%resp.

Section Evaluator.

Variable E : Env.

Local Open Scope engine_scope.

(** An attribute of [product], the result of [get_product_by_product_id]. *)
Definition deref (product : option (nat * Product)) : M nat :=
  match product with
  | Some (i, _) => ret i
  | None => raise AttributeError
  end.

(** Lines 318 to 320: the size that the quote balance buys one tick under
    the ask. *)
Definition buy_tradable_amount (i : nat) (pid : string) : M Decimal :=
  p <- get_product i;;
  amount <- get_quoted_currency_from_product_id E pid;;
  ask <- call_env [] (fun t => book_get_ask E t i);;
  bid <- lift (Dec.sub ask (quote_increment p));;
  amount <- lift (to_Decimal amount);;
  quot <- lift (Dec.div amount bid);;
  lift (round_coin (Some quot)).

(** [product.order_thread = threading.Thread(...); product.order_thread.start()] *)
Definition start_thread (side : Side) (i : nat) : M unit :=
  modify_product i (set_order_thread side);;
  ask_env [ThreadStart side i] (fun _ => tt).

(** Lines 314 to 324: the branch of a buy intent. *)
Definition signal_buy (pid : string) (product : option (nat * Product))
  : M unit :=
  i <- deref product;;
  p <- get_product i;;
  (if sell_flag p then
     now <- ask_env [] (time_time E);;
     modify_product i (set_last_signal_switch now)
   else ret tt);;
  modify_product i (set_sell_flag false);;
  modify_product i (set_buy_flag true);;
  amount <- buy_tradable_amount i pid;;
  p <- get_product i;;
  if Dec.ge amount (min_size p) then
    if negb (order_in_progress p) then start_thread BuySide i
    else ret tt
  else ret tt.

(** Lines 326 to 333: the branch of a sell intent. *)
Definition signal_sell (product : option (nat * Product))
    (amount_of_coin : option Decimal) : M unit :=
  i <- deref product;;
  p <- get_product i;;
  (if buy_flag p then
     now <- ask_env [] (time_time E);;
     modify_product i (set_last_signal_switch now)
   else ret tt);;
  modify_product i (set_buy_flag false);;
  modify_product i (set_sell_flag true);;
  amount_of_coin <- lift (to_Decimal amount_of_coin);;
  p <- get_product i;;
  if Dec.ge amount_of_coin (min_size p) then
    if negb (order_in_progress p) then start_thread SellSide i
    else ret tt
  else ret tt.

(** Lines 335 and 336: neither intent. *)
Definition signal_flat (product : option (nat * Product)) : M unit :=
  i <- deref product;;
  modify_product i (set_buy_flag false);;
  modify_product i (set_sell_flag false).

(** [TradeEngine.determine_trades]; [period_list] holds the names of the
    periods. *)
Definition determine_trades (pid : string) (period_list : list string)
    (indicators : gmap string (gmap string Decimal)) : M unit :=
  update_amounts E;;
  e <- get_engine;;
  if is_live e then
    amount_of_coin <- get_base_currency_from_product_id E pid;;
    e <- get_engine;;
    let product := get_product_by_product_id e pid in
    '(new_buy_flag, new_sell_flag) <-
      lift (trade_intents e pid period_list indicators);;
    if new_buy_flag : bool then signal_buy pid product
    else if new_sell_flag : bool then signal_sell product amount_of_coin
    else signal_flat product
  else ret tt.

End Evaluator.

(** ** Shutdown and the order poller *)

(** The engine with the attributes that only [close] and [update_orders]
    use.  [all_open_orders] exists once it has been assigned. *)
Record Housekeeping : Set := mkHousekeeping {
  engine_of : TradeEngine;
  stop_update_order_thread : bool;
  last_order_update : Time;
  all_open_orders : option (list Order)
}.

Definition set_engine_of (e : TradeEngine) (k : Housekeeping) : Housekeeping :=
  mkHousekeeping e (stop_update_order_thread k) (last_order_update k)
    (all_open_orders k).

Definition set_stop_update_order_thread (b : bool) (k : Housekeeping)
  : Housekeeping :=
  mkHousekeeping (engine_of k) b (last_order_update k) (all_open_orders k).

Definition set_last_order_update (t : Time) (k : Housekeeping) : Housekeeping :=
  mkHousekeeping (engine_of k) (stop_update_order_thread k) t
    (all_open_orders k).

Definition set_all_open_orders (l : list Order) (k : Housekeeping)
  : Housekeeping :=
  mkHousekeeping (engine_of k) (stop_update_order_thread k)
    (last_order_update k) (Some l).

(** What the two methods do to the outside, in the order they do it. *)
Inductive Request : Set :=
| CancelEverything            (* auth_client.cancel_all() *)
| GetOrders                   (* auth_client.get_orders() *)
| Logged (e : exn).           (* error_logger.exception(...) *)

(** The body of the loop of [close] (lines 34 to 37). *)
Definition close_product (p : Product) : Product :=
  set_order_in_progress false (set_sell_flag false (set_buy_flag false p)).

(** [TradeEngine.close]; [cancel_all] is the answer of
    [auth_client.cancel_all()]. *)
Definition close (cancel_all : resp unit) (exit : bool) (k : Housekeeping)
  : Housekeeping * list Request :=
  let k := if exit then set_stop_update_order_thread true k else k in
  let k :=
    set_engine_of
      (set_products (close_product <$> products (engine_of k)) (engine_of k))
      k in
  match cancel_all with
  | Ret _ => (k, [CancelEverything])
  | Exc e => (k, [CancelEverything; Logged e])
  end.

(** Lines 51 to 54 of [update_orders]. *)
Definition need_updating (k : Housekeeping) : bool :=
  existsb order_in_progress (products (engine_of k)).

(** [self.get_product_by_product_id(order.get('product_id')).open_orders.append(order)] *)
Definition file_order (e : TradeEngine) (o : Order) : resp TradeEngine :=
  match o_product_id o with
  | None => Exc AttributeError
  | Some pid =>
      match get_product_by_product_id e pid with
      | Some (i, p) =>
          Ret (set_products
                 (<[i := set_open_orders (open_orders p ++ [o]) p]>
                    (products e))
                 e)
      | None => Exc AttributeError
      end
  end.

(** The loop of lines 62 and 63: it stops at the first order that raises,
    with what it has done so far. *)
Fixpoint file_orders (l : list Order) (e : TradeEngine)
  : TradeEngine * option exn :=
  match l with
  | [] => (e, None)
  | o :: l' =>
      match file_order e o with
      | Ret e' => file_orders l' e'
      | Exc ex => (e, Some ex)
      end
  end.

(** One iteration of the loop of [update_orders] up to its sleep (lines 51
    to 66): [now] and [now'] are the readings of the clock at lines 56 and
    64, [orders] is the answer of [list(self.auth_client.get_orders())]. *)
Definition poll_orders (now now' : Time) (orders : resp (list Order))
    (k : Housekeeping) : Housekeeping * list Request :=
  if need_updating k && (one_second <=? now - last_order_update k) then
    let k := set_all_open_orders [] k in
    match orders with
    | Exc ex => (k, [GetOrders; Logged ex])
    | Ret l =>
        let k := set_all_open_orders l k in
        let e :=
          set_products (set_open_orders [] <$> products (engine_of k))
            (engine_of k) in
        match file_orders l e with
        | (e', None) =>
            (set_last_order_update now' (set_engine_of e' k), [GetOrders])
        | (e', Some ex) => (set_engine_of e' k, [GetOrders; Logged ex])
        end
    end
  else (k, []).

(** What surrounds one iteration: the two readings of the clock, the answer
    of the exchange, and what the other threads do to the engine while the
    poller sleeps (line 67). *)
Record Turn : Type := mkTurn {
  t_time : Time;
  t_time' : Time;
  t_orders : resp (list Order);
  t_others : Housekeeping -> Housekeeping
}.

(** [TradeEngine.update_orders] over the turns that are scheduled.  The
    first component is [true] when the loop has ended and [false] when the
    turns have run out first. *)
Fixpoint update_orders (turns : list Turn) (k : Housekeeping)
  : bool * Housekeeping * list Request :=
  if stop_update_order_thread k then (true, k, [])
  else
    match turns with
    | [] => (false, k, [])
    | t :: rest =>
        let '(k1, reqs) := poll_orders (t_time t) (t_time' t) (t_orders t) k in
        let '(done, k2, reqs') := update_orders rest (t_others t k1) in
        (done, k2, reqs ++ reqs')
    end.

(** * The vocabulary of the properties *)

(** ** Runs and events *)

(** The events that a run from [w] to [w'] has added. *)
Definition events_since (w w' : World) : list Event :=
  drop (length (trace w)) (trace w').

(** Every run of [c] relates its initial and its final world by [R]. *)
Definition respects {A} (R : World -> World -> Prop) (c : M A) : Prop :=
  forall w r w', c w = (r, w') -> R w w'.

(** [c] has no loop: it never runs out of fuel. *)
Definition total {A} (c : M A) : Prop :=
  forall w, fst (c w) <> OutOfFuel.

(** The events of a refresh of the balances. *)
Definition quiet (ev : Event) : Prop :=
  match ev with
  | GetAccounts | ErrorLogged _ => True
  | _ => False
  end.

(** A step that may refresh the balances and nothing else: the products,
    the configuration and the orders at the exchange are as before. *)
Definition balance_step (w w' : World) : Prop :=
  products (engine w') = products (engine w)
  /\ is_live (engine w') = is_live (engine w)
  /\ fiat_currency (engine w') = fiat_currency (engine w)
  /\ max_slippage (engine w') = max_slippage (engine w)
  /\ exists evs, trace w' = trace w ++ evs /\ Forall quiet evs.

(** ** The rules of the signal evaluator *)

(** The indicators of one period.  The three definitions after it state
    the rules in the words of the specification, to be compared with the
    loop of [determine_trades]. *)
Record IndicatorSet : Set := mkIndicatorSet {
  adx : Decimal;
  obv : Decimal;
  obv_ema : Decimal;
  stoch_slowk : Decimal;
  stoch_slowd : Decimal
}.

(** A period trends when its ADX is above 25 and ranges otherwise. *)
Definition trending (s : IndicatorSet) : bool := Dec.gt (adx s) (D 25 0).

(** Trending: OBV above its average.  Ranging: %K above %D and %K below
    50. *)
Definition period_buy_condition (s : IndicatorSet) : bool :=
  if trending s then Dec.gt (obv s) (obv_ema s)
  else Dec.gt (stoch_slowk s) (stoch_slowd s)
       && Dec.lt (stoch_slowk s) (D 500 (-1)).

(** Trending: OBV below its average.  Ranging: %K below %D or %K above
    50. *)
Definition period_sell_condition (s : IndicatorSet) : bool :=
  if trending s then Dec.lt (obv s) (obv_ema s)
  else Dec.lt (stoch_slowk s) (stoch_slowd s)
       || Dec.gt (stoch_slowk s) (D 500 (-1)).

(** [s] holds the five indicators of the period [name]. *)
Definition indicators_of (indicators : gmap string (gmap string Decimal))
    (name : string) (s : IndicatorSet) : Prop :=
  indicator indicators name "adx" = Ret (adx s)
  /\ indicator indicators name "obv" = Ret (obv s)
  /\ indicator indicators name "obv_ema" = Ret (obv_ema s)
  /\ indicator indicators name "stoch_slowk" = Ret (stoch_slowk s)
  /\ indicator indicators name "stoch_slowd" = Ret (stoch_slowd s).

(** ** Worlds *)

(** The world in which the product at position [i] has become [p]. *)
Definition with_product (i : nat) (p : Product) (w : World) : World :=
  mkWorld (set_products (<[i := p]> (products (engine w))) (engine w))
    (tick w) (trace w).

(** The world after an interaction that recorded [evs]. *)
Definition after_env (evs : list Event) (w : World) : World :=
  mkWorld (engine w) (S (tick w)) (trace w ++ evs).

(** ** The flags after a call *)

(** The product after each of the three branches of [determine_trades];
    first after the branch of a buy intent. *)
Definition switched_to_buy (now : Time) (p : Product) : Product :=
  set_buy_flag true
    (set_sell_flag false
       (if sell_flag p then set_last_signal_switch now p else p)).

(** After the branch of a sell intent. *)
Definition switched_to_sell (now : Time) (p : Product) : Product :=
  set_sell_flag true
    (set_buy_flag false
       (if buy_flag p then set_last_signal_switch now p else p)).

(** After the branch of neither intent. *)
Definition flattened (p : Product) : Product :=
  set_sell_flag false (set_buy_flag false p).

(** What a live call does to the flags of its product: the buy flag and the
    sell flag become the intents, and [last_signal_switch] is set to the
    time [now] exactly when the product leaves the opposite state. *)
Definition flag_transition (b s : bool) (now : Time) (p p' : Product) : Prop :=
  buy_flag p' = b
  /\ sell_flag p' = s
  /\ last_signal_switch p'
     = (if (b && sell_flag p) || (s && buy_flag p) then now
        else last_signal_switch p)
  /\ order_in_progress p' = order_in_progress p
  /\ open_orders p' = open_orders p.

(** The product at [i] has become [p'] and the others are as they were. *)
Definition only_product_changed (i : nat) (p' : Product) (w w' : World) : Prop :=
  products (engine w') !! i = Some p'
  /\ forall j, j <> i -> products (engine w') !! j = products (engine w) !! j.

(** No product has its buy flag and its sell flag true together. *)
Definition flags_exclusive (w : World) : Prop :=
  forall j q,
    products (engine w) !! j = Some q -> buy_flag q && sell_flag q = false.

(** The call has raised and has left every product as it was. *)
Definition raised_untouched (w : World) (r : result unit) (w' : World)
  : Prop :=
  (exists e, r = Raise e) /\ products (engine w') = products (engine w).

(** The flags after a live call of [determine_trades] that starts in [w]
    and ends in [w'] with [r].  When the two refreshes of the balances that
    open the call return (lines 287 and 290), its intents [b] and [s] are
    computed and its product is found, the call has reached line 313: the
    intents do not hold together, the product has made the transition of
    the intents, with the clock read right after the second refresh, and
    no other product has changed.  In every other case the call has raised
    before line 313 and has left the products as they were. *)
Definition flags_after (E : Env) (pid : string) (period_list : list string)
    (indicators : gmap string (gmap string Decimal)) (w : World)
    (r : result unit) (w' : World) : Prop :=
  match update_amounts E w with
  | (Ok _, w0) =>
      match get_base_currency_from_product_id E pid w0 with
      | (Ok _, w1) =>
          match trade_intents (engine w) pid period_list indicators,
                get_product_by_product_id (engine w) pid with
          | Ret (b, s), Some (i, p) =>
              b && s = false
              /\ exists p',
                   only_product_changed i p' w w'
                   /\ flag_transition b s (time_time E (tick w1)) p p'
                   /\ buy_flag p' && sell_flag p' = false
          | _, _ => raised_untouched w r w'
          end
      | _ => raised_untouched w r w'
      end
  | _ => raised_untouched w r w'
  end.

(** The world in which the branch of a buy intent (lines 314 to 317),
    entered in [w1], has set the flags of the product [p] at [i]: the clock
    is read only when the product was in the sell state. *)
Definition buy_world (E : Env) (i : nat) (p : Product) (w1 : World) : World :=
  with_product i (switched_to_buy (time_time E (tick w1)) p)
    (if sell_flag p then after_env [] w1 else w1).

(** ** Sizes and truncation *)

(** The size [a] that the quote balance [q] buys one tick under the ask:
    the quotient of the balance by the ask minus the quote increment,
    truncated to 8 decimal places. *)
Definition buy_size (q ask increment a : Decimal) : Prop :=
  exists bid quot,
    Dec.sub ask increment = Ret bid
    /\ Dec.div q bid = Ret quot
    /\ round_coin (Some quot) = Ret a.

(** The coefficient of a non-negative decimal truncated to [k] places. *)
Definition truncated (x : Decimal) (k : Z) : Z :=
  if - k <=? Dec.exp x then Dec.coeff x * 10 ^ (Dec.exp x + k)
  else Dec.coeff x / 10 ^ (- k - Dec.exp x).

(** [r] is [x] truncated toward zero to [k] decimal places, [P] being
    [10 ^ k]. *)
Definition truncation_of (x r : Decimal) (k : Z) (P : positive) : Prop :=
  Dec.exp r = - k
  /\ Dec.coeff r = Qfloor (Dec.value x * inject_Z (Z.pos P))
  /\ (Dec.value r <= Dec.value x)%Q
  /\ (Dec.value x < Dec.value r + (1 # P))%Q.

(** ** The end of a chase *)

(** What [chase_finish] does once its [try] block has raised [ex]: the
    handler (lines 170 and 171), then lines 172 and 173. *)
Definition chase_abort (E : Env) (i : nat) (ex : exn) : M unit :=
  (modify_product i (set_order_in_progress false);;
   log_error ex;;
   p <- get_product i;;
   call_env [CancelAll (product_id p)]
     (fun t => api_cancel_all E t (product_id p));;
   modify_product i (set_order_in_progress false))%M.

(** The tail of a chase whose loop is left normally: lines 172 and 173. *)
Definition chase_close (E : Env) (i : nat) : M unit :=
  (p <- get_product i;;
   call_env [CancelAll (product_id p)]
     (fun t => api_cancel_all E t (product_id p));;
   modify_product i (set_order_in_progress false))%M.

(** The placing of a limit order. *)
Definition is_limit_order (ev : Event) : Prop :=
  match ev with
  | PlaceLimitOrder _ _ _ _ _ => True
  | _ => False
  end.

(** The escalation of a chase on [side], [read] being the refresh and
    reading of the balance that is sold or spent: the runs of
    [buy_escalate] and [sell_escalate] at a product [p]. *)
Definition escalate_run (E : Env) (side : Side) (read : M (option Decimal))
    (i : nat) (p : Product) (w : World) : result unit * World :=
  match api_cancel_all E (tick w) (product_id p) with
  | Exc e => (Raise e, after_env [CancelAll (product_id p)] w)
  | Ret _ =>
      match read (after_env [CancelAll (product_id p)] w) with
      | (Ok q, wq) =>
          match api_place_market_order E (tick wq) (product_id p) side q with
          | Ret _ =>
              (Ok tt,
               with_product i (set_order_in_progress false p)
                 (after_env [PlaceMarketOrder (product_id p) side q] wq))
          | Exc e =>
              (Raise e, after_env [PlaceMarketOrder (product_id p) side q] wq)
          end
      | (Raise e, wq) => (Raise e, wq)
      | (OutOfFuel, wq) => (OutOfFuel, wq)
      end
  end.

(** The result of a chase whose last call is the cancel-all of line 172 or
    232, made at the tick [t]: the chase returns when the exchange answers
    and raises what the exchange raises. *)
Definition chase_result (E : Env) (t : nat) (pid : string) : result unit :=
  match api_cancel_all E t pid with
  | Ret _ => Ok tt
  | Exc e => Raise e
  end.

(** The course of an escalation that starts in [w1], right after the
    slippage test, and ends in [w'] with result [r].  The chase ends;
    [order_in_progress] of the product is false and nothing else has
    changed in the products; the first event is the cancel-all and no limit
    order follows.  The events [evs] after that cancel-all are, case by
    case:
    - the cancel-all raises: the handler logs the error and the chase makes
      its last cancel-all; no market order is placed;
    - the cancel-all answers and the refresh of the balance raises: the
      events of the refresh, then the same two events of the handler;
    - the balance [q] is read and the market order for [q] raises: the
      events of the refresh, the market order, then the same two events;
    - the market order answers: the events of the refresh and the market
      order, which is the last call of the chase, and the chase returns. *)
Definition escalated (E : Env) (side : Side) (read : M (option Decimal))
    (i : nat) (p : Product) (w1 : World) (r : result unit) (w' : World)
  : Prop :=
  r <> OutOfFuel
  /\ (exists p', products (engine w') !! i = Some p'
                 /\ order_in_progress p' = false)
  /\ products (engine w')
     = <[i := set_order_in_progress false p]> (products (engine w1))
  /\ exists evs,
       events_since w1 w' = CancelAll (product_id p) :: evs
       /\ Forall (fun ev => ~ is_limit_order ev) evs
       /\ match api_cancel_all E (tick w1) (product_id p) with
          | Exc e =>
              evs = [ErrorLogged e; CancelAll (product_id p)]
              /\ r = chase_result E (S (tick w1)) (product_id p)
          | Ret _ =>
              match read (after_env [CancelAll (product_id p)] w1) with
              | (Ok q, wq) =>
                  Forall quiet
                    (events_since (after_env [CancelAll (product_id p)] w1) wq)
                  /\ match api_place_market_order E (tick wq) (product_id p)
                             side q with
                     | Ret _ =>
                         evs
                         = events_since
                             (after_env [CancelAll (product_id p)] w1) wq
                           ++ [PlaceMarketOrder (product_id p) side q]
                         /\ r = Ok tt
                     | Exc e =>
                         evs
                         = events_since
                             (after_env [CancelAll (product_id p)] w1) wq
                           ++ [PlaceMarketOrder (product_id p) side q;
                               ErrorLogged e; CancelAll (product_id p)]
                         /\ r = chase_result E (S (tick wq)) (product_id p)
                     end
              | (Raise e, wq) =>
                  Forall quiet
                    (events_since (after_env [CancelAll (product_id p)] w1) wq)
                  /\ evs
                     = events_since
                         (after_env [CancelAll (product_id p)] w1) wq
                       ++ [ErrorLogged e; CancelAll (product_id p)]
                  /\ r = chase_result E (tick wq) (product_id p)
              | (OutOfFuel, _) => False
              end
          end.

(** The parts of the two chases, by side. *)
Definition chase_condition (side : Side) : nat -> Chase -> M bool :=
  match side with
  | BuySide => buy_condition
  | SellSide => sell_condition
  end.

Definition chase_slippage (E : Env) (side : Side) : Decimal -> nat -> M bool :=
  match side with
  | BuySide => buy_slippage E
  | SellSide => sell_slippage E
  end.

Definition chase_from_loop (E : Env) (side : Side)
  : nat -> Decimal -> nat -> Chase -> M unit :=
  match side with
  | BuySide => buy_from_loop E
  | SellSide => sell_from_loop E
  end.

(** The balance that an escalation trades: the quote currency of a buy,
    the base currency of a sell. *)
Definition chase_balance (E : Env) (side : Side) (pid : string)
  : M (option Decimal) :=
  match side with
  | BuySide => get_quoted_currency_from_product_id E pid
  | SellSide => get_base_currency_from_product_id E pid
  end.

(** A step of a chase: the trace grows, and every product stays in its
    place with its id. *)
Definition chase_step (w w' : World) : Prop :=
  (exists evs, trace w' = trace w ++ evs)
  /\ forall j p,
       products (engine w) !! j = Some p ->
       exists p', products (engine w') !! j = Some p'
                  /\ product_id p' = product_id p.

(** The two chases, by side. *)
Definition chase (E : Env) (side : Side) : nat -> nat -> M unit :=
  match side with
  | BuySide => buy E
  | SellSide => sell E
  end.

(** ** The tables of the currencies *)

(** The name of a coin; the fiat currency is the one of the configuration. *)
Definition currency_name (c : Currency) : option string :=
  match c with
  | BTC => Some "BTC"%string
  | BCH => Some "BCH"%string
  | ETH => Some "ETH"%string
  | LTC => Some "LTC"%string
  | FIAT => None
  end.

#[global] Instance Currency_eq_dec : EqDecision Currency.
Proof. solve_decision. Defined.

(** ** A refresh of the balances *)

(** Every balance is [Decimal('0.0')]. *)
Definition zeroed : Balances :=
  mkBalances (Some (D 0 (-1))) (Some (D 0 (-1))) (Some (D 0 (-1)))
    (Some (D 0 (-1))) (Some (D 0 (-1))).

(** A call of [update_amounts] in [w] refreshes: the clock is more than a
    second past the last refresh. *)
Definition refresh_due (E : Env) (w : World) : Prop :=
  one_second < time_time E (tick w) - last_balance_update (engine w).

(** The answer of [get_accounts] to a refresh that starts in [w], after the
    two readings of the clock. *)
Definition accounts_answer (E : Env) (w : World) : resp Accounts :=
  api_get_accounts E (S (S (tick w))).

(** The world in which the accounts are stored: the refresh is stamped with
    the second reading of the clock and [get_accounts] has answered. *)
Definition stamped (E : Env) (w : World) : World :=
  mkWorld (set_last_balance_update (time_time E (S (tick w))) (engine w))
    (S (S (S (tick w)))) (trace w ++ [GetAccounts]).

(** The handler of [update_amounts] (lines 93 to 99) run in [w]. *)
Definition zeroed_world (ex : exn) (w : World) : World :=
  mkWorld
    (set_fiat_equivalent (D 0 (-1)) (set_balances zeroed (engine w)))
    (tick w) (trace w ++ [ErrorLogged ex]).

(** The statements of [update_amounts] after its [try] block (lines 102 to
    106). *)
Definition revalue (E : Env) : M unit :=
  (modify_engine (set_fiat_equivalent (D 0 (-1)));;
   e <- get_engine;;
   mark_products E 0 (products e);;
   e <- get_engine;;
   f <- read_balance FIAT;;
   s <- lift (Dec.add (fiat_equivalent e) f);;
   modify_engine (set_fiat_equivalent s))%M.

(** The balance that an account of the answer is stored in: the first
    branch of lines 82 to 91 that its currency matches. *)
Definition account_currency (fiat_currency : string) (a : Account)
  : option Currency :=
  if is_str (currency a) "BTC" then Some BTC
  else if is_str (currency a) "BCH" then Some BCH
  else if is_str (currency a) "ETH" then Some ETH
  else if is_str (currency a) "LTC" then Some LTC
  else if is_str (currency a) fiat_currency then Some FIAT
  else None.

(** The rounding of a balance: 2 places for the fiat currency, 8 for a
    coin. *)
Definition round_as (c : Currency) : option Decimal -> resp Decimal :=
  match c with
  | FIAT => round_fiat
  | _ => round_coin
  end.

Definition with_balance (c : Currency) (d : Decimal) (w : World) : World :=
  mkWorld (set_balances (set_balance c d (balances (engine w))) (engine w))
    (tick w) (trace w).

(** The engine stores every account of the answer that it has a balance
    for: the amount of such an account rounds. *)
Definition readable (fiat_currency : string) (a : Account) : Prop :=
  forall c, account_currency fiat_currency a = Some c ->
            exists d, round_as c (available a) = Ret d.

(** The balance of [c] once the accounts [l] have been stored over the
    balance [old]: the rounded amount of the last account of that currency,
    [old] when there is none. *)
Definition refreshed (fiat_currency : string) (l : list Account)
    (c : Currency) (old : option Decimal) : option Decimal :=
  match last (filter (fun a => account_currency fiat_currency a = Some c) l) with
  | Some a =>
      match round_as c (available a) with
      | Ret d => Some d
      | Exc _ => None
      end
  | None => old
  end.

(** A step that may change the valuation [fiat_equivalent] and nothing else
    of the engine, and that records no event. *)
Definition marking_step (w w' : World) : Prop :=
  balances (engine w') = balances (engine w)
  /\ products (engine w') = products (engine w)
  /\ last_balance_update (engine w') = last_balance_update (engine w)
  /\ trace w' = trace w.

(** ** Rounding, whatever the sign *)

(** The decimal without its sign. *)
Definition unsigned (x : Decimal) : Decimal :=
  Dec.mk (Dec.magnitude x) (Dec.exp x).

Definition resp_map {A B} (f : A -> B) (r : resp A) : resp B :=
  match r with
  | Ret a => Ret (f a)
  | Exc e => Exc e
  end.

(** [r] is [x] rounded toward zero to [k] decimal places, [P] being
    [10 ^ k]: without their signs [r] is the truncation of [x], and [r] has
    the sign of [x] unless it is zero. *)
Definition toward_zero (x r : Decimal) (k : Z) (P : positive) : Prop :=
  truncation_of (unsigned x) (unsigned r) k P
  /\ Dec.coeff r = Z.sgn (Dec.coeff x) * Dec.magnitude r.

(** ** The orders of the poller *)

(** The position of the product that an order is filed under: the first
    product with the product id of the order. *)
Definition destination (e : TradeEngine) (o : Order) : option nat :=
  pid ← o_product_id o; fst <$> get_product_by_product_id e pid.

(** How far the loop of lines 62 and 63 gets: the orders before the first
    one that has no destination. *)
Fixpoint filed (e : TradeEngine) (l : list Order) : list Order :=
  match l with
  | [] => []
  | o :: l' =>
      match destination e o with
      | Some _ => o :: filed e l'
      | None => []
      end
  end.

(** The product at [j] once the orders [l] have been appended to the open
    orders of their destinations. *)
Definition with_orders (e : TradeEngine) (l : list Order) (j : nat)
    (p : Product) : Product :=
  set_open_orders
    (open_orders p ++ filter (fun o => destination e o = Some j) l) p.

(** The engine in which every product has lost its open orders (lines 60
    and 61). *)
Definition without_orders (e : TradeEngine) : TradeEngine :=
  set_products (set_open_orders [] <$> products e) e.

(** The order names a product of the engine. *)
Definition known (e : TradeEngine) (o : Order) : Prop :=
  exists pid, o_product_id o = Some pid
              /\ pid ∈ (product_id <$> products e).

(** The orders of [l] for the product [p], in the order of [l]. *)
Definition orders_of (p : Product) (l : list Order) : list Order :=
  filter (fun o => o_product_id o = Some (product_id p)) l.

(** A request to the exchange, as opposed to an entry of the error log. *)
Definition to_exchange (r : Request) : bool :=
  match r with
  | Logged _ => false
  | _ => true
  end.

(** ** What a chase asks of the exchange *)

(** The product at [i] is the product [pid] with the minimum size [m]. *)
Definition trades (i : nat) (pid : string) (m : Decimal) (w : World) : Prop :=
  exists p, products (engine w) !! i = Some p
            /\ product_id p = pid /\ min_size p = m.

(** The events of a chase of [side] on the product [pid]: its limit orders
    are post-only, on its side and of at least the minimum size [m]; its
    market orders and its cancel-alls name the product; it starts no
    thread. *)
Definition chase_event (pid : string) (m : Decimal) (side : Side)
    (ev : Event) : Prop :=
  match ev with
  | GetAccounts | ErrorLogged _ | CancelOrder _ | GetOrder _ => True
  | PlaceLimitOrder pid' side' size _ post_only =>
      pid' = pid /\ side' = side /\ post_only = true
      /\ Dec.ge size m = true
  | PlaceMarketOrder pid' side' _ => pid' = pid /\ side' = side
  | CancelAll pid' => pid' = pid
  | ThreadStart _ _ => False
  end.

(** From a world where [I] holds, every run of [c] ends in a world where
    [I] holds and records only events that are [ok]. *)
Definition keeps {A} (I : World -> Prop) (ok : Event -> Prop) (c : M A)
  : Prop :=
  forall w r w',
    I w -> c w = (r, w') ->
    I w' /\ exists evs, trace w' = trace w ++ evs /\ Forall ok evs.

(** The requests of [cancel_others] for the open orders [l] when the order
    that stays is [r]: a cancel for every order with another id, in the
    order of [l]. *)
Definition cancels (l : list Order) (r : Order) : list Event :=
  (fun o => CancelOrder (o_id o))
    <$> filter (fun o => same_id (o_id o) (o_id r) = false) l.

(** The side of the order book that a chase reads: the ask for a buy, the
    bid for a sell. *)
Definition chase_book (E : Env) (side : Side) : nat -> nat -> resp Decimal :=
  match side with
  | BuySide => book_get_ask E
  | SellSide => book_get_bid E
  end.

(** ** Placing an order *)

(** The order is one that [place_buy] and [place_sell] append to the open
    orders of the product: it is pending or open. *)
Definition resting (o : Order) : bool :=
  is_str (o_status o) "pending" || is_str (o_status o) "open".

(** What a call of [place_buy] or [place_sell] for the product [p] at [i]
    has done when it ends in [w'] with [r].  Either it has placed no order:
    then it has returned the literal [{'status': 'done'}] or raised, and the
    products are as before.  Or its last event is a post-only limit order
    for the product, on its side and of at least the minimum size: then the
    order that the exchange has answered is appended to the open orders of
    the product if it is pending or open, and nothing else has changed in
    the products. *)
Definition placed (side : Side) (i : nat) (p : Product) (w : World)
    (r : result Order) (w' : World) : Prop :=
  (Forall quiet (events_since w w')
   /\ products (engine w') = products (engine w)
   /\ (r = Ok done_order \/ exists e, r = Raise e))
  \/ exists evs size price,
       events_since w w'
       = evs ++ [PlaceLimitOrder (product_id p) side size price true]
       /\ Forall quiet evs
       /\ Dec.ge size (min_size p) = true
       /\ match r with
          | Ok o =>
              products (engine w')
              = if resting o
                then <[i := set_open_orders (open_orders p ++ [o]) p]>
                       (products (engine w))
                else products (engine w)
          | Raise _ => products (engine w') = products (engine w)
          | OutOfFuel => False
          end.

(** The result of a call that returns what the exchange answers, and
    raises what the exchange raises. *)
Definition answered {A} (a : resp A) : result A :=
  match a with
  | Ret x => Ok x
  | Exc e => Raise e
  end.

(** The offer of [place_buy] for [funds] of the quote currency at the best
    ask [ask]: its price is one quote increment under the ask, its size is
    the quotient of the funds by that price, truncated to 8 decimal
    places. *)
Definition buy_offer (funds ask increment size price : Decimal) : Prop :=
  Dec.sub ask increment = Ret price
  /\ exists quot,
       Dec.div funds price = Ret quot /\ round_coin (Some quot) = Ret size.

(** The call that ends in [w'] with [r] has asked the exchange, in the
    world [w1], for a post-only limit order of [size] at [price]: the order
    is its last event, after the events up to [w1], and the call returns
    what the exchange answers. *)
Definition ordered (E : Env) (side : Side) (p : Product)
    (size price : Decimal) (w w1 : World) (r : result Order) (w' : World)
  : Prop :=
  events_since w w'
  = events_since w w1
    ++ [PlaceLimitOrder (product_id p) side size price true]
  /\ r = answered (api_place_limit_order E (tick w1) (product_id p) side
                     size price true).

(** ** Examples *)

(** The two periods of the specification's example: P1 trends (ADX 30) with
    OBV 10 above its average 5, P2 ranges (ADX 10) with %K 40 above %D 20
    and under 50. *)
Definition example_sets : list IndicatorSet :=
  [ mkIndicatorSet (D 30 0) (D 10 0) (D 5 0) (D 0 0) (D 0 0);
    mkIndicatorSet (D 10 0) (D 0 0) (D 0 0) (D 40 0) (D 20 0) ].

Definition indicators_map (s : IndicatorSet) : gmap string Decimal :=
  {[ "adx"%string := adx s; "obv"%string := obv s;
     "obv_ema"%string := obv_ema s; "stoch_slowk"%string := stoch_slowk s;
     "stoch_slowd"%string := stoch_slowd s ]}.

Definition example_indicators : gmap string (gmap string Decimal) :=
  {[ "P1"%string := indicators_map (mkIndicatorSet (D 30 0) (D 10 0) (D 5 0) (D 0 0) (D 0 0));
     "P2"%string := indicators_map (mkIndicatorSet (D 10 0) (D 0 0) (D 0 0) (D 40 0) (D 20 0)) ]}.

Definition btc_usd : Product :=
  mkProduct "BTC-USD" false (D 1 (-3)) (D 1 (-2)) true false false [] 0 None.

(** An engine that trades BTC-USD with 100.00 of fiat, the clock standing
    still so that the balances are not refreshed. *)
Definition demo_engine : TradeEngine :=
  mkEngine "USD" true (D 10 (-2)) [btc_usd] 0
    (mkBalances (Some (D 0 (-8))) None None None (Some (D 10000 (-2))))
    (D 0 0).

Definition resting_order : Order :=
  mkOrder (Some "o1") (Some "pending") None (Some (D 4999999 (-2)))
    (Some "BTC-USD").

(** An exchange with a best ask of [ask] that answers every call, except
    that [cancel_all] raises from the tick [broken] on. *)
Definition demo_env (ask : Decimal) (broken : nat) : Env :=
  mkEnv (fun _ => 0) (fun _ => Exc ExchangeError)
    (fun _ _ _ _ _ _ => Ret resting_order)
    (fun _ _ _ _ => Ret done_order)
    (fun t _ => if (t <? broken)%nat then Ret tt else Exc ExchangeError)
    (fun _ _ => Ret tt)
    (fun _ _ => Ret resting_order)
    (fun _ _ => Ret ask) (fun _ _ => Ret ask)
    (fun _ _ => None)
    (fun _ _ p => mkShared (buy_flag p) (sell_flag p) (open_orders p)).

Definition demo_world : World := mkWorld demo_engine 0 [].

(** A chase on BTC-USD that started at 49999.99 with an order resting
    there and 100.00 of fiat. *)
Definition demo_chase : Chase :=
  mkChase resting_order (Some (D 4999999 (-2))) (Some (D 10000 (-2))) 0.

(** The other threads clear the flags of every product at the first sleep
    of a chase, as [determine_trades] does for its product when neither
    intent holds (lines 335 and 336). *)
Definition closing_env (broken : nat) : Env :=
  mkEnv (fun _ => 0) (fun _ => Exc ExchangeError)
    (fun _ _ _ _ _ _ => Ret resting_order)
    (fun _ _ _ _ => Ret done_order)
    (fun t _ => if (t <? broken)%nat then Ret tt else Exc ExchangeError)
    (fun _ _ => Ret tt)
    (fun _ _ => Ret resting_order)
    (fun _ _ => Ret (D 50000 0)) (fun _ _ => Ret (D 50000 0))
    (fun _ _ => None)
    (fun _ _ p => mkShared false false (open_orders p)).

(** An engine that holds 1 BTC and is to sell it. *)
Definition holder_world : World :=
  mkWorld
    (mkEngine "USD" true (D 10 (-2))
       [set_sell_flag true (set_buy_flag false btc_usd)] 0
       (mkBalances (Some (D 100000000 (-8))) None None None (Some (D 0 (-2))))
       (D 0 0))
    0 [].

(** Engines with the three products of the gate: BTC-USD is not in a buy
    state; LTC-USD is, or is not. *)
Definition gate_engine (ltc_usd_buys : bool) : TradeEngine :=
  mkEngine "USD" true (D 10 (-2))
    [ set_buy_flag false btc_usd;
      mkProduct "LTC-USD" false (D 1 (-1)) (D 1 (-2)) ltc_usd_buys false false
        [] 0 None;
      mkProduct "LTC-BTC" false (D 1 (-1)) (D 1 (-5)) false false false
        [] 0 None ]
    0 (mkBalances (Some (D 0 (-8))) None None (Some (D 0 (-8)))
         (Some (D 10000 (-2))))
    (D 0 0).

(** The live call of the example: BTC-USD with the two periods of the
    specification's example. *)
Definition demo_call : result unit * World :=
  determine_trades (demo_env (D 50000 0) 1000) "BTC-USD" ["P1"; "P2"]
    example_indicators demo_world.

(** The same engine in simulated mode. *)
Definition simulated_world : World :=
  mkWorld
    (mkEngine "USD" false (D 10 (-2)) [btc_usd] 0
       (mkBalances (Some (D 0 (-8))) None None None (Some (D 10000 (-2))))
       (D 0 0))
    0 [].

(** An exchange whose clock stands at two seconds and whose [get_accounts]
    answers [answer]; no order book has a ticker. *)
Definition refresh_env (answer : resp Accounts) : Env :=
  mkEnv (fun _ => 2000000) (fun _ => answer)
    (fun _ _ _ _ _ _ => Ret resting_order)
    (fun _ _ _ _ => Ret done_order)
    (fun _ _ => Ret tt)
    (fun _ _ => Ret tt)
    (fun _ _ => Ret resting_order)
    (fun _ _ => Ret (D 50000 0)) (fun _ _ => Ret (D 50000 0))
    (fun _ _ => None)
    (fun _ _ p => mkShared (buy_flag p) (sell_flag p) (open_orders p)).

(** An answer of [get_accounts] with two accounts in BTC: 1.5 BTC, 10.129
    USD and 2.5 BTC. *)
Definition three_accounts : list Account :=
  [ mkAccount (Some "BTC"%string) (Some (D 15 (-1)));
    mkAccount (Some "USD"%string) (Some (D 10129 (-3)));
    mkAccount (Some "BTC"%string) (Some (D 25 (-1))) ].

(** An engine that has never stored a balance. *)
Definition fresh_world : World :=
  mkWorld
    (mkEngine "USD" true (D 10 (-2)) [btc_usd] 0
       (mkBalances None None None None None) (D 0 0))
    0 [].

(** A live call that finds BTC-USD in the sell state, with the buy intent of
    the two periods of the example and the clock at two seconds. *)
Definition switch_call : result unit * World :=
  determine_trades (refresh_env (Ret (AccountList three_accounts))) "BTC-USD"
    ["P1"; "P2"] example_indicators holder_world.

(** An exchange whose order book of the first product does not answer. *)
Definition bookless_env : Env :=
  mkEnv (fun _ => 0) (fun _ => Exc ExchangeError)
    (fun _ _ _ _ _ _ => Ret resting_order)
    (fun _ _ _ _ => Ret done_order)
    (fun _ _ => Ret tt)
    (fun _ _ => Ret tt)
    (fun _ _ => Ret resting_order)
    (fun _ _ => Exc ExchangeError) (fun _ _ => Exc ExchangeError)
    (fun _ _ => None)
    (fun _ _ p => mkShared (buy_flag p) (sell_flag p) (open_orders p)).

(** An exchange whose clock stands at two seconds and whose [get_order]
    raises ValueError. *)
Definition lost_order_env : Env :=
  mkEnv (fun _ => 2000000) (fun _ => Exc ExchangeError)
    (fun _ _ _ _ _ _ => Ret resting_order)
    (fun _ _ _ _ => Ret done_order)
    (fun _ _ => Ret tt)
    (fun _ _ => Ret tt)
    (fun _ _ => Exc ValueError)
    (fun _ _ => Ret (D 50000 0)) (fun _ _ => Ret (D 50000 0))
    (fun _ _ => None)
    (fun _ _ p => mkShared (buy_flag p) (sell_flag p) (open_orders p)).

Definition eth_usd : Product :=
  mkProduct "ETH-USD" false (D 1 (-2)) (D 1 (-2)) false true false [] 0 None.

(** An engine with BTC-USD in a buy state with an order in progress and
    ETH-USD in a sell state, its orders last polled at time 0. *)
Definition demo_housekeeping : Housekeeping :=
  mkHousekeeping
    (mkEngine "USD" true (D 10 (-2))
       [set_order_in_progress true btc_usd; eth_usd] 0
       (mkBalances (Some (D 0 (-8))) None (Some (D 0 (-8))) None
          (Some (D 10000 (-2))))
       (D 0 0))
    false 0 None.

(** An open order [id] of the product [pid]. *)
Definition order_for (id pid : string) : Order :=
  mkOrder (Some id) (Some "open"%string) None (Some (D 4999999 (-2)))
    (Some pid).

Definition demo_orders : list Order :=
  [ order_for "o1" "BTC-USD"; order_for "o2" "ETH-USD";
    order_for "o3" "BTC-USD" ].

(** A turn of the poller during which another thread shuts the engine
    down. *)
Definition closing_turn : Turn :=
  mkTurn 2000000 2000001 (Ret demo_orders)
    (fun k => fst (close (Ret tt) true k)).

(** * Properties *)

(** ** Reasoning about engine code *)

Lemma bind_inv {A B} (c : M A) (k : A -> M B) w r w' :
  bind c k w = (r, w') ->
  (exists a w1, c w = (Ok a, w1) /\ k a w1 = (r, w'))
  \/ (exists e, c w = (Raise e, w') /\ r = Raise e)
  \/ (c w = (OutOfFuel, w') /\ r = OutOfFuel).
Proof.
  unfold bind. destruct (c w) as [[a|e|] w1]; intros H.
  - left. eauto.
  - right; left. inversion H; subst. eauto.
  - right; right. inversion H; subst. eauto.
Qed.

Lemma bind_ok {A B} (c : M A) (k : A -> M B) w a w1 :
  c w = (Ok a, w1) -> bind c k w = k a w1.
Proof. intros H. unfold bind. now rewrite H. Qed.

Lemma bind_raise {A B} (c : M A) (k : A -> M B) w e w1 :
  c w = (Raise e, w1) -> bind c k w = (Raise e, w1).
Proof. intros H. unfold bind. now rewrite H. Qed.

Lemma try_except_inv {A} (body : M A) (h : exn -> M A) w r w' :
  try_except body h w = (r, w') ->
  (exists e w1, body w = (Raise e, w1) /\ h e w1 = (r, w'))
  \/ (body w = (r, w') /\ forall e, r <> Raise e).
Proof.
  unfold try_except. destruct (body w) as [[a|e|] w1]; intros H.
  - right. inversion H; subst. split; [reflexivity | discriminate].
  - left. eauto.
  - right. inversion H; subst. split; [reflexivity | discriminate].
Qed.

Lemma lift_inv {A} (x : resp A) w r w' :
  lift x w = (r, w') ->
  w' = w /\ ((exists a, x = Ret a /\ r = Ok a) \/ (exists e, x = Exc e /\ r = Raise e)).
Proof.
  destruct x; cbn; intros H; inversion H; subst; split; eauto.
Qed.

Section Respects.

Variable R : World -> World -> Prop.
Hypothesis R_refl : forall w, R w w.
Hypothesis R_trans : forall w1 w2 w3, R w1 w2 -> R w2 w3 -> R w1 w3.

Lemma respects_ret {A} (a : A) : respects R (ret a).
Proof. intros w r w' H. inversion H; subst. apply R_refl. Qed.

Lemma respects_raise {A} (e : exn) : respects R (@raise A e).
Proof. intros w r w' H. inversion H; subst. apply R_refl. Qed.

Lemma respects_lift {A} (x : resp A) : respects R (lift x).
Proof. destruct x; [apply respects_ret | apply respects_raise]. Qed.

Lemma respects_get_engine : respects R get_engine.
Proof. intros w r w' H. inversion H; subst. apply R_refl. Qed.

Lemma respects_bind {A B} (c : M A) (k : A -> M B) :
  respects R c -> (forall a, respects R (k a)) -> respects R (bind c k).
Proof.
  intros Hc Hk w r w' H.
  apply bind_inv in H as [(a & w1 & H1 & H2) | [(e & H1 & _) | (H1 & _)]].
  - eapply R_trans; [eapply Hc | eapply Hk]; eassumption.
  - eapply Hc; eassumption.
  - eapply Hc; eassumption.
Qed.

Lemma respects_try_except {A} (body : M A) (h : exn -> M A) :
  respects R body -> (forall e, respects R (h e)) ->
  respects R (try_except body h).
Proof.
  intros Hb Hh w r w' H.
  apply try_except_inv in H as [(e & w1 & H1 & H2) | [H1 _]].
  - eapply R_trans; [eapply Hb | eapply Hh]; eassumption.
  - eapply Hb; eassumption.
Qed.

Lemma respects_get_product i : respects R (get_product i).
Proof.
  unfold get_product. apply respects_bind; [apply respects_get_engine |].
  intros e. destruct (_ !! _); [apply respects_ret | apply respects_raise].
Qed.

Lemma respects_read_balance c : respects R (read_balance c).
Proof.
  unfold read_balance. apply respects_bind; [apply respects_get_engine |].
  intros e. destruct (balance_of _ _); [apply respects_ret | apply respects_raise].
Qed.

Lemma respects_read_currency c : respects R (read_currency c).
Proof.
  destruct c as [c|]; cbn; [| apply respects_ret].
  apply respects_bind; [apply respects_read_balance |].
  intros d. apply respects_ret.
Qed.

Lemma respects_modify_engine f :
  (forall w, R w (mkWorld (f (engine w)) (tick w) (trace w))) ->
  respects R (modify_engine f).
Proof. intros Hf w r w' H. inversion H; subst. apply Hf. Qed.

Lemma respects_ask_env {A} evs (f : nat -> A) :
  (forall w, R w (mkWorld (engine w) (S (tick w)) (trace w ++ evs))) ->
  respects R (ask_env evs f).
Proof. intros Hf w r w' H. inversion H; subst. apply Hf. Qed.

Lemma respects_call_env {A} evs (f : nat -> resp A) :
  (forall w, R w (mkWorld (engine w) (S (tick w)) (trace w ++ evs))) ->
  respects R (call_env evs f).
Proof.
  intros Hf. apply respects_bind; [now apply respects_ask_env |].
  intros x. apply respects_lift.
Qed.

Lemma respects_log_error e :
  (forall w, R w (mkWorld (engine w) (tick w) (trace w ++ [ErrorLogged e]))) ->
  respects R (log_error e).
Proof. intros Hf w r w' H. inversion H; subst. apply Hf. Qed.

End Respects.

(** A tactic that follows the structure of the code; what is left are the
    steps that change the world. *)
Ltac respects_step :=
  match goal with
  | |- respects _ (bind _ _) => apply respects_bind; [assumption.. | | intros]
  | |- respects _ (try_except _ _) =>
      apply respects_try_except; [assumption.. | | intros]
  | |- respects _ (ret _) => apply respects_ret; assumption
  | |- respects _ (raise _) => apply respects_raise; assumption
  | |- respects _ (lift _) => apply respects_lift; assumption
  | |- respects _ get_engine => apply respects_get_engine; assumption
  | |- respects _ (get_product _) => apply respects_get_product; assumption
  | |- respects _ (read_balance _) => apply respects_read_balance; assumption
  | |- respects _ (read_currency _) => apply respects_read_currency; assumption
  | |- respects _ (modify_engine _) => apply respects_modify_engine; intros
  | |- respects _ (ask_env _ _) => apply respects_ask_env; intros
  | |- respects _ (call_env _ _) => apply respects_call_env; [assumption.. | intros]
  | |- respects _ (log_error _) => apply respects_log_error; intros
  | |- respects _ (if ?b then _ else _) => destruct b
  | |- respects _ (match ?x with _ => _ end) => destruct x
  end.

Lemma total_ret {A} (a : A) : total (ret a).
Proof. intros w. discriminate. Qed.

Lemma total_raise {A} (e : exn) : total (@raise A e).
Proof. intros w. discriminate. Qed.

Lemma total_lift {A} (x : resp A) : total (lift x).
Proof. destruct x; [apply total_ret | apply total_raise]. Qed.

Lemma total_bind {A B} (c : M A) (k : A -> M B) :
  total c -> (forall a, total (k a)) -> total (bind c k).
Proof.
  intros Hc Hk w. unfold bind. specialize (Hc w).
  destruct (c w) as [[a|e|] w1]; cbn in *; [apply Hk | discriminate | congruence].
Qed.

Lemma total_try_except {A} (body : M A) (h : exn -> M A) :
  total body -> (forall e, total (h e)) -> total (try_except body h).
Proof.
  intros Hb Hh w. unfold try_except. specialize (Hb w).
  destruct (body w) as [[a|e|] w1]; cbn in *; [discriminate | apply Hh | congruence].
Qed.

Lemma total_get_engine : total get_engine.
Proof. intros w. discriminate. Qed.

Lemma total_modify_engine f : total (modify_engine f).
Proof. intros w. discriminate. Qed.

Lemma total_ask_env {A} evs (f : nat -> A) : total (ask_env evs f).
Proof. intros w. discriminate. Qed.

Lemma total_call_env {A} evs (f : nat -> resp A) : total (call_env evs f).
Proof. apply total_bind; [apply total_ask_env | intros; apply total_lift]. Qed.

Lemma total_log_error e : total (log_error e).
Proof. intros w. discriminate. Qed.

(** A tactic for code without loops: it follows the structure of the code. *)
Ltac total_step :=
  match goal with
  | |- total (bind _ _) => apply total_bind; [| intros]
  | |- total (try_except _ _) => apply total_try_except; [| intros]
  | |- total (ret _) => apply total_ret
  | |- total (raise _) => apply total_raise
  | |- total (lift _) => apply total_lift
  | |- total get_engine => apply total_get_engine
  | |- total (modify_engine _) => apply total_modify_engine
  | |- total (ask_env _ _) => apply total_ask_env
  | |- total (call_env _ _) => apply total_call_env
  | |- total (log_error _) => apply total_log_error
  | |- total (if ?b then _ else _) => destruct b
  | |- total (match ?x with _ => _ end) => destruct x
  | |- total _ => assumption
  end.

Lemma total_get_product i : total (get_product i).
Proof. unfold get_product. repeat total_step. Qed.

Lemma total_modify_product i f : total (modify_product i f).
Proof. unfold modify_product. total_step; [apply total_get_product | total_step]. Qed.

Lemma total_read_currency c : total (read_currency c).
Proof. unfold read_currency, read_balance. repeat total_step. Qed.

Lemma total_store_accounts l : total (store_accounts l).
Proof.
  induction l as [|a l IH]; cbn; [apply total_ret |].
  total_step; [| exact IH].
  unfold store_account, write_balance. repeat total_step.
Qed.

Lemma total_mark_products E l : forall j, total (mark_products E j l).
Proof.
  induction l as [|p l IH]; intros j; cbn; [apply total_ret |].
  total_step; [| apply IH].
  unfold mark_product, base_currency_no_update.
  repeat first [apply total_read_currency | total_step].
Qed.

Lemma total_update_amounts E : total (update_amounts E).
Proof.
  unfold update_amounts, zero_balances, read_balance.
  repeat first [apply total_store_accounts | apply total_mark_products | total_step].
Qed.

Lemma total_get_base_currency_from_product_id E pid :
  total (get_base_currency_from_product_id E pid).
Proof.
  unfold get_base_currency_from_product_id.
  total_step; [apply total_update_amounts | apply total_read_currency].
Qed.

Lemma total_get_quoted_currency_from_product_id E pid :
  total (get_quoted_currency_from_product_id E pid).
Proof.
  unfold get_quoted_currency_from_product_id.
  total_step; [apply total_update_amounts | apply total_read_currency].
Qed.

(** ** The balance tracker leaves the products alone *)

Lemma balance_step_refl w : balance_step w w.
Proof.
  unfold balance_step. repeat split; try reflexivity.
  exists []. split; [now rewrite app_nil_r | constructor].
Qed.

Lemma balance_step_trans w1 w2 w3 :
  balance_step w1 w2 -> balance_step w2 w3 -> balance_step w1 w3.
Proof.
  intros (Hp & Hl & Hf & Hm & evs & Ht & Hq) (Hp' & Hl' & Hf' & Hm' & evs' & Ht' & Hq').
  unfold balance_step. repeat split; try congruence.
  exists (evs ++ evs'). split.
  - rewrite Ht', Ht. now rewrite app_assoc.
  - apply Forall_app. now split.
Qed.

Ltac balance_world :=
  unfold balance_step; cbn; repeat split; try reflexivity;
  match goal with
  | |- exists evs, ?t = ?t ++ evs /\ _ =>
      exists []; split; [now rewrite app_nil_r | constructor]
  | |- exists evs, ?t ++ ?l = ?t ++ evs /\ _ =>
      exists l; split; [reflexivity | repeat constructor]
  end.

Ltac balance_code :=
  repeat first
    [ respects_step
    | exact balance_step_refl
    | exact balance_step_trans
    | balance_world ].

Lemma balance_store_accounts l : respects balance_step (store_accounts l).
Proof.
  pose proof balance_step_refl. pose proof balance_step_trans.
  induction l as [|a l IH]; cbn.
  - balance_code.
  - apply respects_bind; [assumption.. | | intros; exact IH].
    unfold store_account, write_balance. balance_code.
Qed.

Lemma balance_mark_products E l :
  forall j, respects balance_step (mark_products E j l).
Proof.
  pose proof balance_step_refl. pose proof balance_step_trans.
  induction l as [|p l IH]; intros j; cbn.
  - balance_code.
  - apply respects_bind; [assumption.. | | intros; apply IH].
    unfold mark_product, base_currency_no_update. balance_code.
Qed.

Lemma balance_update_amounts E : respects balance_step (update_amounts E).
Proof.
  pose proof balance_step_refl. pose proof balance_step_trans.
  unfold update_amounts, zero_balances.
  repeat first
    [ apply balance_store_accounts | apply balance_mark_products
    | respects_step | balance_world ].
Qed.

Lemma balance_get_base_currency_from_product_id E pid :
  respects balance_step (get_base_currency_from_product_id E pid).
Proof.
  pose proof balance_step_refl. pose proof balance_step_trans.
  unfold get_base_currency_from_product_id.
  apply respects_bind; [assumption.. | apply balance_update_amounts |].
  intros _. balance_code.
Qed.

Lemma balance_get_quoted_currency_from_product_id E pid :
  respects balance_step (get_quoted_currency_from_product_id E pid).
Proof.
  pose proof balance_step_refl. pose proof balance_step_trans.
  unfold get_quoted_currency_from_product_id.
  apply respects_bind; [assumption.. | apply balance_update_amounts |].
  intros _. balance_code.
Qed.

Lemma events_since_app w w' evs :
  trace w' = trace w ++ evs -> events_since w w' = evs.
Proof. intros H. unfold events_since. rewrite H. apply drop_app_length. Qed.

Lemma balance_step_events w w' :
  balance_step w w' -> Forall quiet (events_since w w').
Proof.
  intros (_ & _ & _ & _ & evs & Ht & Hq).
  now rewrite (events_since_app _ _ _ Ht).
Qed.

(** ** Signal combination *)

Lemma period_step_spec indicators name s b c :
  indicators_of indicators name s ->
  period_step indicators (b, c) name
  = Ret (b && period_buy_condition s, c || period_sell_condition s).
Proof.
  intros (Ha & Ho & He & Hk & Hd).
  unfold period_step, period_buy_condition, period_sell_condition, trending.
  rewrite Ha. cbn [resp_bind].
  destruct (Dec.gt (adx s) (D 25 0)).
  - destruct b, c; cbn [resp_bind andb orb]; rewrite ?Ho, ?He;
      cbn [resp_bind]; reflexivity.
  - destruct b, c; cbn [resp_bind andb orb]; rewrite ?Hk, ?Hd;
      cbn [resp_bind];
      try destruct (Dec.gt (stoch_slowk s) (stoch_slowd s));
      try destruct (Dec.lt (stoch_slowk s) (stoch_slowd s));
      cbn [resp_bind andb orb]; rewrite ?Hk; reflexivity.
Qed.

Lemma period_loop_spec indicators period_list sets :
  Forall2 (indicators_of indicators) period_list sets ->
  forall b c,
    period_loop indicators (b, c) period_list
    = Ret (b && forallb period_buy_condition sets,
           c || existsb period_sell_condition sets).
Proof.
  induction 1 as [|name s names sets Hs _ IH]; intros b c;
    cbn [period_loop forallb existsb].
  - now rewrite andb_true_r, orb_false_r.
  - rewrite (period_step_spec _ _ _ _ _ Hs). cbn [resp_bind].
    rewrite IH. now rewrite andb_assoc, orb_assoc.
Qed.

Lemma period_flags_spec indicators period_list sets :
  Forall2 (indicators_of indicators) period_list sets ->
  period_flags indicators period_list
  = Ret (forallb period_buy_condition sets,
         existsb period_sell_condition sets).
Proof.
  intros H. unfold period_flags. now rewrite (period_loop_spec _ _ _ H).
Qed.

(** In one period the buy condition and the sell condition exclude each
    other. *)
Lemma cmp_gt_lt x y : Dec.gt x y = true -> Dec.lt x y = false.
Proof. unfold Dec.gt, Dec.lt. now destruct (Dec.cmp x y). Qed.

Lemma period_conditions_exclusive s :
  period_buy_condition s = true -> period_sell_condition s = false.
Proof.
  unfold period_buy_condition, period_sell_condition.
  destruct (trending s).
  - apply cmp_gt_lt.
  - intros [H1 H2]%andb_true_iff. rewrite (cmp_gt_lt _ _ H1). cbn.
    unfold Dec.gt, Dec.lt in *.
    now destruct (Dec.cmp (stoch_slowk s) (D 500 (-1))).
Qed.

Lemma combined_conditions_exclusive sets :
  forallb period_buy_condition sets = true ->
  existsb period_sell_condition sets = false.
Proof.
  induction sets as [|s sets IH]; cbn; [reflexivity |].
  intros [H1 H2]%andb_true_iff.
  now rewrite (period_conditions_exclusive _ H1), IH.
Qed.

(** C2: in live mode, for any period list whose periods have their five
    indicators, the loop of [determine_trades] computes the buy intent as
    the conjunction over all periods of the period's buy condition and the
    sell intent as the disjunction over all periods of the period's sell
    condition, with the trending rule where ADX > 25 and the ranging rule
    where ADX <= 25; for a product that is not quoted in BTC these are the
    intents that the call acts on. *)
Theorem signal_combination indicators period_list sets :
  Forall2 (indicators_of indicators) period_list sets ->
  period_flags indicators period_list
  = Ret (forallb period_buy_condition sets,
         existsb period_sell_condition sets)
  /\ forall e pid,
       pid <> "LTC-BTC"%string -> pid <> "ETH-BTC"%string ->
       trade_intents e pid period_list indicators
       = Ret (forallb period_buy_condition sets,
              existsb period_sell_condition sets).
Proof.
  intros H. pose proof (period_flags_spec _ _ _ H) as Hf.
  split; [exact Hf |].
  intros e pid Hl He. unfold trade_intents. rewrite Hf. cbn [resp_bind].
  unfold cross_pair_gate.
  apply String.eqb_neq in Hl, He. now rewrite Hl, He.
Qed.

Lemma example_indicators_of :
  Forall2 (indicators_of example_indicators) ["P1"; "P2"]%string example_sets.
Proof.
  repeat constructor; vm_compute; reflexivity.
Defined.

Lemma signal_combination_witness :
  Forall2 (indicators_of example_indicators) ["P1"; "P2"]%string example_sets
  /\ period_flags example_indicators ["P1"; "P2"]%string = Ret (true, false).
Proof.
  split; [exact example_indicators_of |].
  exact (proj1 (signal_combination _ _ _ example_indicators_of)).
Defined.

(** ** Cross-pair gating *)

(** C4: for LTC-BTC and ETH-BTC, when the fiat-quoted counterpart of the
    instrument and the BTC-fiat product are in the product list, the final
    buy intent is the period-combined buy intent and the buy flag of the
    instrument's own fiat-quoted counterpart (LTC-fiat resp. ETH-fiat), and
    the final sell intent is the period-combined sell intent and the buy
    flag of the BTC-fiat product. *)
Theorem cross_pair_gating e pid own_id indicators period_list sets i own j btc_fiat :
  (pid = "LTC-BTC" /\ own_id = "LTC-" ++ fiat_currency e
   \/ pid = "ETH-BTC" /\ own_id = "ETH-" ++ fiat_currency e)%string ->
  Forall2 (indicators_of indicators) period_list sets ->
  get_product_by_product_id e own_id = Some (i, own) ->
  get_product_by_product_id e ("BTC-" ++ fiat_currency e)%string
  = Some (j, btc_fiat) ->
  trade_intents e pid period_list indicators
  = Ret (forallb period_buy_condition sets && buy_flag own,
         existsb period_sell_condition sets && buy_flag btc_fiat).
Proof.
  intros Hpid Hs Hown Hbtc. unfold trade_intents.
  rewrite (period_flags_spec _ _ _ Hs). cbn [resp_bind].
  unfold cross_pair_gate.
  assert (Hid : (String.substring 0 3 pid ++ "-" ++ fiat_currency e)%string
                = own_id)
    by (destruct Hpid as [[-> ->] | [-> ->]]; reflexivity).
  assert (Hq : String.eqb pid "LTC-BTC" || String.eqb pid "ETH-BTC" = true)
    by (destruct Hpid as [[-> _] | [-> _]]; reflexivity).
  rewrite Hq, Hid, Hown, Hbtc.
  destruct (forallb _ _), (existsb _ _); reflexivity.
Qed.

(** C3 (amended): for LTC-BTC, if the buy flag of the LTC-fiat product is
    false then the resulting buy intent is false, even when every period's
    own conditions signal buy. *)
Theorem ltc_btc_gated_by_ltc_fiat e indicators period_list sets i ltc_fiat :
  Forall2 (indicators_of indicators) period_list sets ->
  get_product_by_product_id e ("LTC-" ++ fiat_currency e)%string
  = Some (i, ltc_fiat) ->
  buy_flag ltc_fiat = false ->
  (forall b s,
     trade_intents e "LTC-BTC" period_list indicators = Ret (b, s) ->
     b = false)
  /\ (forallb period_buy_condition sets = true ->
      trade_intents e "LTC-BTC" period_list indicators = Ret (false, false)).
Proof.
  intros Hs Hown Hflag.
  assert (Hgate : forall s,
    cross_pair_gate e "LTC-BTC"
      (forallb period_buy_condition sets, s)
    = (do s' <- (if s then buy_flag_of
                   (get_product_by_product_id e ("BTC-" ++ fiat_currency e)%string)
                 else Ret false);
       Ret (false, s'))%resp).
  { intros s. unfold cross_pair_gate. cbn [String.eqb Ascii.eqb Bool.eqb orb].
    change (String.substring 0 3 "LTC-BTC" ++ "-" ++ fiat_currency e)%string
      with ("LTC-" ++ fiat_currency e)%string.
    rewrite Hown. cbn [buy_flag_of]. rewrite Hflag.
    destruct (forallb _ _); cbn [resp_bind]; reflexivity. }
  unfold trade_intents. rewrite (period_flags_spec _ _ _ Hs). cbn [resp_bind].
  rewrite Hgate. split.
  - intros b s. destruct (existsb _ _); cbn [resp_bind].
    + destruct (buy_flag_of _); cbn [resp_bind]; congruence.
    + congruence.
  - intros Hb. now rewrite (combined_conditions_exclusive _ Hb).
Qed.

(** ** Simulated mode *)

Lemma quiet_not_thread_start evs side i :
  Forall quiet evs -> ~ In (ThreadStart side i) evs.
Proof.
  intros H Hin. rewrite Forall_forall in H.
  apply list_elem_of_In in Hin. exact (H _ Hin).
Qed.

Lemma determine_trades_not_live E pid period_list indicators w r w' :
  is_live (engine w) = false ->
  determine_trades E pid period_list indicators w = (r, w') ->
  balance_step w w' /\ r <> OutOfFuel.
Proof.
  intros Hlive H. unfold determine_trades in H.
  apply bind_inv in H as [(a & w1 & H1 & H2) | [(e & H1 & ->) | (H1 & ->)]].
  - pose proof (balance_update_amounts E _ _ _ H1) as Hstep.
    assert (is_live (engine w1) = false) as Hl
      by (destruct Hstep as (_ & -> & _); exact Hlive).
    unfold bind, get_engine in H2. rewrite Hl in H2.
    inversion H2; subst. split; [exact Hstep | discriminate].
  - split; [exact (balance_update_amounts E _ _ _ H1) | discriminate].
  - pose proof (total_update_amounts E w) as Ht. rewrite H1 in Ht.
    now contradiction Ht.
Qed.

(** C10: with [is_live] false, a call of [determine_trades] at most
    refreshes the balances: every product (its buy flag, sell flag,
    [order_in_progress], open orders and [last_signal_switch]) is as before,
    no order is placed or cancelled, and no worker thread is started. *)
Theorem simulated_mode_is_inert E pid period_list indicators w :
  is_live (engine w) = false ->
  products (engine (determine_trades E pid period_list indicators w).2)
  = products (engine w)
  /\ Forall quiet
       (events_since w (determine_trades E pid period_list indicators w).2)
  /\ (forall side i,
        ~ In (ThreadStart side i)
            (events_since w (determine_trades E pid period_list indicators w).2))
  /\ (determine_trades E pid period_list indicators w).1 <> OutOfFuel.
Proof.
  intros Hlive.
  destruct (determine_trades E pid period_list indicators w) as [r w'] eqn:H.
  destruct (determine_trades_not_live _ _ _ _ _ _ _ Hlive H) as [Hstep Hr].
  cbn [fst snd]. repeat split.
  - now destruct Hstep.
  - now apply balance_step_events.
  - intros side i. apply quiet_not_thread_start. now apply balance_step_events.
  - exact Hr.
Qed.

(** ** Running straight-line code *)

Lemma bind_ret {A B} (a : A) (k : A -> M B) w : bind (ret a) k w = k a w.
Proof. reflexivity. Qed.

Lemma bind_raise_now {A B} (e : exn) (k : A -> M B) w :
  bind (raise e) k w = (Raise e, w).
Proof. reflexivity. Qed.

Lemma bind_get_engine {B} (k : TradeEngine -> M B) w :
  bind get_engine k w = k (engine w) w.
Proof. reflexivity. Qed.

Lemma bind_ask_env {A B} evs (f : nat -> A) (k : A -> M B) w :
  bind (ask_env evs f) k w = k (f (tick w)) (after_env evs w).
Proof. reflexivity. Qed.

Lemma bind_call_env {A B} evs (f : nat -> resp A) (k : A -> M B) w :
  bind (call_env evs f) k w
  = match f (tick w) with
    | Ret a => k a (after_env evs w)
    | Exc e => (Raise e, after_env evs w)
    end.
Proof. unfold call_env, bind, ask_env. now destruct (f (tick w)). Qed.

Lemma call_env_run {A} evs (f : nat -> resp A) w :
  call_env evs f w
  = (match f (tick w) with Ret a => Ok a | Exc e => Raise e end,
     after_env evs w).
Proof. unfold call_env, bind, ask_env. now destruct (f (tick w)). Qed.

Lemma bind_lift {A B} (x : resp A) (k : A -> M B) w :
  bind (lift x) k w
  = match x with
    | Ret a => k a w
    | Exc e => (Raise e, w)
    end.
Proof. now destruct x. Qed.

Lemma bind_log_error {B} e (k : unit -> M B) w :
  bind (log_error e) k w
  = k tt (mkWorld (engine w) (tick w) (trace w ++ [ErrorLogged e])).
Proof. reflexivity. Qed.

Lemma bind_assoc {A B C} (c : M A) (k : A -> M B) (k' : B -> M C) w :
  bind (bind c k) k' w = bind c (fun a => bind (k a) k') w.
Proof. unfold bind. now destruct (c w) as [[a|e|] w1]. Qed.

Lemma get_product_run i p w :
  products (engine w) !! i = Some p -> get_product i w = (Ok p, w).
Proof. intros H. unfold get_product, bind, get_engine. now rewrite H. Qed.

Lemma get_product_fail i w :
  products (engine w) !! i = None -> get_product i w = (Raise AttributeError, w).
Proof. intros H. unfold get_product, bind, get_engine. now rewrite H. Qed.

Lemma bind_get_product {B} i p (k : Product -> M B) w :
  products (engine w) !! i = Some p -> bind (get_product i) k w = k p w.
Proof. intros H. apply bind_ok, get_product_run, H. Qed.

Lemma modify_product_run i f p w :
  products (engine w) !! i = Some p ->
  modify_product i f w = (Ok tt, with_product i (f p) w).
Proof.
  intros H. unfold modify_product. now rewrite (bind_get_product _ _ _ _ H).
Qed.

Lemma bind_modify_product {B} i f p (k : unit -> M B) w :
  products (engine w) !! i = Some p ->
  bind (modify_product i f) k w = k tt (with_product i (f p) w).
Proof. intros H. apply bind_ok, modify_product_run, H. Qed.

Lemma with_product_lookup i p p' w :
  products (engine w) !! i = Some p ->
  products (engine (with_product i p' w)) !! i = Some p'.
Proof.
  intros H. cbn. apply list_lookup_insert_eq. now apply lookup_lt_Some in H.
Qed.

Lemma with_product_lookup_ne i j p' w :
  i <> j ->
  products (engine (with_product i p' w)) !! j = products (engine w) !! j.
Proof. intros H. cbn. now apply list_lookup_insert_ne. Qed.

Lemma after_env_lookup evs i w :
  products (engine (after_env evs w)) !! i = products (engine w) !! i.
Proof. reflexivity. Qed.

Lemma with_product_twice i p p' w :
  with_product i p' (with_product i p w) = with_product i p' w.
Proof. unfold with_product. cbn. now rewrite list_insert_insert_eq. Qed.

Lemma with_product_products i p w :
  products (engine (with_product i p w)) = <[i := p]> (products (engine w)).
Proof. reflexivity. Qed.

(** The product at [i] in the current world, whatever was done since. *)
Ltac lookup_product :=
  first
    [ eassumption
    | rewrite after_env_lookup; lookup_product
    | eapply with_product_lookup; lookup_product ].

(** Run the deterministic steps at the head of the code in [H]. *)
Ltac run_in H :=
  repeat first
    [ rewrite bind_assoc in H
    | rewrite bind_ret in H
    | rewrite bind_get_engine in H
    | rewrite bind_ask_env in H
    | rewrite bind_log_error in H
    | erewrite bind_get_product in H by lookup_product
    | erewrite bind_modify_product in H by lookup_product
    | rewrite with_product_twice in H ].

Ltac run :=
  repeat first
    [ rewrite bind_assoc
    | rewrite bind_ret
    | rewrite bind_get_engine
    | rewrite bind_ask_env
    | rewrite bind_log_error
    | erewrite bind_get_product by lookup_product
    | erewrite bind_modify_product by lookup_product
    | rewrite with_product_twice ].

(** ** The transitions of the flags *)

Lemma period_step_exclusive indicators name b s b' s' :
  period_step indicators (b, s) name = Ret (b', s') ->
  b && s = false -> b' && s' = false.
Proof.
  unfold period_step. intros H Hbs.
  destruct b, s; try discriminate Hbs;
    repeat match type of H with
           | context [indicator ?i ?n ?k] =>
               destruct (indicator i n k);
               cbn [resp_bind] in H; try discriminate H
           | context [if ?c then _ else _] =>
               destruct c eqn:?; cbn [resp_bind] in H
           end;
    inversion H; subst; clear H; try reflexivity;
    repeat match goal with Hc : _ = _ |- _ => revert Hc end;
    unfold Dec.gt, Dec.lt;
    repeat match goal with
           | |- context [Dec.cmp ?x ?y] => destruct (Dec.cmp x y)
           end;
    intros; first [reflexivity | congruence].
Qed.

Lemma period_loop_exclusive indicators period_list :
  forall b s b' s',
    period_loop indicators (b, s) period_list = Ret (b', s') ->
    b && s = false -> b' && s' = false.
Proof.
  induction period_list as [|name rest IH]; intros b s b' s'; cbn [period_loop].
  - intros H; inversion H; subst. tauto.
  - destruct (period_step indicators (b, s) name) as [[b1 s1]|] eqn:Hstep;
      cbn [resp_bind]; [| discriminate].
    intros H Hbs. eapply IH; [exact H |].
    eapply period_step_exclusive; eassumption.
Qed.

(** The buy intent and the sell intent never hold together. *)
Lemma trade_intents_exclusive e pid period_list indicators b s :
  trade_intents e pid period_list indicators = Ret (b, s) ->
  b && s = false.
Proof.
  unfold trade_intents, period_flags.
  destruct (period_loop indicators (true, false) period_list)
    as [[b0 s0]|] eqn:Hloop; cbn [resp_bind]; [| discriminate].
  pose proof (period_loop_exclusive _ _ _ _ _ _ Hloop eq_refl) as Hex.
  unfold cross_pair_gate.
  destruct (String.eqb pid "LTC-BTC" || String.eqb pid "ETH-BTC").
  - destruct b0, s0; try discriminate Hex; cbn [resp_bind];
      repeat match goal with
             | |- context [buy_flag_of ?x] => destruct (buy_flag_of x)
             end; cbn [resp_bind]; intros H; inversion H; subst;
      try reflexivity; apply andb_false_r.
  - intros H; inversion H; subst. exact Hex.
Qed.

Lemma trade_intents_ext e e' pid period_list indicators :
  products e' = products e -> fiat_currency e' = fiat_currency e ->
  trade_intents e' pid period_list indicators
  = trade_intents e pid period_list indicators.
Proof.
  intros Hp Hf. unfold trade_intents, cross_pair_gate,
    get_product_by_product_id. now rewrite Hp, Hf.
Qed.

Lemma get_product_by_product_id_lookup e pid i p :
  get_product_by_product_id e pid = Some (i, p) ->
  products e !! i = Some p /\ product_id p = pid.
Proof.
  unfold get_product_by_product_id. intros H.
  apply list_find_Some in H as (H1 & H2 & _). now split.
Qed.

Lemma balance_buy_tradable_amount E i pid :
  respects balance_step (buy_tradable_amount E i pid).
Proof.
  pose proof balance_step_refl. pose proof balance_step_trans.
  unfold buy_tradable_amount.
  repeat first
    [ apply balance_get_quoted_currency_from_product_id
    | respects_step | balance_world ].
Qed.

Lemma total_buy_tradable_amount E i pid : total (buy_tradable_amount E i pid).
Proof.
  unfold buy_tradable_amount.
  repeat first
    [ apply total_get_quoted_currency_from_product_id
    | apply total_get_product | total_step ].
Qed.

Lemma start_thread_run side i p w :
  products (engine w) !! i = Some p ->
  start_thread side i w
  = (Ok tt, after_env [ThreadStart side i] (with_product i (set_order_thread side p) w)).
Proof.
  intros Hp. unfold start_thread. run. reflexivity.
Qed.

Lemma after_env_nil_trace w : trace (after_env [] w) = trace w.
Proof. cbn. apply app_nil_r. Qed.

(** The branch of a buy intent, entered in [w]: once the flags are set the
    tradable amount is computed in [buy_world], and a worker is started
    when it reaches the minimum size and no order is in progress. *)
Lemma signal_buy_course E pid i p0 p w r w' :
  products (engine w) !! i = Some p ->
  signal_buy E pid (Some (i, p0)) w = (r, w') ->
  match buy_tradable_amount E i pid (buy_world E i p w) with
  | (Ok a, w3) =>
      r = Ok tt
      /\ if Dec.ge a (min_size p) && negb (order_in_progress p)
         then w' = after_env [ThreadStart BuySide i]
                     (with_product i
                        (set_order_thread BuySide
                           (switched_to_buy (time_time E (tick w)) p)) w3)
         else w' = w3
  | (Raise e, w3) => r = Raise e /\ w' = w3
  | (OutOfFuel, _) => False
  end.
Proof.
  intros Hp H. unfold signal_buy in H. cbn [deref] in H. run_in H.
  unfold buy_world, switched_to_buy.
  assert (Hrest : forall w2 p1,
    products (engine w2) !! i = Some p1 ->
    min_size p1 = min_size p -> order_in_progress p1 = order_in_progress p ->
    bind (buy_tradable_amount E i pid)
      (fun amount =>
         bind (get_product i)
           (fun p =>
              if Dec.ge amount (min_size p)
              then if negb (order_in_progress p)
                   then start_thread BuySide i else ret tt
              else ret tt)) w2 = (r, w') ->
    match buy_tradable_amount E i pid w2 with
    | (Ok a, w3) =>
        r = Ok tt
        /\ if Dec.ge a (min_size p) && negb (order_in_progress p)
           then w' = after_env [ThreadStart BuySide i]
                       (with_product i (set_order_thread BuySide p1) w3)
           else w' = w3
    | (Raise e, w3) => r = Raise e /\ w' = w3
    | (OutOfFuel, _) => False
    end).
  { intros w2 p1 Hp1 Hmin Hprog Hrun.
    destruct (buy_tradable_amount E i pid w2) as [ra w3] eqn:Ha.
    pose proof (balance_buy_tradable_amount E i pid _ _ _ Ha) as (Hps & _).
    pose proof (total_buy_tradable_amount E i pid w2) as Htot.
    rewrite Ha in Htot. cbn in Htot.
    unfold bind at 1 in Hrun. rewrite Ha in Hrun.
    destruct ra as [a|e|]; [| now inversion Hrun | congruence].
    assert (Hp3 : products (engine w3) !! i = Some p1) by now rewrite Hps.
    run_in Hrun. rewrite Hmin, Hprog in Hrun.
    destruct (Dec.ge a (min_size p)); cbn [andb].
    - destruct (order_in_progress p); cbn [negb] in *.
      + now inversion Hrun.
      + rewrite (start_thread_run _ _ _ _ Hp3) in Hrun. now inversion Hrun.
    - now inversion Hrun. }
  destruct (sell_flag p) eqn:Hs; run_in H;
    (eapply Hrest in H; [| lookup_product | reflexivity | reflexivity]);
    exact H.
Qed.

Lemma signal_buy_spec E pid i p0 p w r w' :
  products (engine w) !! i = Some p ->
  signal_buy E pid (Some (i, p0)) w = (r, w') ->
  exists w2 ra w3,
    products (engine w2)
    = <[i := switched_to_buy (time_time E (tick w)) p]> (products (engine w))
    /\ trace w2 = trace w
    /\ buy_tradable_amount E i pid w2 = (ra, w3)
    /\ match ra with
       | Ok a =>
           r = Ok tt
           /\ if Dec.ge a (min_size p) && negb (order_in_progress p)
              then w' = after_env [ThreadStart BuySide i]
                          (with_product i
                             (set_order_thread BuySide
                                (switched_to_buy (time_time E (tick w)) p)) w3)
              else w' = w3
       | Raise e => r = Raise e /\ w' = w3
       | OutOfFuel => False
       end.
Proof.
  intros Hp H. pose proof (signal_buy_course _ _ _ _ _ _ _ _ Hp H) as Hc.
  exists (buy_world E i p w).
  destruct (buy_tradable_amount E i pid (buy_world E i p w)) as [ra w3].
  exists ra, w3.
  split; [unfold buy_world; now destruct (sell_flag p) |].
  split; [unfold buy_world; destruct (sell_flag p); cbn;
          [apply app_nil_r | reflexivity] |].
  split; [reflexivity |].
  destruct ra; exact Hc.
Qed.

Lemma signal_sell_spec E i p0 p c w r w' :
  products (engine w) !! i = Some p ->
  signal_sell E (Some (i, p0)) c w = (r, w') ->
  exists w2,
    products (engine w2)
    = <[i := switched_to_sell (time_time E (tick w)) p]> (products (engine w))
    /\ trace w2 = trace w
    /\ match c with
       | Some a =>
           r = Ok tt
           /\ if Dec.ge a (min_size p) && negb (order_in_progress p)
              then w' = after_env [ThreadStart SellSide i]
                          (with_product i
                             (set_order_thread SellSide
                                (switched_to_sell (time_time E (tick w)) p)) w2)
              else w' = w2
       | None => r = Raise TypeError /\ w' = w2
       end.
Proof.
  intros Hp H. unfold signal_sell in H. cbn [deref] in H. run_in H.
  unfold switched_to_sell.
  assert (Hrest : forall w2 p1,
    products (engine w2) !! i = Some p1 ->
    min_size p1 = min_size p -> order_in_progress p1 = order_in_progress p ->
    bind (lift (to_Decimal c))
      (fun amount =>
         bind (get_product i)
           (fun p =>
              if Dec.ge amount (min_size p)
              then if negb (order_in_progress p)
                   then start_thread SellSide i else ret tt
              else ret tt)) w2 = (r, w') ->
    match c with
    | Some a =>
        r = Ok tt
        /\ if Dec.ge a (min_size p) && negb (order_in_progress p)
           then w' = after_env [ThreadStart SellSide i]
                       (with_product i (set_order_thread SellSide p1) w2)
           else w' = w2
    | None => r = Raise TypeError /\ w' = w2
    end).
  { intros w2 p1 Hp1 Hmin Hprog Hrun. rewrite bind_lift in Hrun.
    destruct c as [a|]; cbn [to_Decimal] in Hrun; [| now inversion Hrun].
    run_in Hrun. rewrite Hmin, Hprog in Hrun.
    destruct (Dec.ge a (min_size p)); cbn [andb].
    - destruct (order_in_progress p); cbn [negb] in *.
      + now inversion Hrun.
      + rewrite (start_thread_run _ _ _ _ Hp1) in Hrun. now inversion Hrun.
    - now inversion Hrun. }
  destruct (buy_flag p) eqn:Hs; run_in H;
    match type of H with bind _ _ ?w2 = _ => exists w2 end;
    (eapply Hrest in H; [| lookup_product | reflexivity | reflexivity]);
    (split; [reflexivity |]); (split; [try apply app_nil_r; reflexivity |]);
    exact H.
Qed.

Lemma signal_flat_spec i p0 p w :
  products (engine w) !! i = Some p ->
  signal_flat (Some (i, p0)) w = (Ok tt, with_product i (flattened p) w).
Proof.
  intros Hp. unfold signal_flat. cbn [deref]. run.
  erewrite modify_product_run by lookup_product.
  now rewrite with_product_twice.
Qed.

(** The course of a live call of [determine_trades] up to line 313: the
    two refreshes of the balances, then the branch of the intents. *)
Lemma determine_trades_course E pid period_list indicators w r w' :
  is_live (engine w) = true ->
  determine_trades E pid period_list indicators w = (r, w') ->
  match update_amounts E w with
  | (Ok _, w0) =>
      match get_base_currency_from_product_id E pid w0 with
      | (Ok c, w1) =>
          balance_step w w1
          /\ match trade_intents (engine w) pid period_list indicators with
             | Ret (b, s) =>
                 (if b then
                    signal_buy E pid (get_product_by_product_id (engine w) pid)
                  else if s then
                    signal_sell E (get_product_by_product_id (engine w) pid) c
                  else signal_flat (get_product_by_product_id (engine w) pid))
                   w1 = (r, w')
             | Exc e => r = Raise e /\ w' = w1
             end
      | (Raise e, w1) => r = Raise e /\ w' = w1 /\ balance_step w w1
      | (OutOfFuel, _) => False
      end
  | (Raise e, w0) => r = Raise e /\ w' = w0 /\ balance_step w w0
  | (OutOfFuel, _) => False
  end.
Proof.
  intros Hlive H. unfold determine_trades in H.
  destruct (update_amounts E w) as [r0 w0] eqn:H0.
  pose proof (balance_update_amounts E _ _ _ H0) as Hstep0.
  pose proof (total_update_amounts E w) as Htot0. rewrite H0 in Htot0.
  unfold bind at 1 in H. rewrite H0 in H.
  destruct r0 as [[]|e|]; [| inversion H; subst; auto | now contradiction Htot0].
  run_in H.
  assert (Hl0 : is_live (engine w0) = true)
    by (destruct Hstep0 as (_ & -> & _); exact Hlive).
  rewrite Hl0 in H.
  destruct (get_base_currency_from_product_id E pid w0) as [r1 w1] eqn:H1.
  pose proof (balance_get_base_currency_from_product_id E pid _ _ _ H1) as Hstep1.
  pose proof (total_get_base_currency_from_product_id E pid w0) as Htot1.
  rewrite H1 in Htot1.
  pose proof (balance_step_trans _ _ _ Hstep0 Hstep1) as Hstep.
  unfold bind at 1 in H. rewrite H1 in H.
  destruct r1 as [c|e|]; [| inversion H; subst; auto | now contradiction Htot1].
  run_in H.
  assert (Hps : products (engine w1) = products (engine w)) by apply Hstep.
  assert (Hfc : fiat_currency (engine w1) = fiat_currency (engine w)) by apply Hstep.
  rewrite (trade_intents_ext _ _ _ _ _ Hps Hfc) in H.
  unfold get_product_by_product_id in H at 1 2 3. rewrite Hps in H.
  fold (get_product_by_product_id (engine w) pid) in H.
  rewrite bind_lift in H.
  split; [exact Hstep |].
  destruct (trade_intents (engine w) pid period_list indicators)
    as [[b s]|e] eqn:Hint; [exact H | inversion H; subst; auto].
Qed.

(** A live call of [determine_trades] either fails before it reaches one of
    its three branches, or enters the branch of its intents after two
    refreshes of the balances. *)
Lemma determine_trades_live E pid period_list indicators w r w' :
  is_live (engine w) = true ->
  determine_trades E pid period_list indicators w = (r, w') ->
  (balance_step w w' /\ exists e, r = Raise e)
  \/ exists w0 w1 c b s,
       balance_step w w0
       /\ get_base_currency_from_product_id E pid w0 = (Ok c, w1)
       /\ balance_step w w1
       /\ trade_intents (engine w) pid period_list indicators = Ret (b, s)
       /\ (if b then signal_buy E pid (get_product_by_product_id (engine w) pid)
           else if s then signal_sell E (get_product_by_product_id (engine w) pid) c
           else signal_flat (get_product_by_product_id (engine w) pid)) w1
          = (r, w').
Proof.
  intros Hlive H.
  pose proof (determine_trades_course _ _ _ _ _ _ _ Hlive H) as Hc.
  destruct (update_amounts E w) as [[[]|e|] w0] eqn:H0;
    [| left; destruct Hc as (-> & -> & Hs); eauto | contradiction].
  pose proof (balance_update_amounts E _ _ _ H0) as Hstep0.
  destruct (get_base_currency_from_product_id E pid w0) as [[c|e|] w1] eqn:H1;
    [| left; destruct Hc as (-> & -> & Hs); eauto | contradiction].
  destruct Hc as [Hstep Hrun].
  destruct (trade_intents (engine w) pid period_list indicators)
    as [[b s]|e]; [| left; destruct Hrun as (-> & ->); eauto].
  right. exists w0, w1, c, b, s.
  split; [exact Hstep0 |]. split; [exact H1 |]. split; [exact Hstep |].
  split; [reflexivity | exact Hrun].
Qed.

Lemma only_product_changed_insert i p p0 w w' :
  products (engine w) !! i = Some p0 ->
  products (engine w') = <[i := p]> (products (engine w)) ->
  only_product_changed i p w w'.
Proof.
  intros Hp H. unfold only_product_changed. rewrite H. split.
  - apply list_lookup_insert_eq. now apply lookup_lt_Some in Hp.
  - intros j Hj. now apply list_lookup_insert_ne.
Qed.

(** The flags after a live call. *)
Lemma determine_trades_flags E pid period_list indicators w r w' :
  is_live (engine w) = true ->
  determine_trades E pid period_list indicators w = (r, w') ->
  flags_after E pid period_list indicators w r w'.
Proof.
  intros Hlive H.
  pose proof (determine_trades_course _ _ _ _ _ _ _ Hlive H) as Hc.
  unfold flags_after, raised_untouched.
  destruct (update_amounts E w) as [[[]|e|] w0];
    [| destruct Hc as (-> & -> & Hs); split; [eauto | apply Hs] | contradiction].
  destruct (get_base_currency_from_product_id E pid w0) as [[c|e|] w1];
    [| destruct Hc as (-> & -> & Hs); split; [eauto | apply Hs] | contradiction].
  destruct Hc as [Hstep Hrun].
  assert (Hps : products (engine w1) = products (engine w)) by apply Hstep.
  destruct (trade_intents (engine w) pid period_list indicators)
    as [[b s]|e] eqn:Hint;
    [| destruct Hrun as (-> & ->); split; [eauto | exact Hps]].
  pose proof (trade_intents_exclusive _ _ _ _ _ _ Hint) as Hex.
  destruct (get_product_by_product_id (engine w) pid) as [[i p]|] eqn:Hfind.
  2:{ destruct b; [| destruct s]; cbn in Hrun; inversion Hrun; subst;
        (split; [eauto | exact Hps]). }
  destruct (get_product_by_product_id_lookup _ _ _ _ Hfind) as [Hp _].
  assert (Hp1 : products (engine w1) !! i = Some p) by now rewrite Hps.
  split; [exact Hex |].
  assert (Hdone : forall p',
    flag_transition b s (time_time E (tick w1)) p p' ->
    products (engine w') = <[i := p']> (products (engine w)) ->
    exists p',
      only_product_changed i p' w w'
      /\ flag_transition b s (time_time E (tick w1)) p p'
      /\ buy_flag p' && sell_flag p' = false).
  { intros p' Htr Hprod. exists p'.
    split; [exact (only_product_changed_insert _ _ _ _ _ Hp Hprod) |].
    split; [exact Htr |].
    destruct Htr as (-> & -> & _). exact Hex. }
  destruct b; [| destruct s].
  - (* buy intent *)
    cbn in Hex. subst s.
    apply (signal_buy_spec _ _ _ _ _ _ _ _ Hp1) in Hrun
      as (w2 & ra & w3 & Hp2 & _ & Ha & Hcase).
    pose proof (balance_buy_tradable_amount E i pid _ _ _ Ha) as (Hp3 & _).
    rewrite Hps in Hp2.
    assert (Hsw : flag_transition true false (time_time E (tick w1)) p
                    (switched_to_buy (time_time E (tick w1)) p)).
    { unfold flag_transition, switched_to_buy. cbn.
      destruct (sell_flag p); cbn; tauto. }
    destruct ra as [a|e|]; [| | contradiction].
    + destruct Hcase as [_ Hw'].
      destruct (Dec.ge a (min_size p) && negb (order_in_progress p)).
      * apply (Hdone (set_order_thread BuySide
                        (switched_to_buy (time_time E (tick w1)) p))).
        -- exact Hsw.
        -- subst w'. cbn. rewrite Hp3, Hp2. apply list_insert_insert_eq.
      * apply (Hdone _ Hsw). subst w'. now rewrite Hp3.
    + destruct Hcase as [_ ->]. apply (Hdone _ Hsw). now rewrite Hp3.
  - (* sell intent *)
    apply (signal_sell_spec _ _ _ _ _ _ _ _ Hp1) in Hrun
      as (w2 & Hp2 & _ & Hcase).
    rewrite Hps in Hp2.
    assert (Hsw : flag_transition false true (time_time E (tick w1)) p
                    (switched_to_sell (time_time E (tick w1)) p)).
    { unfold flag_transition, switched_to_sell. cbn.
      destruct (buy_flag p); cbn; tauto. }
    destruct c as [a|].
    + destruct Hcase as [_ Hw'].
      destruct (Dec.ge a (min_size p) && negb (order_in_progress p)).
      * apply (Hdone (set_order_thread SellSide
                        (switched_to_sell (time_time E (tick w1)) p))).
        -- exact Hsw.
        -- subst w'. cbn. rewrite Hp2. apply list_insert_insert_eq.
      * apply (Hdone _ Hsw). now subst w'.
    + destruct Hcase as [_ ->]. apply (Hdone _ Hsw). exact Hp2.
  - (* neither *)
    rewrite (signal_flat_spec _ _ _ _ Hp1) in Hrun. inversion Hrun; subst.
    apply (Hdone (flattened p)).
    + unfold flag_transition, flattened. cbn. tauto.
    + cbn. now rewrite Hps.
Qed.

(** The transition of the flags in a live call. *)
Lemma determine_trades_transition E pid period_list indicators w r w' :
  is_live (engine w) = true ->
  determine_trades E pid period_list indicators w = (r, w') ->
  (exists e, r = Raise e /\ products (engine w') = products (engine w))
  \/ exists i p p' b s t,
       get_product_by_product_id (engine w) pid = Some (i, p)
       /\ trade_intents (engine w) pid period_list indicators = Ret (b, s)
       /\ b && s = false
       /\ only_product_changed i p' w w'
       /\ flag_transition b s (time_time E t) p p'
       /\ buy_flag p' && sell_flag p' = false.
Proof.
  intros Hlive H.
  pose proof (determine_trades_flags _ _ _ _ _ _ _ Hlive H) as Hf.
  unfold flags_after, raised_untouched in Hf.
  assert (Hraised :
    (exists e, r = Raise e) /\ products (engine w') = products (engine w) ->
    exists e, r = Raise e /\ products (engine w') = products (engine w)).
  { intros [[e ->] Hps]. eauto. }
  destruct (update_amounts E w) as [[[]|e|] w0]; try (left; now apply Hraised).
  destruct (get_base_currency_from_product_id E pid w0) as [[c|e|] w1];
    try (left; now apply Hraised).
  destruct (trade_intents (engine w) pid period_list indicators)
    as [[b s]|e]; try (left; now apply Hraised).
  destruct (get_product_by_product_id (engine w) pid) as [[i p]|];
    try (left; now apply Hraised).
  destruct Hf as (Hex & p' & Hchanged & Htr & Hflags).
  right. exists i, p, p', b, s, (tick w1).
  split; [reflexivity |]. split; [reflexivity |]. split; [exact Hex |].
  split; [exact Hchanged |]. split; [exact Htr | exact Hflags].
Qed.

(** C9: after a call of [determine_trades] in live mode that has computed
    its intents, the buy flag and the sell flag of the product are the buy
    intent and the sell intent, which never hold together: with a buy
    intent the call sets [last_signal_switch], to the clock it reads at that
    moment, only if the product was in the sell state, and then sets sell to
    false and buy to true; with a sell intent it does the symmetric update;
    with neither it clears both flags; no other product changes.  A call
    that does not get that far (a refresh of the balances raises, an
    indicator is missing, the product is unknown) raises and leaves every
    product as it was.  So no call makes the two flags of a product true
    together. *)
Theorem flags_after_determine_trades E pid period_list indicators w r w' :
  is_live (engine w) = true ->
  determine_trades E pid period_list indicators w = (r, w') ->
  flags_after E pid period_list indicators w r w'
  /\ (flags_exclusive w -> flags_exclusive w').
Proof.
  intros Hlive H.
  pose proof (determine_trades_flags _ _ _ _ _ _ _ Hlive H) as Hf.
  split; [exact Hf |].
  intros Hinv j q Hq.
  assert (Hsame : raised_untouched w r w' ->
                  buy_flag q && sell_flag q = false).
  { intros [_ Hps]. rewrite Hps in Hq. exact (Hinv j q Hq). }
  unfold flags_after in Hf.
  destruct (update_amounts E w) as [[[]|e|] w0]; try (now apply Hsame).
  destruct (get_base_currency_from_product_id E pid w0) as [[c|e|] w1];
    try (now apply Hsame).
  destruct (trade_intents (engine w) pid period_list indicators)
    as [[b s]|e]; try (now apply Hsame).
  destruct (get_product_by_product_id (engine w) pid) as [[i p]|];
    try (now apply Hsame).
  destruct Hf as (_ & p' & [Hi Hother] & _ & Hex).
  destruct (Nat.eq_dec j i) as [->|Hne].
  - rewrite Hi in Hq. inversion Hq; subst. exact Hex.
  - rewrite (Hother j Hne) in Hq. exact (Hinv j q Hq).
Qed.

(** ** Starting a worker *)

Lemma buy_tradable_amount_inv E i pid w a w' :
  buy_tradable_amount E i pid w = (Ok a, w') ->
  exists p q wq ask,
    products (engine w) !! i = Some p
    /\ get_quoted_currency_from_product_id E pid w = (Ok (Some q), wq)
    /\ book_get_ask E (tick wq) i = Ret ask
    /\ buy_size q ask (quote_increment p) a.
Proof.
  intros H. unfold buy_tradable_amount in H.
  destruct (products (engine w) !! i) as [p|] eqn:Hp.
  2:{ unfold bind at 1 in H. rewrite (get_product_fail _ _ Hp) in H.
      discriminate H. }
  run_in H.
  destruct (get_quoted_currency_from_product_id E pid w) as [rq wq] eqn:Hq.
  unfold bind at 1 in H. rewrite Hq in H.
  destruct rq as [q|e|]; try discriminate H.
  rewrite bind_call_env in H.
  destruct (book_get_ask E (tick wq) i) as [ask|e] eqn:Hask; try discriminate H.
  rewrite bind_lift in H.
  destruct (Dec.sub ask (quote_increment p)) as [bid|e] eqn:Hbid;
    try discriminate H.
  rewrite bind_lift in H.
  destruct q as [q|]; cbn [to_Decimal] in H; try discriminate H.
  rewrite bind_lift in H.
  destruct (Dec.div q bid) as [quot|e] eqn:Hquot; try discriminate H.
  destruct (round_coin (Some quot)) as [a'|e] eqn:Hround; cbn in H;
    try discriminate H.
  inversion H; subst.
  exists p, q, wq, ask. repeat split; try assumption.
  exists bid, quot. now repeat split.
Qed.

Lemma thread_start_last w w' evs side0 i0 side i :
  trace w' = trace w ++ evs ++ [ThreadStart side0 i0] ->
  Forall quiet evs ->
  In (ThreadStart side i) (events_since w w') ->
  side = side0 /\ i = i0.
Proof.
  intros Ht Hq Hin. rewrite (events_since_app _ _ _ Ht) in Hin.
  apply in_app_or in Hin as [Hin | Hin].
  - now apply quiet_not_thread_start in Hin.
  - destruct Hin as [Hin | []]. now inversion Hin.
Qed.

Lemma balance_step_no_thread w w' side i :
  balance_step w w' -> ~ In (ThreadStart side i) (events_since w w').
Proof.
  intros H. now apply quiet_not_thread_start, balance_step_events.
Qed.

(** C5: [determine_trades] starts a worker only in live mode, for its own
    product, when [order_in_progress] of the product is false and after the
    two refreshes of the balances that open the call.  It starts a buy
    worker only when the buy intent holds and the tradable amount is at
    least the minimum size of the product: the quote balance that the call
    reads once it has set the flags, converted at the ask it reads then
    minus one quote increment and truncated to 8 decimal places.  It starts
    a sell worker only when the sell intent holds, and not the buy intent,
    and the base balance that the second refresh has returned is at least
    the minimum size. *)
Theorem worker_started_only_when E pid period_list indicators w r w' side i :
  determine_trades E pid period_list indicators w = (r, w') ->
  In (ThreadStart side i) (events_since w w') ->
  exists p b s w0 c w1,
    is_live (engine w) = true
    /\ get_product_by_product_id (engine w) pid = Some (i, p)
    /\ trade_intents (engine w) pid period_list indicators = Ret (b, s)
    /\ order_in_progress p = false
    /\ update_amounts E w = (Ok tt, w0)
    /\ get_base_currency_from_product_id E pid w0 = (Ok c, w1)
    /\ match side with
       | BuySide =>
           b = true
           /\ exists q wq ask a,
                get_quoted_currency_from_product_id E pid (buy_world E i p w1)
                = (Ok (Some q), wq)
                /\ book_get_ask E (tick wq) i = Ret ask
                /\ buy_size q ask (quote_increment p) a
                /\ Dec.ge a (min_size p) = true
       | SellSide =>
           b = false /\ s = true
           /\ exists a, c = Some a /\ Dec.ge a (min_size p) = true
       end.
Proof.
  intros H Hin.
  destruct (is_live (engine w)) eqn:Hlive.
  2:{ destruct (determine_trades_not_live _ _ _ _ _ _ _ Hlive H) as [Hstep _].
      now apply balance_step_no_thread in Hin. }
  pose proof (determine_trades_course _ _ _ _ _ _ _ Hlive H) as Hc.
  destruct (update_amounts E w) as [[[]|e|] w0] eqn:H0;
    [| destruct Hc as (_ & -> & Hs); now apply balance_step_no_thread in Hin
     | contradiction].
  destruct (get_base_currency_from_product_id E pid w0) as [[c|e|] w1] eqn:H1;
    [| destruct Hc as (_ & -> & Hs); now apply balance_step_no_thread in Hin
     | contradiction].
  destruct Hc as [Hstep Hrun].
  destruct (trade_intents (engine w) pid period_list indicators)
    as [[b s]|e] eqn:Hint;
    [| destruct Hrun as (_ & ->); now apply balance_step_no_thread in Hin].
  assert (Hps : products (engine w1) = products (engine w)) by apply Hstep.
  destruct Hstep as (_ & _ & _ & _ & evs1 & Ht1 & Hq1).
  assert (Hquiet : trace w' = trace w1 -> False).
  { intros Ht. rewrite Ht1 in Ht. rewrite (events_since_app _ _ _ Ht) in Hin.
    now apply quiet_not_thread_start in Hin. }
  destruct (get_product_by_product_id (engine w) pid) as [[i0 p]|] eqn:Hfind.
  2:{ exfalso. apply Hquiet.
      destruct b; [| destruct s]; cbn in Hrun; now inversion Hrun. }
  destruct (get_product_by_product_id_lookup _ _ _ _ Hfind) as [Hp _].
  assert (Hp1 : products (engine w1) !! i0 = Some p) by now rewrite Hps.
  destruct b; [| destruct s].
  - (* buy intent *)
    apply (signal_buy_course _ _ _ _ _ _ _ _ Hp1) in Hrun.
    destruct (buy_tradable_amount E i0 pid (buy_world E i0 p w1))
      as [ra w3] eqn:Ha.
    assert (Ht2 : trace (buy_world E i0 p w1) = trace w1).
    { unfold buy_world. destruct (sell_flag p); cbn;
        [apply app_nil_r | reflexivity]. }
    pose proof (balance_buy_tradable_amount E i0 pid _ _ _ Ha)
      as (_ & _ & _ & _ & evs3 & Ht3 & Hq3).
    assert (Hquiet3 : w' = w3 -> False).
    { intros ->.
      assert (Ht : trace w3 = trace w ++ (evs1 ++ evs3))
        by (rewrite Ht3, Ht2, Ht1; now rewrite <- app_assoc).
      rewrite (events_since_app _ _ _ Ht) in Hin.
      apply quiet_not_thread_start in Hin; [exact Hin |].
      apply Forall_app. now split. }
    destruct ra as [a|e|]; [| now destruct Hrun as [_ ?] | contradiction].
    destruct Hrun as [_ Hw'].
    destruct (Dec.ge a (min_size p)) eqn:Hge; cbn [andb] in Hw';
      [| contradiction].
    destruct (order_in_progress p) eqn:Hprog; cbn [negb] in Hw';
      [contradiction |].
    assert (Ht : trace w' = trace w ++ (evs1 ++ evs3) ++ [ThreadStart BuySide i0]).
    { subst w'. cbn. rewrite Ht3, Ht2, Ht1. now rewrite <- !app_assoc. }
    destruct (thread_start_last _ _ _ _ _ _ _ Ht
                ltac:(apply Forall_app; now split) Hin) as [-> ->].
    apply buy_tradable_amount_inv in Ha
      as (p2 & q & wq & ask & Hlook & Hq & Hask & Hsize).
    assert (Hqi : quote_increment p2 = quote_increment p).
    { unfold buy_world in Hlook. cbn in Hlook.
      assert (Hsame : products (engine (if sell_flag p then after_env [] w1 else w1))
                      = products (engine w1))
        by now destruct (sell_flag p).
      rewrite Hsame in Hlook.
      rewrite list_lookup_insert_eq in Hlook
        by (now apply lookup_lt_Some in Hp1).
      inversion Hlook. unfold switched_to_buy.
      now destruct (sell_flag p). }
    rewrite Hqi in Hsize.
    exists p, true, s, w0, c, w1.
    split; [reflexivity |]. split; [reflexivity |]. split; [reflexivity |].
    split; [exact Hprog |]. split; [reflexivity |]. split; [exact H1 |].
    split; [reflexivity |].
    exists q, wq, ask, a.
    split; [exact Hq |]. split; [exact Hask |]. split; [exact Hsize | exact Hge].
  - (* sell intent *)
    apply (signal_sell_spec _ _ _ _ _ _ _ _ Hp1) in Hrun
      as (w2 & Hp2 & Ht2 & Hcase).
    assert (Hquiet2 : w' = w2 -> False).
    { intros ->. apply Hquiet. exact Ht2. }
    destruct c as [a|]; [| now destruct Hcase as [_ ?]].
    destruct Hcase as [_ Hw'].
    destruct (Dec.ge a (min_size p)) eqn:Hge; cbn [andb] in Hw';
      [| contradiction].
    destruct (order_in_progress p) eqn:Hprog; cbn [negb] in Hw';
      [contradiction |].
    assert (Ht : trace w' = trace w ++ evs1 ++ [ThreadStart SellSide i0]).
    { subst w'. cbn. rewrite Ht2, Ht1. now rewrite <- !app_assoc. }
    destruct (thread_start_last _ _ _ _ _ _ _ Ht Hq1 Hin) as [-> ->].
    exists p, false, true, w0, (Some a), w1.
    split; [reflexivity |]. split; [reflexivity |]. split; [reflexivity |].
    split; [exact Hprog |]. split; [reflexivity |]. split; [exact H1 |].
    split; [reflexivity |]. split; [reflexivity |].
    exists a. split; [reflexivity | exact Hge].
  - (* neither *)
    exfalso. apply Hquiet.
    rewrite (signal_flat_spec _ _ _ _ Hp1) in Hrun. now inversion Hrun.
Qed.

(** ** Placing a buy order: the example of the specification *)

Lemma remember_order_run i p r w :
  products (engine w) !! i = Some p ->
  exists w', remember_order i r w = (Ok tt, w') /\ trace w' = trace w.
Proof.
  intros Hp. unfold remember_order.
  destruct (is_str (o_status r) "pending" || is_str (o_status r) "open").
  - rewrite (modify_product_run _ _ _ _ Hp). eauto.
  - eauto.
Qed.

(** C7: for BTC-USD with minimum size 0.001 and quote increment 0.01, a
    best ask of 50000 and 100 of the fiat currency available, [place_buy]
    with [partial = 1.0] computes the price 49999.99 and the size
    [round_coin (100 / 49999.99) = 0.00200000], which is at least 0.001,
    and places a post-only limit buy order at that price and size. *)
Theorem place_buy_example E w i p wq :
  products (engine w) !! i = Some p ->
  product_id p = "BTC-USD"%string ->
  min_size p = D 1 (-3) ->
  quote_increment p = D 1 (-2) ->
  get_quoted_currency_from_product_id E "BTC-USD" w
  = (Ok (Some (D 10000 (-2))), wq) ->
  book_get_ask E (tick wq) i = Ret (D 50000 0) ->
  Dec.sub (D 50000 0) (D 1 (-2)) = Ret (D 4999999 (-2))
  /\ (exists amount quot,
        Dec.mul (D 10000 (-2)) (D 10 (-1)) = Ret amount
        /\ Dec.div amount (D 4999999 (-2)) = Ret quot
        /\ round_coin (Some quot) = Ret (D 200000 (-8)))
  /\ Dec.ge (D 200000 (-8)) (D 1 (-3)) = true
  /\ exists w',
       place_buy E i (D 10 (-1)) w
       = (match api_place_limit_order E (S (tick wq)) "BTC-USD" BuySide
                  (D 200000 (-8)) (D 4999999 (-2)) true with
          | Ret r => Ok r
          | Exc e => Raise e
          end, w')
       /\ trace w'
          = trace wq ++ [PlaceLimitOrder "BTC-USD" BuySide (D 200000 (-8))
                           (D 4999999 (-2)) true].
Proof.
  intros Hp Hid Hmin Hinc Hq Hask.
  split; [reflexivity |].
  split; [exists (D 100000 (-3)), (D 2000000400000080000016000003 (-30));
          repeat split; vm_compute; reflexivity |].
  split; [reflexivity |].
  assert (Hpq : products (engine wq) !! i = Some p).
  { pose proof (balance_get_quoted_currency_from_product_id E _ _ _ _ Hq)
      as (-> & _). exact Hp. }
  unfold place_buy. run. rewrite Hid.
  unfold bind at 1. rewrite Hq.
  rewrite bind_lift.
  change (py_mul (Some (D 10000 (-2))) (D 10 (-1))) with (Ret (D 100000 (-3))).
  cbv beta iota.
  rewrite bind_call_env, Hask, bind_lift, Hinc.
  change (Dec.sub (D 50000 0) (D 1 (-2))) with (Ret (D 4999999 (-2))).
  cbv beta iota. rewrite bind_lift.
  replace (Dec.div (D 100000 (-3)) (D 4999999 (-2)))
    with (Ret (D 2000000400000080000016000003 (-30)))
    by (vm_compute; reflexivity).
  rewrite bind_lift.
  replace (round_coin (Some (D 2000000400000080000016000003 (-30))))
    with (Ret (D 200000 (-8))) by (vm_compute; reflexivity).
  rewrite Hmin.
  change (Dec.lt (D 200000 (-8)) (D 1 (-3))) with false.
  cbv beta iota. run. cbv beta iota.
  change (Dec.ge (D 200000 (-8)) (D 1 (-3))) with true.
  cbv beta iota.
  rewrite bind_call_env. cbn [tick after_env].
  destruct (api_place_limit_order E (S (tick wq)) "BTC-USD" BuySide
              (D 200000 (-8)) (D 4999999 (-2)) true) as [r|e].
  - destruct (remember_order_run i p r
                (after_env [PlaceLimitOrder "BTC-USD" BuySide (D 200000 (-8))
                              (D 4999999 (-2)) true] (after_env [] wq)))
      as (w' & Hrun & Ht); [exact Hpq |].
    exists w'. unfold bind. rewrite Hrun. split; [reflexivity |].
    rewrite Ht. cbn. now rewrite app_nil_r.
  - eexists. split; [reflexivity |]. cbn. now rewrite app_nil_r.
Qed.

(** ** Rounding *)

Lemma pow10_pos k : 0 <= k -> 0 < 10 ^ k.
Proof. intros H. apply Z.pow_pos_nonneg; lia. Qed.

Lemma ndigits_fuel_bounds n :
  forall a, 0 < a -> a < 2 ^ (Z.of_nat n + 1) ->
    1 <= Dec.ndigits_fuel n a
    /\ 10 ^ (Dec.ndigits_fuel n a - 1) <= a < 10 ^ Dec.ndigits_fuel n a.
Proof.
  induction n as [|n IH]; intros a Ha Hlt.
  - cbn in *. lia.
  - cbn [Dec.ndigits_fuel]. destruct (a <? 10) eqn:H10.
    + apply Z.ltb_lt in H10. cbn. lia.
    + apply Z.ltb_ge in H10.
      assert (Hpow : 2 ^ (Z.of_nat (S n) + 1) = 2 * 2 ^ (Z.of_nat n + 1)).
      { replace (Z.of_nat (S n) + 1) with (Z.succ (Z.of_nat n + 1)) by lia.
        apply Z.pow_succ_r. lia. }
      pose proof (Z.div_mod a 10 ltac:(lia)) as Hdm.
      pose proof (Z.mod_pos_bound a 10 ltac:(lia)) as Hmod.
      destruct (IH (a / 10)) as (H1 & Hlo & Hhi); [lia | lia |].
      set (k := Dec.ndigits_fuel n (a / 10)) in *.
      replace (1 + k - 1) with (Z.succ (k - 1)) by lia.
      replace (1 + k) with (Z.succ k) by lia.
      rewrite !Z.pow_succ_r by lia. lia.
Qed.

Lemma ndigits_bounds a :
  0 < a -> 1 <= Dec.ndigits a /\ 10 ^ (Dec.ndigits a - 1) <= a < 10 ^ Dec.ndigits a.
Proof.
  intros Ha. unfold Dec.ndigits. apply ndigits_fuel_bounds; [exact Ha |].
  rewrite Z2Nat.id by apply Z.log2_nonneg.
  replace (Z.log2 a + 1) with (Z.succ (Z.log2 a)) by lia.
  now apply Z.log2_spec.
Qed.

Lemma ndigits_unique a m :
  0 < a -> 10 ^ (m - 1) <= a < 10 ^ m -> Dec.ndigits a = m.
Proof.
  intros Ha [Hlo Hhi].
  destruct (ndigits_bounds a Ha) as (H1 & Hlo' & Hhi').
  assert (Hm : 1 <= m).
  { destruct (Z_lt_le_dec m 1) as [Hm|Hm]; [| exact Hm].
    destruct (Z.eq_dec m 0) as [->|Hm0]; [cbn in Hhi; lia |].
    rewrite (Z.pow_neg_r 10 m) in Hhi by lia. lia. }
  assert (Dec.ndigits a - 1 < m).
  { apply (Z.pow_lt_mono_r_iff 10); lia. }
  assert (m - 1 < Dec.ndigits a).
  { apply (Z.pow_lt_mono_r_iff 10); lia. }
  lia.
Qed.

Lemma ndigits_zero : Dec.ndigits 0 = 1.
Proof. reflexivity. Qed.

Lemma ndigits_ge_1 a : 0 <= a -> 1 <= Dec.ndigits a.
Proof.
  intros Ha. destruct (Z.eq_dec a 0) as [->|Hne]; [now rewrite ndigits_zero |].
  apply ndigits_bounds. lia.
Qed.

Lemma ndigits_shift c m :
  0 < c -> 0 <= m -> Dec.ndigits (c * 10 ^ m) = Dec.ndigits c + m.
Proof.
  intros Hc Hm. destruct (ndigits_bounds c Hc) as (H1 & Hlo & Hhi).
  pose proof (pow10_pos m Hm) as Hp.
  apply ndigits_unique; [nia |].
  replace (Dec.ndigits c + m - 1) with ((Dec.ndigits c - 1) + m) by lia.
  rewrite !Z.pow_add_r by lia. nia.
Qed.

Lemma ndigits_div c m :
  0 < c -> 0 <= m -> Dec.ndigits (c / 10 ^ m) <= Z.max 1 (Dec.ndigits c - m).
Proof.
  intros Hc Hm. destruct (ndigits_bounds c Hc) as (H1 & Hlo & Hhi).
  pose proof (pow10_pos m Hm) as Hp.
  assert (Hq : 0 <= c / 10 ^ m) by (apply Z.div_pos; lia).
  destruct (Z.eq_dec (c / 10 ^ m) 0) as [->|Hne]; [rewrite ndigits_zero; lia |].
  destruct (ndigits_bounds (c / 10 ^ m) ltac:(lia)) as (H1' & Hlo' & _).
  set (d := Dec.ndigits (c / 10 ^ m)) in *.
  assert (Hle : 10 ^ (d - 1) * 10 ^ m <= c).
  { pose proof (Z.mul_div_le c (10 ^ m) Hp). nia. }
  rewrite <- Z.pow_add_r in Hle by lia.
  assert (d - 1 + m < Dec.ndigits c).
  { apply (Z.pow_lt_mono_r_iff 10); lia. }
  lia.
Qed.

Ltac zbool :=
  repeat match goal with
         | |- context [?a <? ?b] => destruct (Z.ltb_spec a b); try lia
         | |- context [?a <=? ?b] => destruct (Z.leb_spec a b); try lia
         | |- context [?a =? ?b] => destruct (Z.eqb_spec a b); try lia
         end.

Ltac unfold_context :=
  cbv [Dec.Etiny Dec.Emin Dec.Emax Dec.Etop Dec.prec] in *.

Lemma fix_small c k :
  0 <= c -> 0 <= k <= 28 -> Dec.ndigits c <= 28 ->
  Dec.fix_ (Dec.mk c (- k)) = Ret (Dec.mk c (- k)).
Proof.
  intros Hc Hk Hn. pose proof (ndigits_ge_1 c Hc) as H1.
  unfold Dec.fix_, Dec.magnitude. cbn [Dec.coeff Dec.exp].
  rewrite (Z.abs_eq c Hc). unfold_context.
  destruct (Z.eqb_spec c 0) as [->|Hne].
  - f_equal. f_equal. lia.
  - zbool. reflexivity.
Qed.

Lemma truncated_nonneg x k : 0 <= Dec.coeff x -> 0 <= truncated x k.
Proof.
  intros Hc. unfold truncated. destruct (- k <=? Dec.exp x) eqn:He.
  - apply Z.leb_le in He. pose proof (pow10_pos (Dec.exp x + k)). nia.
  - apply Z.leb_gt in He. apply Z.div_pos; [lia | apply pow10_pos; lia].
Qed.

Lemma truncated_digits x k :
  0 < Dec.coeff x ->
  Dec.ndigits (truncated x k)
  <= Z.max 1 (Dec.ndigits (Dec.coeff x) + Dec.exp x + k).
Proof.
  intros Hc. unfold truncated. destruct (- k <=? Dec.exp x) eqn:He.
  - apply Z.leb_le in He. rewrite ndigits_shift by lia. lia.
  - apply Z.leb_gt in He.
    pose proof (ndigits_div (Dec.coeff x) (- k - Dec.exp x) Hc ltac:(lia)). lia.
Qed.

Lemma rescale_down x k :
  0 < Dec.coeff x ->
  Dec.rescale x (- k) Dec.ROUND_DOWN = Dec.mk (truncated x k) (- k).
Proof.
  intros Hc. unfold Dec.rescale, truncated, Dec.magnitude.
  destruct (ndigits_bounds _ Hc) as (H1 & Hlo & Hhi).
  rewrite (Z.abs_eq (Dec.coeff x)) by lia.
  rewrite (Z.sgn_pos (Dec.coeff x)) by lia.
  destruct (Z.eqb_spec (Dec.coeff x) 0); [lia |].
  destruct (Z.leb_spec (- k) (Dec.exp x)) as [He|He].
  - now replace (Dec.exp x - - k) with (Dec.exp x + k) by lia.
  - destruct (Z.ltb_spec (Dec.ndigits (Dec.coeff x) + Dec.exp x - - k) 0)
      as [Hd|Hd]; cbn [Dec.round_up]; f_equal.
    + change (1 / 10 ^ 1) with 0. symmetry. apply Z.div_small.
      split; [lia |].
      eapply Z.lt_le_trans; [exact Hhi |].
      apply Z.pow_le_mono_r; lia.
    + lia.
Qed.

Lemma quantize_down_fits x k :
  0 <= Dec.coeff x -> 0 <= k <= 28 ->
  (Dec.coeff x = 0 \/ Dec.ndigits (Dec.coeff x) + Dec.exp x + k <= 28) ->
  Dec.quantize x (Dec.mk 1 (- k)) Dec.ROUND_DOWN
  = Ret (Dec.mk (truncated x k) (- k)).
Proof.
  intros Hc Hk Hfit. unfold Dec.quantize. cbn [Dec.exp].
  replace (negb ((Dec.Etiny <=? - k) && (- k <=? Dec.Emax))) with false
    by (unfold_context; zbool; reflexivity).
  destruct (Z.eqb_spec (Dec.coeff x) 0) as [H0|Hne].
  - replace (truncated x k) with 0.
    + apply (fix_small 0 k); [lia | lia | now rewrite ndigits_zero].
    + unfold truncated. rewrite H0. destruct (- k <=? Dec.exp x); [lia |].
      symmetry. apply Zdiv_0_l.
  - destruct Hfit as [H0|Hfit]; [contradiction |].
    assert (Hpos : 0 < Dec.coeff x) by lia.
    pose proof (truncated_nonneg x k Hc) as Htn.
    pose proof (truncated_digits x k Hpos) as Htd.
    pose proof (ndigits_ge_1 _ Htn) as Ht1.
    rewrite (rescale_down x k Hpos).
    unfold Dec.adjusted, Dec.magnitude. cbn [Dec.coeff Dec.exp].
    rewrite (Z.abs_eq (Dec.coeff x)) by lia.
    rewrite (Z.abs_eq (truncated x k)) by lia.
    unfold_context. zbool.
    apply fix_small; lia.
Qed.

Lemma quantize_down_overflows x k :
  0 < Dec.coeff x -> 0 <= k <= 28 ->
  28 < Dec.ndigits (Dec.coeff x) + Dec.exp x + k ->
  Dec.quantize x (Dec.mk 1 (- k)) Dec.ROUND_DOWN = Exc InvalidOperation.
Proof.
  intros Hc Hk Hbig. unfold Dec.quantize. cbn [Dec.exp].
  replace (negb ((Dec.Etiny <=? - k) && (- k <=? Dec.Emax))) with false
    by (unfold_context; zbool; reflexivity).
  unfold Dec.adjusted, Dec.magnitude.
  rewrite (Z.abs_eq (Dec.coeff x)) by lia.
  unfold_context. zbool; reflexivity.
Qed.

Lemma pos_pow10 m : 0 <= m -> Z.pos (Z.to_pos (10 ^ m)) = 10 ^ m.
Proof. intros Hm. apply Z2Pos.id. now apply pow10_pos. Qed.

Lemma value_floor x k :
  0 <= k -> Qfloor (Dec.value x * inject_Z (10 ^ k)) = truncated x k.
Proof.
  intros Hk. unfold Dec.value, truncated.
  destruct (Z.leb_spec 0 (Dec.exp x)) as [He|He].
  - rewrite <- inject_Z_mult, Qfloor_Z.
    destruct (Z.leb_spec (- k) (Dec.exp x)); [| lia].
    rewrite Z.pow_add_r by lia. ring.
  - unfold Qfloor, Qmult, inject_Z. cbn [Qnum Qden].
    rewrite Pos.mul_1_r, pos_pow10 by lia.
    pose proof (pow10_pos k Hk) as Hpk.
    destruct (Z.leb_spec (- k) (Dec.exp x)) as [Hek|Hek].
    + replace (10 ^ k) with (10 ^ (Dec.exp x + k) * 10 ^ (- Dec.exp x))
        by (rewrite <- Z.pow_add_r by lia; f_equal; lia).
      rewrite Z.mul_assoc. apply Z.div_mul.
      apply Z.neq_sym, Z.lt_neq, pow10_pos. lia.
    + replace (10 ^ (- Dec.exp x)) with (10 ^ (- k - Dec.exp x) * 10 ^ k)
        by (rewrite <- Z.pow_add_r by lia; f_equal; lia).
      apply Z.div_mul_cancel_r.
      * apply Z.neq_sym, Z.lt_neq, pow10_pos. lia.
      * lia.
Qed.

Lemma value_fits x k :
  0 < Dec.coeff x -> 0 <= k <= 28 ->
  (Dec.value x < inject_Z (10 ^ (28 - k)))%Q
  <-> Dec.ndigits (Dec.coeff x) + Dec.exp x + k <= 28.
Proof.
  intros Hc Hk. destruct (ndigits_bounds _ Hc) as (H1 & Hlo & Hhi).
  set (n := Dec.ndigits (Dec.coeff x)) in *.
  set (c := Dec.coeff x) in *. set (e := Dec.exp x) in *.
  unfold Dec.value. fold c e.
  destruct (Z.leb_spec 0 e) as [He|He].
  - rewrite <- Zlt_Qlt.
    pose proof (pow10_pos e He) as Hpe.
    split.
    + intros Hlt. destruct (Z_le_gt_dec (n + e + k) 28) as [|Hgt]; [assumption |].
      exfalso.
      assert (10 ^ (28 - k) <= 10 ^ (n - 1 + e)) by (apply Z.pow_le_mono_r; lia).
      rewrite Z.pow_add_r in * by lia. nia.
    + intros Hle.
      assert (10 ^ (n + e) <= 10 ^ (28 - k)) by (apply Z.pow_le_mono_r; lia).
      rewrite Z.pow_add_r in * by lia. nia.
  - unfold Qlt, inject_Z. cbn [Qnum Qden]. rewrite pos_pow10 by lia.
    rewrite Z.mul_1_r, <- Z.pow_add_r by lia.
    split.
    + intros Hlt. destruct (Z_le_gt_dec (n + e + k) 28) as [|Hgt]; [assumption |].
      exfalso.
      assert (10 ^ (28 - k + - e) <= 10 ^ (n - 1)) by (apply Z.pow_le_mono_r; lia).
      lia.
    + intros Hle.
      assert (10 ^ n <= 10 ^ (28 - k + - e)) by (apply Z.pow_le_mono_r; lia).
      lia.
Qed.

Lemma truncation_bounds (v : Q) (P : positive) :
  (Qfloor (v * inject_Z (Z.pos P)) # P <= v)%Q
  /\ (v < (Qfloor (v * inject_Z (Z.pos P)) # P) + (1 # P))%Q.
Proof.
  pose proof (Qfloor_le (v * inject_Z (Z.pos P))) as Hle.
  pose proof (Qlt_floor (v * inject_Z (Z.pos P))) as Hlt.
  set (t := Qfloor (v * inject_Z (Z.pos P))) in *.
  destruct v as [a b].
  unfold Qle, Qlt, Qmult, Qplus, inject_Z in *. cbn [Qnum Qden] in *.
  rewrite ?Pos.mul_1_r, ?Z.mul_1_r in *.
  rewrite Pos2Z.inj_mul. split; nia.
Qed.

Lemma value_zero x : Dec.coeff x = 0 -> (Dec.value x == 0)%Q.
Proof.
  intros H. unfold Dec.value. rewrite H.
  destruct (0 <=? Dec.exp x); reflexivity.
Qed.

Lemma quantize_down_spec x k (P : positive) :
  0 <= Dec.coeff x -> 0 < k <= 28 -> Z.pos P = 10 ^ k ->
  ((Dec.value x < inject_Z (10 ^ (28 - k)))%Q ->
   exists r, Dec.quantize x (Dec.mk 1 (- k)) Dec.ROUND_DOWN = Ret r
             /\ truncation_of x r k P)
  /\ ((inject_Z (10 ^ (28 - k)) <= Dec.value x)%Q ->
      Dec.quantize x (Dec.mk 1 (- k)) Dec.ROUND_DOWN = Exc InvalidOperation).
Proof.
  intros Hc Hk HP. split.
  - intros Hfit. exists (Dec.mk (truncated x k) (- k)). split.
    + apply quantize_down_fits; [exact Hc | lia |].
      destruct (Z.eq_dec (Dec.coeff x) 0) as [H0|Hne]; [now left | right].
      apply value_fits; [lia | lia | exact Hfit].
    + unfold truncation_of. cbn [Dec.exp Dec.coeff].
      rewrite HP, value_floor by lia.
      split; [reflexivity |]. split; [reflexivity |].
      assert (Hv : Dec.value (Dec.mk (truncated x k) (- k)) = (truncated x k # P)).
      { unfold Dec.value. cbn [Dec.exp Dec.coeff].
        destruct (Z.leb_spec 0 (- k)); [lia |].
        rewrite Z.opp_involutive, <- HP. reflexivity. }
      rewrite Hv, <- (value_floor x k), <- HP by lia.
      apply truncation_bounds.
  - intros Hbig.
    assert (Hpos : 0 < Dec.coeff x).
    { destruct (Z.eq_dec (Dec.coeff x) 0) as [H0|Hne]; [| lia].
      exfalso. rewrite (value_zero x H0) in Hbig.
      unfold Qle, inject_Z in Hbig. cbn [Qnum Qden] in Hbig.
      pose proof (pow10_pos (28 - k) ltac:(lia)). lia. }
    apply quantize_down_overflows; [exact Hpos | lia |].
    destruct (Z_le_gt_dec (Dec.ndigits (Dec.coeff x) + Dec.exp x + k) 28)
      as [Hle|Hgt]; [| lia].
    exfalso. apply (value_fits x k Hpos ltac:(lia)) in Hle.
    now apply Qlt_not_le in Hle.
Qed.

(** C8 (amended): for every non-negative decimal below 10^26,
    [round_fiat] returns it truncated toward zero to exactly 2 decimal
    places, and for every non-negative decimal below 10^20, [round_coin]
    returns it truncated toward zero to exactly 8 decimal places; the result
    never exceeds the input and is less than one unit of the last place
    under it (10.129 gives 10.12, 0.123456789 gives 0.12345678, and
    0.000000019 gives 0.00000001).  From 10^26 resp. 10^20 on the result
    would need more than the 28 digits of the context and the call raises
    InvalidOperation. *)
Theorem rounding_truncates x :
  0 <= Dec.coeff x ->
  ((Dec.value x < inject_Z (10 ^ 26))%Q ->
   exists r, round_fiat (Some x) = Ret r /\ truncation_of x r 2 100)
  /\ ((inject_Z (10 ^ 26) <= Dec.value x)%Q ->
      round_fiat (Some x) = Exc InvalidOperation)
  /\ ((Dec.value x < inject_Z (10 ^ 20))%Q ->
      exists r, round_coin (Some x) = Ret r /\ truncation_of x r 8 100000000)
  /\ ((inject_Z (10 ^ 20) <= Dec.value x)%Q ->
      round_coin (Some x) = Exc InvalidOperation)
  /\ round_fiat (Some (D 10129 (-3))) = Ret (D 1012 (-2))
  /\ round_coin (Some (D 123456789 (-9))) = Ret (D 12345678 (-8))
  /\ round_coin (Some (D 19 (-9))) = Ret (D 1 (-8)).
Proof.
  intros Hc.
  destruct (quantize_down_spec x 2 100 Hc ltac:(lia) eq_refl) as [Hf1 Hf2].
  destruct (quantize_down_spec x 8 100000000 Hc ltac:(lia) eq_refl)
    as [Hc1 Hc2].
  repeat split; try assumption; reflexivity.
Qed.

(** ** The end of a chase *)

Lemma chase_finish_raise E i (body : M (Flow unit)) w ex w1 :
  body w = (Raise ex, w1) ->
  chase_finish E i body w = chase_abort E i ex w1.
Proof.
  intros H. unfold chase_finish, chase_abort, bind, try_except.
  rewrite H.
  destruct (modify_product i (set_order_in_progress false) w1)
    as [[[]|e|] w2] eqn:Hm; reflexivity.
Qed.

Lemma chase_finish_returned E i (body : M (Flow unit)) w w1 :
  body w = (Ok Returned, w1) -> chase_finish E i body w = (Ok tt, w1).
Proof.
  intros H. unfold chase_finish, bind, try_except. now rewrite H.
Qed.

Lemma chase_finish_out_of_fuel E i (body : M (Flow unit)) w w1 :
  body w = (OutOfFuel, w1) -> chase_finish E i body w = (OutOfFuel, w1).
Proof.
  intros H. unfold chase_finish, bind, try_except. now rewrite H.
Qed.

Lemma chase_finish_next E i (body : M (Flow unit)) w w1 :
  body w = (Ok (Next tt), w1) ->
  chase_finish E i body w = chase_close E i w1.
Proof.
  intros H. unfold chase_finish, chase_close.
  unfold bind at 1. unfold try_except. now rewrite H.
Qed.

Lemma chase_close_run E i p w :
  products (engine w) !! i = Some p ->
  chase_close E i w
  = match api_cancel_all E (tick w) (product_id p) with
    | Ret _ =>
        (Ok tt,
         with_product i (set_order_in_progress false p)
           (after_env [CancelAll (product_id p)] w))
    | Exc e => (Raise e, after_env [CancelAll (product_id p)] w)
    end.
Proof.
  intros Hp. unfold chase_close. run. rewrite bind_call_env.
  destruct (api_cancel_all E (tick w) (product_id p)); [| reflexivity].
  erewrite modify_product_run by lookup_product. reflexivity.
Qed.

Lemma chase_abort_run E i ex p w :
  products (engine w) !! i = Some p ->
  chase_abort E i ex w
  = match api_cancel_all E (tick w) (product_id p) with
    | Ret _ =>
        (Ok tt,
         with_product i (set_order_in_progress false p)
           (after_env [CancelAll (product_id p)]
              (mkWorld (engine w) (tick w) (trace w ++ [ErrorLogged ex]))))
    | Exc e =>
        (Raise e,
         after_env [CancelAll (product_id p)]
           (mkWorld
              (engine (with_product i (set_order_in_progress false p) w))
              (tick w) (trace w ++ [ErrorLogged ex])))
    end.
Proof.
  intros Hp. unfold chase_abort. run.
  rewrite bind_call_env. cbn [tick product_id set_order_in_progress with_product].
  destruct (api_cancel_all E (tick w) (product_id p)); [| reflexivity].
  erewrite modify_product_run
    by (cbn; apply list_lookup_insert_eq; now apply lookup_lt_Some in Hp).
  unfold with_product, after_env. cbn.
  now rewrite list_insert_insert_eq.
Qed.

(** ** Escalation *)

Lemma buy_escalate_run E i p w :
  products (engine w) !! i = Some p ->
  buy_escalate E i w
  = escalate_run E BuySide
      (get_quoted_currency_from_product_id E (product_id p)) i p w.
Proof.
  intros Hp. unfold buy_escalate, escalate_run. run. rewrite bind_call_env.
  destruct (api_cancel_all E (tick w) (product_id p)); [| reflexivity].
  unfold bind at 1.
  destruct (get_quoted_currency_from_product_id E (product_id p) _)
    as [[q|e|] wq] eqn:Hq; try reflexivity.
  pose proof (balance_get_quoted_currency_from_product_id E _ _ _ _ Hq)
    as (Hps & _).
  rewrite bind_call_env.
  destruct (api_place_market_order E (tick wq) (product_id p) BuySide q);
    [| reflexivity].
  apply modify_product_run. cbn. rewrite Hps. exact Hp.
Qed.

Lemma sell_escalate_run E i p w :
  products (engine w) !! i = Some p ->
  sell_escalate E i w
  = escalate_run E SellSide
      (get_base_currency_from_product_id E (product_id p)) i p w.
Proof.
  intros Hp. unfold sell_escalate, escalate_run. run. rewrite bind_call_env.
  destruct (api_cancel_all E (tick w) (product_id p)); [| reflexivity].
  unfold bind at 1.
  destruct (get_base_currency_from_product_id E (product_id p) _)
    as [[q|e|] wq] eqn:Hq; try reflexivity.
  pose proof (balance_get_base_currency_from_product_id E _ _ _ _ Hq)
    as (Hps & _).
  rewrite bind_call_env.
  destruct (api_place_market_order E (tick wq) (product_id p) SellSide q);
    [| reflexivity].
  apply modify_product_run. cbn. rewrite Hps. exact Hp.
Qed.

Lemma quiet_not_limit evs :
  Forall quiet evs -> Forall (fun ev => ~ is_limit_order ev) evs.
Proof.
  intros H. eapply Forall_impl; [exact H |].
  intros ev Hq Hl. now destruct ev.
Qed.

Ltac no_limit :=
  repeat first
    [ apply List.Forall_nil
    | apply List.Forall_cons; [intros Hl; exact Hl |] ].

Lemma escalation_outcome E side read i p (body : M (Flow unit)) w w1 :
  respects balance_step read -> total read ->
  products (engine w1) !! i = Some p ->
  body w
  = (match escalate_run E side read i p w1 with
     | (Ok _, w2) => (Ok Returned, w2)
     | (Raise e, w2) => (Raise e, w2)
     | (OutOfFuel, w2) => (OutOfFuel, w2)
     end) ->
  escalated E side read i p w1
    (chase_finish E i body w).1 (chase_finish E i body w).2.
Proof.
  intros Hread Htotal Hp Hbody. unfold escalate_run in Hbody.
  unfold escalated, chase_result.
  set (pid := product_id p) in *.
  set (w2 := after_env [CancelAll pid] w1) in *.
  assert (Hp2 : products (engine w2) !! i = Some p) by exact Hp.
  assert (Hlen : (i < length (products (engine w1)))%nat)
    by (now apply lookup_lt_Some in Hp).
  destruct (api_cancel_all E (tick w1) pid) as [u|e] eqn:Hcancel.
  2:{ (* the cancel-all raises *)
      rewrite (chase_finish_raise _ _ _ _ _ _ Hbody),
        (chase_abort_run _ _ _ _ _ Hp2).
      fold pid.
      assert (Hev : forall w',
        trace w' = (trace w2 ++ [ErrorLogged e]) ++ [CancelAll pid] ->
        events_since w1 w' = CancelAll pid :: [ErrorLogged e; CancelAll pid]).
      { intros w' Ht. apply events_since_app. rewrite Ht. subst w2. cbn.
        now rewrite <- !app_assoc. }
      change (S (tick w1)) with (tick w2).
      destruct (api_cancel_all E (tick w2) pid); cbn [fst snd];
        (split; [discriminate |]);
        (split; [eexists; split;
                 [cbn; apply list_lookup_insert_eq; exact Hlen | reflexivity] |]);
        (split; [reflexivity |]);
        exists [ErrorLogged e; CancelAll pid];
        (split; [apply Hev; reflexivity |]);
        (split; [no_limit |]);
        (split; reflexivity). }
  destruct (read w2) as [rq wq] eqn:Hq.
  pose proof (Hread _ _ _ Hq) as (Hps & _ & _ & _ & evs0 & Ht0 & Hq0).
  pose proof (Htotal w2) as Htot. rewrite Hq in Htot. cbn in Htot.
  assert (Hpq : products (engine wq) !! i = Some p) by now rewrite Hps.
  assert (Hlenq : (i < length (products (engine wq)))%nat)
    by (now apply lookup_lt_Some in Hpq).
  assert (Hevq : events_since w2 wq = evs0)
    by (now apply events_since_app).
  assert (Hpsq : products (engine wq) = products (engine w1)) by exact Hps.
  rewrite Hevq.
  destruct rq as [q|e|]; [| | contradiction].
  2:{ (* the refresh of the balance raises *)
      rewrite (chase_finish_raise _ _ _ _ _ _ Hbody),
        (chase_abort_run _ _ _ _ _ Hpq).
      fold pid.
      assert (Hev : forall w',
        trace w' = (trace wq ++ [ErrorLogged e]) ++ [CancelAll pid] ->
        events_since w1 w'
        = CancelAll pid :: (evs0 ++ [ErrorLogged e; CancelAll pid])).
      { intros w' Ht. apply events_since_app. rewrite Ht, Ht0. subst w2. cbn.
        now rewrite <- !app_assoc. }
      destruct (api_cancel_all E (tick wq) pid); cbn [fst snd];
        (split; [discriminate |]);
        (split; [eexists; split;
                 [cbn; apply list_lookup_insert_eq; exact Hlenq | reflexivity] |]);
        (split; [cbn; now rewrite Hpsq |]);
        exists (evs0 ++ [ErrorLogged e; CancelAll pid]);
        (split; [apply Hev; reflexivity |]);
        (split; [apply Forall_app; split;
                 [now apply quiet_not_limit | no_limit] |]);
        (split; [exact Hq0 |]); (split; reflexivity). }
  set (w3 := after_env [PlaceMarketOrder pid side q] wq) in *.
  assert (Hp3 : products (engine w3) !! i = Some p) by exact Hpq.
  destruct (api_place_market_order E (tick wq) pid side q) as [o|e] eqn:Hmarket.
  - (* every call succeeds *)
    rewrite (chase_finish_returned _ _ _ _ _ Hbody). cbn [fst snd].
    split; [discriminate |].
    split; [eexists; split;
            [cbn; apply list_lookup_insert_eq; exact Hlenq | reflexivity] |].
    split; [cbn; now rewrite Hpsq |].
    exists (evs0 ++ [PlaceMarketOrder pid side q]).
    split; [| split].
    + apply events_since_app. cbn. rewrite Ht0. subst w2. cbn.
      now rewrite <- !app_assoc.
    + apply Forall_app. split; [now apply quiet_not_limit |].
      no_limit.
    + split; [exact Hq0 |]. split; reflexivity.
  - (* the market order raises *)
    rewrite (chase_finish_raise _ _ _ _ _ _ Hbody),
      (chase_abort_run _ _ _ _ _ Hp3).
    fold pid.
    assert (Hev : forall w',
      trace w' = (trace w3 ++ [ErrorLogged e]) ++ [CancelAll pid] ->
      events_since w1 w'
      = CancelAll pid
        :: (evs0 ++ [PlaceMarketOrder pid side q; ErrorLogged e; CancelAll pid])).
    { intros w' Ht. apply events_since_app. rewrite Ht. subst w3. cbn.
      rewrite Ht0. subst w2. cbn. now rewrite <- !app_assoc. }
    change (S (tick wq)) with (tick w3).
    destruct (api_cancel_all E (tick w3) pid); cbn [fst snd];
      (split; [discriminate |]);
      (split; [eexists; split;
               [cbn; apply list_lookup_insert_eq; exact Hlenq | reflexivity] |]);
      (split; [cbn; now rewrite Hpsq |]);
      exists (evs0 ++ [PlaceMarketOrder pid side q; ErrorLogged e; CancelAll pid]);
      (split; [apply Hev; reflexivity |]);
      (split; [apply Forall_app; split;
               [now apply quiet_not_limit | no_limit] |]);
      (split; [exact Hq0 |]); (split; reflexivity).
Qed.

Lemma slippage_frame E side sp i w r w1 :
  chase_slippage E side sp i w = (r, w1) ->
  products (engine w1) = products (engine w).
Proof.
  assert (Hstep : respects balance_step (chase_slippage E side sp i)).
  { pose proof balance_step_refl. pose proof balance_step_trans.
    destruct side; cbn [chase_slippage];
      unfold buy_slippage, sell_slippage; balance_code. }
  intros H. now destruct (Hstep _ _ _ H).
Qed.

(** C1 (amended): in a buy chase and in a sell chase, when an iteration of
    the loop finds the adverse move of the one-tick-improved best price
    against the starting price above [max_slippage] percent, the next thing
    the chase does is a cancel-all for the product, and it places no limit
    order any more.  If the cancel-all does not raise and the balance is
    read, the only order that follows is a market order for the whole
    balance (the quote currency for a buy, the base currency for a sell);
    if the market order does not raise either, it is the last call of the
    chase, which returns at once.  If the cancel-all, the refresh of the
    balance or the market order raises, the handler of the chase logs the
    error and the chase makes one more cancel-all and nothing else: after a
    cancel-all that has raised no market order is placed.  In every case
    the chase ends, [order_in_progress] is false at the end and nothing
    else has changed in the products. *)
Theorem slippage_escalation E side fuel starting_price i c w w1 p :
  products (engine w) !! i = Some p ->
  chase_condition side i c w = (Ok true, w) ->
  chase_slippage E side starting_price i w = (Ok true, w1) ->
  escalated E side (chase_balance E side (product_id p)) i p w1
    (chase_from_loop E side (S fuel) starting_price i c w).1
    (chase_from_loop E side (S fuel) starting_price i c w).2.
Proof.
  intros Hp Hcond Hslip.
  assert (Hp1 : products (engine w1) !! i = Some p)
    by (rewrite (slippage_frame _ _ _ _ _ _ _ Hslip); exact Hp).
  destruct side; cbn [chase_condition chase_slippage chase_from_loop chase_balance] in *.
  - apply escalation_outcome.
    + apply balance_get_quoted_currency_from_product_id.
    + apply total_get_quoted_currency_from_product_id.
    + exact Hp1.
    + unfold buy_try_tail. cbn [buy_while].
      rewrite !bind_assoc, (bind_ok _ _ _ _ _ Hcond).
      rewrite bind_assoc, (bind_ok _ _ _ _ _ Hslip).
      rewrite bind_assoc, <- (buy_escalate_run _ _ _ _ Hp1).
      unfold bind.
      destruct (buy_escalate E i w1) as [[[]|e|] w2]; reflexivity.
  - apply escalation_outcome.
    + apply balance_get_base_currency_from_product_id.
    + apply total_get_base_currency_from_product_id.
    + exact Hp1.
    + unfold sell_try_tail. cbn [sell_while].
      rewrite !bind_assoc, (bind_ok _ _ _ _ _ Hcond).
      rewrite bind_assoc, (bind_ok _ _ _ _ _ Hslip).
      rewrite bind_assoc, <- (sell_escalate_run _ _ _ _ Hp1).
      unfold bind.
      destruct (sell_escalate E i w1) as [[[]|e|] w2]; reflexivity.
Qed.

(** ** A chase that returns has unlocked its product *)

Lemma chase_step_refl w : chase_step w w.
Proof.
  split; [exists []; now rewrite app_nil_r |].
  intros j p Hp. now exists p.
Qed.

Lemma chase_step_trans w1 w2 w3 :
  chase_step w1 w2 -> chase_step w2 w3 -> chase_step w1 w3.
Proof.
  intros [[evs Ht] Hp] [[evs' Ht'] Hp']. split.
  - exists (evs ++ evs'). rewrite Ht', Ht. now rewrite app_assoc.
  - intros j p Hj. destruct (Hp j p Hj) as (p1 & Hj1 & Hid1).
    destruct (Hp' j p1 Hj1) as (p2 & Hj2 & Hid2).
    exists p2. split; [exact Hj2 | congruence].
Qed.

Lemma balance_step_chase_step w w' : balance_step w w' -> chase_step w w'.
Proof.
  intros (Hps & _ & _ & _ & evs & Ht & _). split; [now exists evs |].
  intros j p Hj. exists p. now rewrite Hps.
Qed.

Lemma chase_step_modify_product i f :
  (forall p, product_id (f p) = product_id p) ->
  respects chase_step (modify_product i f).
Proof.
  intros Hf w r w' H.
  destruct (products (engine w) !! i) as [p|] eqn:Hp.
  - rewrite (modify_product_run _ _ _ _ Hp) in H. inversion H; subst.
    split; [exists []; cbn; now rewrite app_nil_r |].
    intros j q Hj. destruct (Nat.eq_dec i j) as [->|Hne].
    + exists (f p). rewrite (with_product_lookup _ _ _ _ Hp).
      split; [reflexivity |]. rewrite Hf. congruence.
    + exists q. now rewrite with_product_lookup_ne.
  - unfold modify_product in H. unfold bind in H.
    rewrite (get_product_fail _ _ Hp) in H. inversion H; subst.
    apply chase_step_refl.
Qed.

Lemma chase_step_sleep E : respects chase_step (sleep E).
Proof.
  intros w r w' H. unfold sleep in H. inversion H; subst. clear H.
  split; [exists []; cbn; now rewrite app_nil_r |].
  intros j p Hj. cbn. rewrite list_lookup_imap, Hj. cbn.
  eexists. split; reflexivity.
Qed.

Ltac chase_world :=
  split;
  [ cbn;
    match goal with
    | |- exists evs, ?t = ?t ++ evs =>
        exists []; now rewrite app_nil_r
    | |- exists evs, ?t ++ ?l = ?t ++ evs => now exists l
    end
  | intros ? ? ?; eexists; split; [cbn; eassumption | reflexivity] ].

Ltac chase_code :=
  repeat first
    [ respects_step
    | exact chase_step_refl
    | exact chase_step_trans
    | apply chase_step_modify_product; intros; reflexivity
    | apply chase_step_sleep
    | chase_world ].

Lemma chase_step_get_quoted E pid :
  respects chase_step (get_quoted_currency_from_product_id E pid).
Proof.
  intros w r w' H. apply balance_step_chase_step.
  exact (balance_get_quoted_currency_from_product_id E pid _ _ _ H).
Qed.

Lemma chase_step_get_base E pid :
  respects chase_step (get_base_currency_from_product_id E pid).
Proof.
  intros w r w' H. apply balance_step_chase_step.
  exact (balance_get_base_currency_from_product_id E pid _ _ _ H).
Qed.

Lemma chase_step_place_buy E i partial :
  respects chase_step (place_buy E i partial).
Proof.
  pose proof chase_step_refl. pose proof chase_step_trans.
  unfold place_buy, remember_order.
  repeat first [apply chase_step_get_quoted | chase_code].
Qed.

Lemma chase_step_place_sell E i partial :
  respects chase_step (place_sell E i partial).
Proof.
  pose proof chase_step_refl. pose proof chase_step_trans.
  unfold place_sell, remember_order.
  repeat first [apply chase_step_get_base | chase_code].
Qed.

Lemma chase_step_cancel_others E l r :
  respects chase_step (cancel_others E l r).
Proof.
  pose proof chase_step_refl. pose proof chase_step_trans.
  induction l as [|o l IH]; cbn [cancel_others]; [chase_code |].
  apply respects_bind; [assumption.. | chase_code | intros; exact IH].
Qed.

Lemma chase_step_buy_chase E i c : respects chase_step (buy_chase E i c).
Proof.
  pose proof chase_step_refl. pose proof chase_step_trans.
  unfold buy_chase.
  repeat first
    [ apply chase_step_get_quoted | apply chase_step_place_buy
    | apply chase_step_cancel_others | chase_code ].
Qed.

Lemma chase_step_sell_chase E i c : respects chase_step (sell_chase E i c).
Proof.
  pose proof chase_step_refl. pose proof chase_step_trans.
  unfold sell_chase.
  repeat first
    [ apply chase_step_get_base | apply chase_step_place_sell
    | apply chase_step_cancel_others | chase_code ].
Qed.

Lemma chase_step_buy_escalate E i : respects chase_step (buy_escalate E i).
Proof.
  pose proof chase_step_refl. pose proof chase_step_trans.
  unfold buy_escalate. repeat first [apply chase_step_get_quoted | chase_code].
Qed.

Lemma chase_step_sell_escalate E i : respects chase_step (sell_escalate E i).
Proof.
  pose proof chase_step_refl. pose proof chase_step_trans.
  unfold sell_escalate. repeat first [apply chase_step_get_base | chase_code].
Qed.

Lemma chase_step_buy_while E sp i :
  forall fuel c, respects chase_step (buy_while E fuel sp i c).
Proof.
  pose proof chase_step_refl. pose proof chase_step_trans.
  induction fuel as [|fuel IH]; intros c; cbn [buy_while].
  - intros w r w' Hrun. inversion Hrun; subst. apply chase_step_refl.
  - unfold buy_condition, buy_slippage.
    repeat first
      [ apply IH | apply chase_step_buy_chase | apply chase_step_buy_escalate
      | chase_code ].
Qed.

Lemma chase_step_sell_while E sp i :
  forall fuel c, respects chase_step (sell_while E fuel sp i c).
Proof.
  pose proof chase_step_refl. pose proof chase_step_trans.
  induction fuel as [|fuel IH]; intros c; cbn [sell_while].
  - intros w r w' Hrun. inversion Hrun; subst. apply chase_step_refl.
  - unfold sell_condition, sell_slippage.
    repeat first
      [ apply IH | apply chase_step_sell_chase | apply chase_step_sell_escalate
      | chase_code ].
Qed.

Lemma chase_step_buy_try_tail E fuel sp i c :
  respects chase_step (buy_try_tail E fuel sp i c).
Proof.
  pose proof chase_step_refl. pose proof chase_step_trans.
  unfold buy_try_tail.
  repeat first
    [ apply chase_step_buy_while | apply chase_step_get_quoted | chase_code ].
Qed.

Lemma chase_step_sell_try_tail E fuel sp i c :
  respects chase_step (sell_try_tail E fuel sp i c).
Proof.
  pose proof chase_step_refl. pose proof chase_step_trans.
  unfold sell_try_tail.
  repeat first
    [ apply chase_step_sell_while | apply chase_step_get_base | chase_code ].
Qed.

Lemma chase_step_condition side i c :
  respects chase_step (chase_condition side i c).
Proof.
  pose proof chase_step_refl. pose proof chase_step_trans.
  destruct side; cbn [chase_condition];
    unfold buy_condition, sell_condition; chase_code.
Qed.

Lemma chase_step_slippage E side sp i :
  respects chase_step (chase_slippage E side sp i).
Proof.
  pose proof chase_step_refl. pose proof chase_step_trans.
  destruct side; cbn [chase_slippage];
    unfold buy_slippage, sell_slippage; chase_code.
Qed.

(** The shape of a loop that ends with [return]: it has just escalated. *)
Ltac loop_returned IH H chase_lemma side :=
  apply bind_inv in H as [(go & w0 & Hgo & H) | [(e & _ & He) | [_ He]]];
  try discriminate He;
  pose proof (chase_step_condition side _ _ _ _ _ Hgo) as Hs0;
  destruct go; [| discriminate H];
  apply bind_inv in H as [(sl & w1 & Hsl & H) | [(e & _ & He) | [_ He]]];
  try discriminate He;
  pose proof (chase_step_slippage _ side _ _ _ _ _ Hsl) as Hs1;
  destruct sl;
  [ apply bind_inv in H as [([] & w2 & Hesc & H) | [(e & _ & He) | [_ He]]];
    try discriminate He;
    inversion H; subst; exists w1; split; [| exact Hesc];
    eapply chase_step_trans; eassumption
  | apply bind_inv in H as [(c' & w2 & Hch & H) | [(e & _ & He) | [_ He]]];
    try discriminate He;
    destruct (IH _ _ _ H) as (wa & Hsa & Hesc);
    exists wa; split; [| exact Hesc];
    pose proof (chase_lemma _ _ _ _ _ _ Hch);
    eauto using chase_step_trans ].

Lemma buy_while_returned E sp i :
  forall fuel c w w',
    buy_while E fuel sp i c w = (Ok Returned, w') ->
    exists wa, chase_step w wa /\ buy_escalate E i wa = (Ok tt, w').
Proof.
  induction fuel as [|fuel IH]; intros c w w' H; cbn [buy_while] in H.
  - discriminate H.
  - loop_returned IH H chase_step_buy_chase BuySide.
Qed.

Lemma sell_while_returned E sp i :
  forall fuel c w w',
    sell_while E fuel sp i c w = (Ok Returned, w') ->
    exists wa, chase_step w wa /\ sell_escalate E i wa = (Ok tt, w').
Proof.
  induction fuel as [|fuel IH]; intros c w w' H; cbn [sell_while] in H.
  - discriminate H.
  - loop_returned IH H chase_step_sell_chase SellSide.
Qed.

(** An escalation that returns has issued a cancel-all for the product and
    cleared [order_in_progress]. *)
Lemma escalate_run_ok E side read i p w w' :
  respects balance_step read ->
  products (engine w) !! i = Some p ->
  escalate_run E side read i p w = (Ok tt, w') ->
  (exists p', products (engine w') !! i = Some p'
              /\ order_in_progress p' = false)
  /\ exists evs, trace w' = trace w ++ CancelAll (product_id p) :: evs.
Proof.
  intros Hread Hp H. unfold escalate_run in H.
  destruct (api_cancel_all E (tick w) (product_id p)); [| discriminate H].
  destruct (read _) as [[q|e|] wq] eqn:Hq; try discriminate H.
  pose proof (Hread _ _ _ Hq) as (Hps & _ & _ & _ & evs0 & Ht0 & _).
  destruct (api_place_market_order E (tick wq) (product_id p) side q);
    [| discriminate H].
  inversion H; subst. split.
  - exists (set_order_in_progress false p). split; [| reflexivity].
    cbn. apply list_lookup_insert_eq.
    rewrite Hps. now apply lookup_lt_Some in Hp.
  - exists (evs0 ++ [PlaceMarketOrder (product_id p) side q]).
    cbn. rewrite Ht0. cbn. now rewrite <- !app_assoc.
Qed.

Lemma chase_finish_unlocked E i (body : M (Flow unit)) w0 w' p0 :
  products (engine w0) !! i = Some p0 ->
  respects chase_step body ->
  (forall w1,
     body w0 = (Ok Returned, w1) ->
     (exists p', products (engine w1) !! i = Some p'
                 /\ order_in_progress p' = false)
     /\ exists evs, trace w1 = trace w0 ++ evs
                    /\ In (CancelAll (product_id p0)) evs) ->
  chase_finish E i body w0 = (Ok tt, w') ->
  (exists p', products (engine w') !! i = Some p'
              /\ order_in_progress p' = false)
  /\ exists evs, trace w' = trace w0 ++ evs
                 /\ In (CancelAll (product_id p0)) evs.
Proof.
  intros Hp0 Hbody Hret H.
  destruct (body w0) as [[[[]|]|e|] w1] eqn:Hb.
  - (* the loop was left by its condition *)
    destruct (Hbody _ _ _ Hb) as [[evs Ht] Hps].
    destruct (Hps _ _ Hp0) as (p1 & Hp1 & Hid).
    rewrite (chase_finish_next _ _ _ _ _ Hb), (chase_close_run _ _ _ _ Hp1) in H.
    destruct (api_cancel_all E (tick w1) (product_id p1)); [| discriminate H].
    inversion H; subst. split.
    + exists (set_order_in_progress false p1). split; [| reflexivity].
      cbn. apply list_lookup_insert_eq. now apply lookup_lt_Some in Hp1.
    + exists (evs ++ [CancelAll (product_id p0)]). cbn.
      rewrite Ht, Hid, <- app_assoc. split; [reflexivity |].
      apply in_or_app. right. now left.
  - (* the loop returned *)
    rewrite (chase_finish_returned _ _ _ _ _ Hb) in H. inversion H; subst.
    now apply Hret.
  - (* the try block raised *)
    destruct (Hbody _ _ _ Hb) as [[evs Ht] Hps].
    destruct (Hps _ _ Hp0) as (p1 & Hp1 & Hid).
    rewrite (chase_finish_raise _ _ _ _ _ _ Hb), (chase_abort_run _ _ _ _ _ Hp1)
      in H.
    destruct (api_cancel_all E (tick w1) (product_id p1)); [| discriminate H].
    inversion H; subst. split.
    + exists (set_order_in_progress false p1). split; [| reflexivity].
      cbn. apply list_lookup_insert_eq. now apply lookup_lt_Some in Hp1.
    + exists (evs ++ [ErrorLogged e; CancelAll (product_id p0)]). cbn.
      rewrite Ht, Hid, <- !app_assoc. split; [reflexivity |].
      apply in_or_app. right. right. now left.
  - rewrite (chase_finish_out_of_fuel _ _ _ _ _ Hb) in H. discriminate H.
Qed.

Lemma buy_try_tail_returned E fuel sp i c w w' :
  buy_try_tail E fuel sp i c w = (Ok Returned, w') ->
  buy_while E fuel sp i c w = (Ok Returned, w').
Proof.
  unfold buy_try_tail. intros H.
  apply bind_inv in H as [(fl & w1 & Hfl & H) | [(e & _ & He) | [_ He]]];
    try discriminate He.
  destruct fl as [u|]; [| inversion H; subst; exact Hfl].
  exfalso.
  repeat (apply bind_inv in H as [(? & ? & _ & H) | [(? & _ & He) | [_ He]]];
          try discriminate He).
  discriminate H.
Qed.

Lemma sell_try_tail_returned E fuel sp i c w w' :
  sell_try_tail E fuel sp i c w = (Ok Returned, w') ->
  sell_while E fuel sp i c w = (Ok Returned, w').
Proof.
  unfold sell_try_tail. intros H.
  apply bind_inv in H as [(fl & w1 & Hfl & H) | [(e & _ & He) | [_ He]]];
    try discriminate He.
  destruct fl as [u|]; [| inversion H; subst; exact Hfl].
  exfalso.
  repeat (apply bind_inv in H as [(? & ? & _ & H) | [(? & _ & He) | [_ He]]];
          try discriminate He).
  discriminate H.
Qed.

(** Whenever [buy] or [sell] returns, [order_in_progress] of its product is
    false and a cancel-all for the product has been issued: what the
    specification says of every end of a chase holds of every return. *)
Lemma chase_returns_unlocked E side fuel i w w' :
  chase E side fuel i w = (Ok tt, w') ->
  exists p p',
    products (engine w) !! i = Some p
    /\ products (engine w') !! i = Some p'
    /\ order_in_progress p' = false
    /\ In (CancelAll (product_id p)) (events_since w w').
Proof.
  unfold chase. intros H.
  destruct (products (engine w) !! i) as [p|] eqn:Hp.
  2:{ destruct side; unfold buy, sell, bind, modify_product, bind in H;
        rewrite (get_product_fail _ _ Hp) in H; discriminate H. }
  exists p.
  assert (Hfinish : forall body wB,
    products (engine wB) !! i = Some (set_order_in_progress true p) ->
    trace wB = trace w ->
    respects chase_step body ->
    (forall w1, body wB = (Ok Returned, w1) ->
       exists wa, chase_step wB wa
         /\ forall pa, products (engine wa) !! i = Some pa ->
              exists read, respects balance_step read
                /\ escalate_run E side read i pa wa = (Ok tt, w1)) ->
    chase_finish E i body wB = (Ok tt, w') ->
    exists p',
      Some p = Some p
      /\ products (engine w') !! i = Some p'
      /\ order_in_progress p' = false
      /\ In (CancelAll (product_id p)) (events_since w w')).
  { intros body wB HpB HtB Hbody Hret Hrun.
    destruct (chase_finish_unlocked E i body wB w' _ HpB Hbody) as
      ((p' & Hp' & Hflag) & evs & Ht & Hin); [| exact Hrun |].
    - intros w1 Hb. destruct (Hret w1 Hb) as (wa & [[evs Ht] Hps] & Hesc).
      destruct (Hps _ _ HpB) as (pa & Hpa & Hid).
      destruct (Hesc pa Hpa) as (read & Hread & Hok).
      destruct (escalate_run_ok _ _ _ _ _ _ _ Hread Hpa Hok)
        as (Hunlocked & evs' & Ht').
      split; [exact Hunlocked |].
      exists (evs ++ CancelAll (product_id pa) :: evs'). split.
      + rewrite Ht', Ht. now rewrite <- app_assoc.
      + apply in_or_app. right. left. now rewrite Hid.
    - exists p'. repeat split; try assumption.
      rewrite HtB in Ht. now rewrite (events_since_app _ _ _ Ht). }
  destruct side.
  - unfold buy in H. run_in H. rewrite bind_call_env in H.
    destruct (book_get_ask E _ i) as [ask|]; [| discriminate H].
    rewrite bind_lift in H.
    destruct (Dec.sub ask _) as [sp|]; [| discriminate H].
    eapply Hfinish in H; [exact H | lookup_product | cbn; apply app_nil_r | |].
    + pose proof chase_step_refl. pose proof chase_step_trans.
      repeat first
        [ apply chase_step_place_buy | apply chase_step_get_quoted
        | apply chase_step_buy_try_tail | chase_code ].
    + intros w1 Hb.
      apply bind_inv in Hb as [(r & w2 & Hr & Hb) | [(e & _ & He) | [_ He]]];
        try discriminate He.
      apply bind_inv in Hb as [(a & w3 & Ha & Hb) | [(e & _ & He) | [_ He]]];
        try discriminate He.
      apply buy_try_tail_returned, buy_while_returned in Hb
        as (wa & Hsa & Hesc).
      exists wa. split.
      * eapply chase_step_trans; [exact (chase_step_place_buy _ _ _ _ _ _ Hr) |].
        eapply chase_step_trans;
          [exact (chase_step_get_quoted _ _ _ _ _ Ha) | exact Hsa].
      * intros pa Hpa. eexists. split;
          [| rewrite <- (buy_escalate_run _ _ _ _ Hpa); exact Hesc].
        apply balance_get_quoted_currency_from_product_id.
  - unfold sell in H. run_in H. rewrite bind_call_env in H.
    destruct (book_get_bid E _ i) as [bid|]; [| discriminate H].
    rewrite bind_lift in H.
    destruct (Dec.add bid _) as [sp|]; [| discriminate H].
    eapply Hfinish in H; [exact H | lookup_product | cbn; apply app_nil_r | |].
    + pose proof chase_step_refl. pose proof chase_step_trans.
      repeat first
        [ apply chase_step_place_sell | apply chase_step_get_base
        | apply chase_step_sell_try_tail | chase_code ].
    + intros w1 Hb.
      apply bind_inv in Hb as [(r & w2 & Hr & Hb) | [(e & _ & He) | [_ He]]];
        try discriminate He.
      apply bind_inv in Hb as [(a & w3 & Ha & Hb) | [(e & _ & He) | [_ He]]];
        try discriminate He.
      apply sell_try_tail_returned, sell_while_returned in Hb
        as (wa & Hsa & Hesc).
      exists wa. split.
      * eapply chase_step_trans; [exact (chase_step_place_sell _ _ _ _ _ _ Hr) |].
        eapply chase_step_trans;
          [exact (chase_step_get_base _ _ _ _ _ Ha) | exact Hsa].
      * intros pa Hpa. eexists. split;
          [| rewrite <- (sell_escalate_run _ _ _ _ Hpa); exact Hesc].
        apply balance_get_base_currency_from_product_id.
Qed.

(** * Further properties of the code *)

(** ** Products and currencies *)

(** X1: [get_product_by_product_id] returns the first product of the list
    with the id that is asked for, so a later product with the same id is
    never returned, and it returns [None] exactly when no product has that
    id. *)
Theorem first_product_with_id e pid :
  (forall i p,
     get_product_by_product_id e pid = Some (i, p)
     <-> products e !! i = Some p /\ product_id p = pid
         /\ forall j q, products e !! j = Some q -> (j < i)%nat ->
                        product_id q <> pid)
  /\ (get_product_by_product_id e pid = None
      <-> Forall (fun p => product_id p <> pid) (products e)).
Proof.
  unfold get_product_by_product_id. split.
  - intros i p. apply (list_find_Some (fun p => product_id p = pid)).
  - apply (list_find_None (fun p => product_id p = pid)).
Qed.

(** X2: the if/elif chains of [get_base_currency_from_product_id] and
    [get_quoted_currency_from_product_id] cover the same product ids, and
    return [None] for the others; the base balance is that of the coin
    named by the first three letters of the id, and the quoted balance is
    the BTC balance when the id ends in BTC and the fiat balance otherwise,
    whether the id ends in USD or in EUR. *)
Theorem currency_tables_agree pid :
  (base_currency pid = None <-> quoted_currency pid = None)
  /\ (forall c, base_currency pid = Some c ->
        currency_name c = Some (String.substring 0 3 pid))
  /\ (forall c, quoted_currency pid = Some c ->
        c = if String.eqb (String.substring 4 3 pid) "BTC" then BTC else FIAT).
Proof.
  unfold base_currency, quoted_currency.
  repeat match goal with
         | |- context [String.eqb pid ?s] =>
             destruct (String.eqb_spec pid s) as [->|?]
         end;
    (split; [split; congruence |]);
    (split; intros c H; inversion H; subst; reflexivity).
Qed.

(** ** Refreshing the balances *)

Lemma store_account_run a w :
  store_account a w
  = match account_currency (fiat_currency (engine w)) a with
    | None => (Ok tt, w)
    | Some c =>
        match round_as c (available a) with
        | Ret d => (Ok tt, with_balance c d w)
        | Exc ex => (Raise ex, w)
        end
    end.
Proof.
  unfold store_account, account_currency. rewrite bind_get_engine.
  repeat match goal with
         | |- context [is_str ?x ?s] => destruct (is_str x s)
         end;
    try reflexivity; cbn [round_as]; rewrite bind_lift;
    match goal with
    | |- context [match ?r with Ret _ => _ | Exc _ => _ end] => now destruct r
    end.
Qed.

Lemma store_accounts_unreadable l a c :
  In a l -> available a = None ->
  forall w,
    account_currency (fiat_currency (engine w)) a = Some c ->
    exists ex w1,
      store_accounts l w = (Raise ex, w1)
      /\ trace w1 = trace w
      /\ products (engine w1) = products (engine w)
      /\ last_balance_update (engine w1) = last_balance_update (engine w).
Proof.
  intros Hin Hav. induction l as [|a' l IH]; [contradiction |].
  intros w Hc. cbn [store_accounts]. unfold bind at 1.
  rewrite store_account_run.
  destruct Hin as [->|Hin].
  - rewrite Hc, Hav.
    assert (Hr : round_as c None = Exc TypeError) by now destruct c.
    rewrite Hr. eauto 10.
  - destruct (account_currency (fiat_currency (engine w)) a') as [c'|].
    + destruct (round_as c' (available a')) as [d|ex]; [| eauto 10].
      destruct (IH Hin (with_balance c' d w) Hc) as (ex & w1 & -> & H).
      exists ex, w1. split; [reflexivity | exact H].
    + apply (IH Hin w Hc).
Qed.

Lemma balance_of_set_balance c c' d b :
  balance_of c (set_balance c' d b)
  = if decide (c = c') then Some d else balance_of c b.
Proof. destruct c, c'; reflexivity. Qed.

Lemma refreshed_cons fc a l c old :
  refreshed fc (a :: l) c old
  = refreshed fc l c
      (if decide (account_currency fc a = Some c) then
         match round_as c (available a) with
         | Ret d => Some d
         | Exc _ => None
         end
       else old).
Proof.
  unfold refreshed. rewrite filter_cons.
  destruct (decide (account_currency fc a = Some c)) as [Ha|Ha];
    [| reflexivity].
  rewrite last_cons.
  destruct (last (filter _ l)) as [a'|]; reflexivity.
Qed.

Lemma store_accounts_readable l :
  forall w,
    Forall (readable (fiat_currency (engine w))) l ->
    exists b,
      store_accounts l w
      = (Ok tt, mkWorld (set_balances b (engine w)) (tick w) (trace w))
      /\ forall c,
           balance_of c b
           = refreshed (fiat_currency (engine w)) l c
               (balance_of c (balances (engine w))).
Proof.
  induction l as [|a l IH]; intros w Hall.
  - exists (balances (engine w)). split; [| reflexivity].
    cbn. unfold ret. now destruct w as [[] ? ?].
  - inversion Hall as [|? ? Ha Hl]; subst.
    cbn [store_accounts]. unfold bind at 1. rewrite store_account_run.
    destruct (account_currency (fiat_currency (engine w)) a) as [c'|] eqn:Hc.
    + destruct (Ha c' Hc) as (d & Hd). rewrite Hd.
      destruct (IH (with_balance c' d w) Hl) as (b & Hrun & Hb).
      exists b. split; [exact Hrun |].
      intros c. rewrite Hb, refreshed_cons.
      cbn [with_balance engine set_balances fiat_currency balances]. f_equal.
      rewrite balance_of_set_balance, Hc.
      destruct (decide (c = c')) as [->|Hne].
      * rewrite decide_True by reflexivity. now rewrite Hd.
      * rewrite decide_False by congruence. reflexivity.
    + destruct (IH w Hl) as (b & Hrun & Hb).
      exists b. split; [exact Hrun |].
      intros c. rewrite Hb, refreshed_cons, Hc.
      now rewrite decide_False by discriminate.
Qed.

Lemma marking_step_refl w : marking_step w w.
Proof. unfold marking_step. tauto. Qed.

Lemma marking_step_trans w1 w2 w3 :
  marking_step w1 w2 -> marking_step w2 w3 -> marking_step w1 w3.
Proof. unfold marking_step. intuition congruence. Qed.

Ltac marking_code :=
  repeat first
    [ respects_step
    | exact marking_step_refl
    | exact marking_step_trans
    | unfold marking_step; cbn; rewrite ?app_nil_r; tauto ].

Lemma marking_mark_products E l :
  forall j, respects marking_step (mark_products E j l).
Proof.
  pose proof marking_step_refl. pose proof marking_step_trans.
  induction l as [|p l IH]; intros j; cbn.
  - marking_code.
  - apply respects_bind; [assumption.. | | intros; apply IH].
    unfold mark_product, base_currency_no_update. marking_code.
Qed.

Lemma marking_revalue E : respects marking_step (revalue E).
Proof.
  pose proof marking_step_refl. pose proof marking_step_trans.
  unfold revalue.
  repeat first [ apply marking_mark_products | respects_step
               | unfold marking_step; cbn; rewrite ?app_nil_r; tauto ].
Qed.

Lemma revalue_unset E w r w' :
  fiat (balances (engine w)) = None ->
  revalue E w = (r, w') -> exists ex, r = Raise ex.
Proof.
  intros Hf H. unfold revalue in H.
  unfold bind at 1 in H. cbn [modify_engine] in H. run_in H.
  match type of H with
  | bind (mark_products E 0 ?l) _ ?w1 = _ =>
      destruct (mark_products E 0 l w1) as [r1 w2] eqn:Hm;
      pose proof (marking_mark_products E l 0 _ _ _ Hm) as (Hb & _);
      pose proof (total_mark_products E l 0 w1) as Htot;
      rewrite Hm in Htot; unfold bind at 1 in H; rewrite Hm in H
  end.
  destruct r1 as [[]|ex|]; [| inversion H; eauto | now contradiction Htot].
  run_in H. unfold read_balance in H. run_in H.
  cbn [balance_of] in H. rewrite Hb in H. cbn in H. rewrite Hf in H.
  inversion H. eauto.
Qed.

(** The course of a refresh that is due, by the answer of [get_accounts]. *)
Lemma update_amounts_due E w :
  refresh_due E w ->
  update_amounts E w
  = match accounts_answer E w with
    | Exc ex => (Ok tt, zeroed_world ex (stamped E w))
    | Ret NotAList => revalue E (stamped E w)
    | Ret (AccountList l) =>
        match store_accounts l (stamped E w) with
        | (Ok _, w2) => revalue E w2
        | (Raise ex, w2) => (Ok tt, zeroed_world ex w2)
        | (OutOfFuel, w2) => (OutOfFuel, w2)
        end
    end.
Proof.
  unfold refresh_due, accounts_answer. intros Hdue.
  unfold update_amounts. run. cbn [engine after_env].
  destruct (Z.ltb_spec one_second
              (time_time E (tick w) - last_balance_update (engine w)));
    [| lia].
  unfold bind at 1. unfold try_except. run.
  unfold bind at 1. unfold modify_engine at 1.
  cbn [engine tick trace after_env].
  rewrite bind_call_env. cbn [tick]. rewrite !app_nil_r.
  fold (stamped E w).
  destruct (api_get_accounts E (S (S (tick w)))) as [[l|]|ex].
  - unfold after_env. cbn [engine tick trace]. fold (stamped E w).
    unfold bind at 1.
    destruct (store_accounts l (stamped E w)) as [[[]|ex|] w2]; reflexivity.
  - reflexivity.
  - reflexivity.
Qed.

Lemma events_since_stamped E w ex w2 :
  trace w2 = trace (stamped E w) ->
  events_since w (zeroed_world ex w2) = [GetAccounts; ErrorLogged ex].
Proof.
  intros Ht. unfold events_since. cbn. rewrite Ht. cbn.
  rewrite <- app_assoc. apply drop_app_length.
Qed.

(** X3: within one second of the last refresh [update_amounts] asks the
    exchange nothing and changes nothing, and the balance that
    [get_base_currency_from_product_id] or
    [get_quoted_currency_from_product_id] returns is the stored one. *)
Theorem balances_cached_for_a_second E w :
  time_time E (tick w) - last_balance_update (engine w) <= one_second ->
  update_amounts E w = (Ok tt, mkWorld (engine w) (S (tick w)) (trace w))
  /\ forall pid,
       get_base_currency_from_product_id E pid w
       = read_currency (base_currency pid)
           (mkWorld (engine w) (S (tick w)) (trace w))
       /\ get_quoted_currency_from_product_id E pid w
          = read_currency (quoted_currency pid)
              (mkWorld (engine w) (S (tick w)) (trace w)).
Proof.
  intros Hfresh.
  assert (Hu : update_amounts E w
               = (Ok tt, mkWorld (engine w) (S (tick w)) (trace w))).
  { unfold update_amounts. run.
    cbn [engine after_env].
    destruct (Z.ltb_spec one_second
                (time_time E (tick w) - last_balance_update (engine w)));
      [lia |].
    unfold ret, after_env. now rewrite app_nil_r. }
  split; [exact Hu |].
  intros pid. unfold get_base_currency_from_product_id,
    get_quoted_currency_from_product_id.
  split; unfold bind; now rewrite Hu.
Qed.

(** X4: when a refresh is due and [get_accounts] raises, [update_amounts]
    does not raise: it logs the error, sets the five balances and the
    valuation to 0.0 and returns.  The refresh has been stamped before the
    call, so the zeros stay for a second; the products are untouched. *)
Theorem failed_refresh_zeroes_balances E w ex :
  refresh_due E w ->
  accounts_answer E w = Exc ex ->
  exists w',
    update_amounts E w = (Ok tt, w')
    /\ balances (engine w') = zeroed
    /\ fiat_equivalent (engine w') = D 0 (-1)
    /\ last_balance_update (engine w') = time_time E (S (tick w))
    /\ products (engine w') = products (engine w)
    /\ events_since w w' = [GetAccounts; ErrorLogged ex].
Proof.
  intros Hdue Hans. rewrite (update_amounts_due _ _ Hdue), Hans.
  eexists. split; [reflexivity |].
  split; [reflexivity |]. split; [reflexivity |]. split; [reflexivity |].
  split; [reflexivity |].
  exact (events_since_stamped E w ex (stamped E w) eq_refl).
Qed.

(** X5: when the answer of [get_accounts] holds an account of a currency
    that the engine stores and that account has no amount, the refresh ends
    as if the exchange had failed: every balance is 0.0, those of the
    accounts that came before it in the answer too, and the error is
    logged. *)
Theorem unreadable_account_zeroes_balances E w l a c :
  refresh_due E w ->
  accounts_answer E w = Ret (AccountList l) ->
  In a l ->
  account_currency (fiat_currency (engine w)) a = Some c ->
  available a = None ->
  exists ex w',
    update_amounts E w = (Ok tt, w')
    /\ balances (engine w') = zeroed
    /\ fiat_equivalent (engine w') = D 0 (-1)
    /\ last_balance_update (engine w') = time_time E (S (tick w))
    /\ products (engine w') = products (engine w)
    /\ events_since w w' = [GetAccounts; ErrorLogged ex].
Proof.
  intros Hdue Hans Hin Hc Hav.
  rewrite (update_amounts_due _ _ Hdue), Hans.
  destruct (store_accounts_unreadable l a c Hin Hav (stamped E w) Hc)
    as (ex & w2 & Hrun & Htr & Hps & Hlast).
  rewrite Hrun. exists ex. eexists. split; [reflexivity |].
  cbn [zeroed_world engine balances fiat_equivalent last_balance_update
       products set_fiat_equivalent set_balances].
  split; [reflexivity |]. split; [reflexivity |].
  split; [exact Hlast |]. split; [exact Hps |].
  exact (events_since_stamped E w ex w2 Htr).
Qed.

(** X6: when every account of the answer that the engine stores has an
    amount that rounds, each balance after the refresh is the rounded
    amount of the last account of its currency in the answer (coins to 8
    places, the fiat currency to 2), and a balance with no account in the
    answer keeps its value; this holds whether or not the valuation that
    follows raises. *)
Theorem last_account_of_a_currency_wins E w l r w' :
  refresh_due E w ->
  accounts_answer E w = Ret (AccountList l) ->
  Forall (readable (fiat_currency (engine w))) l ->
  update_amounts E w = (r, w') ->
  forall c,
    balance_of c (balances (engine w'))
    = refreshed (fiat_currency (engine w)) l c
        (balance_of c (balances (engine w))).
Proof.
  intros Hdue Hans Hall H c.
  rewrite (update_amounts_due _ _ Hdue), Hans in H.
  destruct (store_accounts_readable l (stamped E w) Hall) as (b & Hrun & Hb).
  rewrite Hrun in H.
  apply marking_revalue in H as (Hbal & _).
  rewrite Hbal. cbn. apply Hb.
Qed.

(** X7: when [get_accounts] answers something that is not a list, the
    refresh is stamped, nothing is logged and the balances stay as they
    were; if the fiat balance has never been assigned, as in the first call
    from the constructor, the statements after the [try] block raise and
    [update_amounts] raises with them. *)
Theorem answer_that_is_no_list E w r w' :
  refresh_due E w ->
  accounts_answer E w = Ret NotAList ->
  update_amounts E w = (r, w') ->
  balances (engine w') = balances (engine w)
  /\ last_balance_update (engine w') = time_time E (S (tick w))
  /\ events_since w w' = [GetAccounts]
  /\ (fiat (balances (engine w)) = None -> exists ex, r = Raise ex).
Proof.
  intros Hdue Hans H.
  rewrite (update_amounts_due _ _ Hdue), Hans in H.
  pose proof (marking_revalue E _ _ _ H) as (Hbal & _ & Hlast & Htr).
  split; [exact Hbal |]. split; [exact Hlast |].
  split; [apply events_since_app; exact Htr |].
  intros Hf. eapply revalue_unset; [| exact H]. exact Hf.
Qed.

(** ** Rounding, whatever the sign *)

Lemma magnitude_neg x : Dec.magnitude (Dec.neg x) = Dec.magnitude x.
Proof. unfold Dec.magnitude, Dec.neg. cbn. apply Z.abs_opp. Qed.

Lemma neg_neg x : Dec.neg (Dec.neg x) = x.
Proof. destruct x as [c e]. unfold Dec.neg. cbn. f_equal. lia. Qed.

Lemma rescale_neg x e m :
  Dec.rescale (Dec.neg x) e m = Dec.neg (Dec.rescale x e m).
Proof.
  unfold Dec.rescale. rewrite magnitude_neg.
  cbn [Dec.neg Dec.coeff Dec.exp].
  destruct (Z.eqb_spec (Dec.coeff x) 0) as [H0|Hne].
  - rewrite H0. reflexivity.
  - destruct (Z.eqb_spec (- Dec.coeff x) 0); [lia |].
    destruct (e <=? Dec.exp x).
    + unfold Dec.neg. cbn. f_equal. lia.
    + destruct (_ <? 0); cbn zeta;
        match goal with
        | |- context [if ?b then _ else _] => destruct b
        end; unfold Dec.neg; cbn [Dec.coeff Dec.exp]; f_equal;
        rewrite Z.sgn_opp; lia.
Qed.

Lemma fix_neg d : Dec.fix_ (Dec.neg d) = resp_map Dec.neg (Dec.fix_ d).
Proof.
  unfold Dec.fix_. rewrite magnitude_neg.
  cbn [Dec.neg Dec.coeff Dec.exp].
  destruct (Z.eqb_spec (Dec.coeff d) 0) as [H0|Hne].
  - rewrite H0. reflexivity.
  - destruct (Z.eqb_spec (- Dec.coeff d) 0); [lia |].
    repeat match goal with
           | |- context [if ?b then _ else _] => destruct b; cbn zeta
           end; try reflexivity;
      cbn [resp_map]; unfold Dec.neg; cbn [Dec.coeff Dec.exp];
      rewrite ?Z.sgn_opp; repeat f_equal; lia.
Qed.

Lemma quantize_neg x e m :
  Dec.quantize (Dec.neg x) e m = resp_map Dec.neg (Dec.quantize x e m).
Proof.
  unfold Dec.quantize, Dec.adjusted.
  rewrite rescale_neg, !magnitude_neg.
  cbn [Dec.neg Dec.coeff Dec.exp].
  destruct (negb _); [reflexivity |].
  destruct (Z.eqb_spec (Dec.coeff x) 0) as [H0|Hne].
  - rewrite H0. cbn [Z.opp Z.eqb].
    change (Dec.mk 0 (Dec.exp e)) with (Dec.neg (Dec.mk 0 (Dec.exp e))) at 1.
    apply fix_neg.
  - destruct (Z.eqb_spec (- Dec.coeff x) 0); [lia |].
    repeat match goal with
           | |- context [if ?b then _ else _] => destruct b
           end; try reflexivity.
    apply fix_neg.
Qed.

Lemma quantize_down_returns x k r :
  0 <= Dec.coeff x -> 0 < k <= 28 ->
  Dec.quantize x (Dec.mk 1 (- k)) Dec.ROUND_DOWN = Ret r ->
  r = Dec.mk (truncated x k) (- k)
  /\ 0 <= truncated x k
  /\ Dec.ndigits (truncated x k) <= 28.
Proof.
  intros Hc Hk H.
  pose proof (truncated_nonneg x k Hc) as Hn.
  destruct (Z.eq_dec (Dec.coeff x) 0) as [H0|Hne].
  - rewrite quantize_down_fits in H by (try lia; now left).
    inversion H; subst. split; [reflexivity |]. split; [exact Hn |].
    replace (truncated x k) with 0; [rewrite ndigits_zero; lia |].
    unfold truncated. rewrite H0. destruct (_ <=? _); [lia |].
    symmetry. apply Zdiv_0_l.
  - destruct (Z_le_gt_dec (Dec.ndigits (Dec.coeff x) + Dec.exp x + k) 28)
      as [Hfit|Hbig].
    + rewrite quantize_down_fits in H by (try lia; now right).
      inversion H; subst. split; [reflexivity |]. split; [exact Hn |].
      pose proof (truncated_digits x k ltac:(lia)). lia.
    + rewrite quantize_down_overflows in H by lia. discriminate.
Qed.

Lemma unsigned_nonneg x : 0 <= Dec.coeff x -> unsigned x = x.
Proof.
  intros H. destruct x as [c e]. unfold unsigned, Dec.magnitude. cbn in *.
  now rewrite Z.abs_eq.
Qed.

Lemma unsigned_neg x : unsigned (Dec.neg x) = unsigned x.
Proof. unfold unsigned. now rewrite magnitude_neg. Qed.

(** What [quantize] with ROUND_DOWN returns, for either sign. *)
Lemma quantize_down_signed x k r :
  0 < k <= 28 ->
  Dec.quantize x (Dec.mk 1 (- k)) Dec.ROUND_DOWN = Ret r ->
  r = Dec.mk (Z.sgn (Dec.coeff x) * truncated (unsigned x) k) (- k)
  /\ Dec.quantize (unsigned x) (Dec.mk 1 (- k)) Dec.ROUND_DOWN
     = Ret (unsigned r)
  /\ 0 <= truncated (unsigned x) k
  /\ Dec.ndigits (truncated (unsigned x) k) <= 28.
Proof.
  intros Hk H.
  destruct (Z_le_gt_dec 0 (Dec.coeff x)) as [Hc|Hc].
  - rewrite (unsigned_nonneg x Hc).
    destruct (quantize_down_returns x k r Hc Hk H) as (-> & Hn & Hd).
    rewrite (unsigned_nonneg (Dec.mk (truncated x k) (- k)) Hn).
    split; [| auto].
    f_equal. destruct (Z.eq_dec (Dec.coeff x) 0) as [H0|Hne].
    + rewrite H0. cbn. unfold truncated. rewrite H0.
      destruct (_ <=? _); [lia | apply Zdiv_0_l].
    + rewrite Z.sgn_pos by lia. lia.
  - assert (Hx : x = Dec.neg (Dec.neg x)) by now rewrite neg_neg.
    assert (Hpos : 0 <= Dec.coeff (Dec.neg x)) by (cbn; lia).
    rewrite Hx, quantize_neg in H.
    destruct (Dec.quantize (Dec.neg x) _ _) as [r'|] eqn:Hq; [| discriminate].
    cbn [resp_map] in H. inversion H; subst r. clear H.
    destruct (quantize_down_returns _ k r' Hpos Hk Hq) as (-> & Hn & Hd).
    rewrite <- (unsigned_neg x), (unsigned_nonneg _ Hpos).
    rewrite unsigned_neg,
      (unsigned_nonneg (Dec.mk (truncated (Dec.neg x) k) (- k)) Hn).
    split; [| auto].
    unfold Dec.neg at 1. cbn [Dec.coeff Dec.exp]. f_equal.
    rewrite Z.sgn_neg by lia. lia.
Qed.

Lemma truncation_of_returned x k P r :
  0 < k <= 28 -> Z.pos P = 10 ^ k ->
  0 <= Dec.coeff x ->
  Dec.quantize x (Dec.mk 1 (- k)) Dec.ROUND_DOWN = Ret r ->
  truncation_of x r k P.
Proof.
  intros Hk HP Hc H.
  destruct (quantize_down_spec x k P Hc Hk HP) as [Hfit Hbig].
  destruct (Qlt_le_dec (Dec.value x) (inject_Z (10 ^ (28 - k)))) as [Hlt|Hge].
  - destruct (Hfit Hlt) as (r' & Hr' & Ht). congruence.
  - rewrite (Hbig Hge) in H. discriminate.
Qed.

Lemma quantize_down_toward_zero x k P r :
  0 < k <= 28 -> Z.pos P = 10 ^ k ->
  Dec.quantize x (Dec.mk 1 (- k)) Dec.ROUND_DOWN = Ret r ->
  toward_zero x r k P.
Proof.
  intros Hk HP H.
  destruct (quantize_down_signed x k r Hk H) as (Hr & Hu & Hn & _).
  split.
  - apply truncation_of_returned; [exact Hk | exact HP | | exact Hu].
    unfold unsigned, Dec.magnitude. cbn. lia.
  - subst r. unfold Dec.magnitude. cbn [Dec.coeff].
    destruct (Z.sgn_spec (Dec.coeff x)) as [[_ ->]|[[_ ->]|[_ ->]]]; lia.
Qed.

Lemma quantize_down_idempotent x k r :
  0 < k <= 28 ->
  Dec.quantize x (Dec.mk 1 (- k)) Dec.ROUND_DOWN = Ret r ->
  Dec.quantize r (Dec.mk 1 (- k)) Dec.ROUND_DOWN = Ret r.
Proof.
  intros Hk H.
  destruct (quantize_down_signed x k r Hk H) as (Hr & _ & Hn & Hd).
  set (t := truncated (unsigned x) k) in *.
  assert (Hpos : forall c, 0 <= c -> Dec.ndigits c <= 28 ->
            Dec.quantize (Dec.mk c (- k)) (Dec.mk 1 (- k)) Dec.ROUND_DOWN
            = Ret (Dec.mk c (- k))).
  { intros c Hc Hdc. rewrite quantize_down_fits; cbn [Dec.coeff Dec.exp];
      [| exact Hc | lia | right; lia].
    f_equal. unfold truncated. cbn [Dec.coeff Dec.exp].
    destruct (Z.leb_spec (- k) (- k)); [| lia].
    rewrite Z.add_opp_diag_l. cbn. f_equal. lia. }
  subst r.
  destruct (Z.sgn_spec (Dec.coeff x)) as [[_ ->]|[[_ ->]|[_ ->]]].
  - rewrite Z.mul_1_l. now apply Hpos.
  - rewrite Z.mul_0_l. apply Hpos; [lia | now rewrite ndigits_zero].
  - replace (- (1) * t) with (- t) by lia.
    change (Dec.mk (- t) (- k)) with (Dec.neg (Dec.mk t (- k))).
    rewrite quantize_neg, Hpos by assumption. reflexivity.
Qed.

(** X8: rounding is toward zero for either sign.  Whenever [round_fiat] or
    [round_coin] returns for a finite decimal, the result has the exponent
    -2 resp. -8, its magnitude is the magnitude of the input truncated to
    that many places, and a result that is not zero has the sign of the
    input (so -10.129 gives -10.12, not -10.13).  Of a result that is zero
    the statement fixes the value only: the decimals of this embedding have
    no signed zero, where Python rounds -0.001 to -0.00; nor have they a
    NaN, which [quantize] returns unchanged. *)
Theorem rounding_is_toward_zero x r :
  (round_fiat (Some x) = Ret r -> toward_zero x r 2 100)
  /\ (round_coin (Some x) = Ret r -> toward_zero x r 8 100000000).
Proof.
  split; intros H; cbn in H; eapply quantize_down_toward_zero;
    try exact H; try lia; reflexivity.
Qed.

(** X9: [round_fiat] and [round_coin] are idempotent: a value that one of
    them has returned is returned unchanged, and not refused, when it is
    rounded again. *)
Theorem rounding_is_idempotent x r :
  (round_fiat (Some x) = Ret r -> round_fiat (Some r) = Ret r)
  /\ (round_coin (Some x) = Ret r -> round_coin (Some r) = Ret r).
Proof.
  split; intros H; cbn in *.
  - apply (quantize_down_idempotent x 2 r); [lia | exact H].
  - apply (quantize_down_idempotent x 8 r); [lia | exact H].
Qed.

(** ** Placing an order *)

Lemma balance_after_env_nil w w1 :
  balance_step w w1 -> balance_step w (after_env [] w1).
Proof.
  intros H. eapply balance_step_trans; [exact H |].
  unfold balance_step. cbn. repeat split; try reflexivity.
  exists []. split; [reflexivity | constructor].
Qed.

Lemma placed_failed side i p w e w1 :
  balance_step w w1 -> placed side i p w (Raise e) w1.
Proof.
  intros H. left. split; [now apply balance_step_events |].
  split; [apply H | eauto].
Qed.

Lemma placed_done side i p w w1 :
  balance_step w w1 -> placed side i p w (Ok done_order) w1.
Proof.
  intros H. left. split; [now apply balance_step_events |].
  split; [apply H | eauto].
Qed.

(** The last statements of [place_buy] and [place_sell]. *)
Lemma placed_order E side i p size price w w1 r w' :
  products (engine w) !! i = Some p ->
  balance_step w w1 ->
  Dec.ge size (min_size p) = true ->
  bind (call_env [PlaceLimitOrder (product_id p) side size price true]
          (fun t => api_place_limit_order E t (product_id p) side size price true))
    (fun r => bind (remember_order i r) (fun _ => ret r)) w1 = (r, w') ->
  placed side i p w r w'.
Proof.
  intros Hp Hs Hge H. right.
  destruct Hs as (Hps & _ & _ & _ & evs & Ht & Hq).
  exists evs, size, price.
  rewrite bind_call_env in H.
  assert (Hp1 : products (engine w1) !! i = Some p) by now rewrite Hps.
  destruct (api_place_limit_order E (tick w1) _ _ _ _ _) as [o|e].
  - unfold remember_order in H. fold (resting o) in H.
    destruct (resting o) eqn:Hrest.
    + run_in H. inversion H; subst. cbn. rewrite Hrest.
      split; [| split; [exact Hq | split; [exact Hge | now rewrite Hps]]].
      unfold events_since. cbn. rewrite Ht, <- app_assoc. apply drop_app_length.
    + run_in H. inversion H; subst. cbn. rewrite Hrest.
      split; [| split; [exact Hq | split; [exact Hge | now rewrite Hps]]].
      unfold events_since. cbn. rewrite Ht, <- app_assoc. apply drop_app_length.
  - inversion H; subst. cbn.
    split; [| split; [exact Hq | split; [exact Hge | exact Hps]]].
    unfold events_since. cbn. rewrite Ht, <- app_assoc. apply drop_app_length.
Qed.

(** Run the next statement of the code in [H], from the world that [Hs]
    relates to the first one. *)
Ltac advance H Hs :=
  match type of H with
  | bind (lift (Ret _)) _ _ = _ => rewrite bind_lift in H
  | bind (lift ?x) _ _ = _ =>
      rewrite bind_lift in H;
      destruct x eqn:?;
      [| inversion H; subst; now apply placed_failed]
  | bind (call_env [] ?f) _ ?w1 = _ =>
      rewrite bind_call_env in H;
      apply balance_after_env_nil in Hs;
      destruct (f (tick w1)) eqn:?;
      [| inversion H; subst; now apply placed_failed]
  | bind (ret _) _ _ = _ => rewrite bind_ret in H
  | bind (bind _ _) _ _ = _ => rewrite bind_assoc in H
  | bind (if ?b then _ else _) _ _ = _ => destruct b eqn:?
  | (if ?b then _ else _) _ = _ => destruct b eqn:?
  | ret _ _ = _ => inversion H; subst; now apply placed_done
  end.

(** The same for a statement that refreshes the balances. *)
Ltac advance_balance H Hs :=
  match type of H with
  | bind ?c _ ?w1 = _ =>
      let r1 := fresh "r" in
      let w2 := fresh "w" in
      let H1 := fresh "H" in
      let Hs' := fresh "Hs" in
      let Ht := fresh "Ht" in
      destruct (c w1) as [r1 w2] eqn:H1;
      unfold bind at 1 in H; rewrite H1 in H;
      lazymatch c with
      | get_quoted_currency_from_product_id ?E ?pid =>
          pose proof (balance_step_trans _ _ _ Hs
            (balance_get_quoted_currency_from_product_id E pid _ _ _ H1)) as Hs';
          pose proof (total_get_quoted_currency_from_product_id E pid w1) as Ht
      | get_base_currency_from_product_id ?E ?pid =>
          pose proof (balance_step_trans _ _ _ Hs
            (balance_get_base_currency_from_product_id E pid _ _ _ H1)) as Hs';
          pose proof (total_get_base_currency_from_product_id E pid w1) as Ht
      end;
      rewrite H1 in Ht; clear Hs; rename Hs' into Hs;
      destruct r1;
      [ clear Ht H1
      | inversion H; subst; now apply placed_failed
      | now contradiction Ht ]
  end.

Lemma ge_not_lt x y : Dec.ge x y = negb (Dec.lt x y).
Proof. unfold Dec.ge, Dec.lt. now destruct (Dec.cmp x y). Qed.

Lemma events_since_after_env w w1 evs :
  (exists evs1, trace w1 = trace w ++ evs1) ->
  events_since w (after_env evs w1) = events_since w w1 ++ evs.
Proof.
  intros [evs1 Ht]. rewrite (events_since_app _ _ _ Ht).
  apply events_since_app. cbn. rewrite Ht. now rewrite app_assoc.
Qed.

(** The last statements of [place_buy] and [place_sell], from the world
    [w1] in which the exchange is asked. *)
Lemma ordered_run E side i p size price w w1 r w' :
  products (engine w1) !! i = Some p ->
  (exists evs1, trace w1 = trace w ++ evs1) ->
  bind (call_env [PlaceLimitOrder (product_id p) side size price true]
          (fun t => api_place_limit_order E t (product_id p) side size price true))
    (fun r => bind (remember_order i r) (fun _ => ret r)) w1 = (r, w') ->
  ordered E side p size price w w1 r w'.
Proof.
  intros Hp Ht H. unfold ordered, answered.
  rewrite bind_call_env in H.
  destruct (api_place_limit_order E (tick w1) _ _ _ _ _) as [o|e].
  - assert (Hp' : products (engine (after_env
             [PlaceLimitOrder (product_id p) side size price true] w1)) !! i
            = Some p) by exact Hp.
    destruct (remember_order_run i p o _ Hp') as (w2 & Hrun & Htr).
    unfold bind at 1 in H. rewrite Hrun in H. inversion H; subst.
    split; [| reflexivity].
    destruct Ht as [evs1 Ht]. rewrite (events_since_app _ _ _ Ht).
    apply events_since_app. rewrite Htr. cbn. rewrite Ht.
    now rewrite app_assoc.
  - inversion H; subst. split; [| reflexivity].
    now apply events_since_after_env.
Qed.

Lemma balance_step_after_nil w w1 :
  balance_step w w1 -> exists evs1, trace (after_env [] w1) = trace w ++ evs1.
Proof.
  intros (_ & _ & _ & _ & evs & Ht & _). exists evs. cbn.
  now rewrite app_nil_r.
Qed.

(** X10: a call of [place_buy] places at most one order, as its last call
    to the exchange: a post-only buy limit order for its product of at
    least the minimum size, which it appends to the open orders of the
    product exactly when the exchange answers it pending or open; a call
    that raises before the order has changed nothing in the products.  The
    order is the one that the funds pay for.  The call reads the quote
    balance, takes the part [partial] of it and offers it one quote
    increment under the ask.  If the size of that offer is not under the
    minimum size, the call asks for exactly that size at that price and
    returns what the exchange answers.  If it is, the call reads the
    balance and the ask again and offers the whole balance: it asks for
    that offer when its size reaches the minimum size, and otherwise asks
    for no order and returns [{'status': 'done'}]. *)
Theorem place_buy_outcome E i partial p w r w' :
  products (engine w) !! i = Some p ->
  place_buy E i partial w = (r, w') ->
  placed BuySide i p w r w'
  /\ forall q wq funds ask size price,
       get_quoted_currency_from_product_id E (product_id p) w = (Ok q, wq) ->
       py_mul q partial = Ret funds ->
       book_get_ask E (tick wq) i = Ret ask ->
       buy_offer funds ask (quote_increment p) size price ->
       if Dec.lt size (min_size p) then
         forall q2 wq2 ask2 size2 price2,
           get_quoted_currency_from_product_id E (product_id p)
             (after_env [] wq) = (Ok (Some q2), wq2) ->
           book_get_ask E (tick wq2) i = Ret ask2 ->
           buy_offer q2 ask2 (quote_increment p) size2 price2 ->
           if Dec.ge size2 (min_size p) then
             ordered E BuySide p size2 price2 w (after_env [] wq2) r w'
           else
             r = Ok done_order /\ w' = after_env [] wq2
             /\ Forall quiet (events_since w w')
       else ordered E BuySide p size price w (after_env [] wq) r w'.
Proof.
  intros Hp H. split.
  { unfold place_buy in H. run_in H.
    pose proof (balance_step_refl w) as Hs.
    repeat first [advance H Hs | advance_balance H Hs];
      eapply placed_order; eassumption. }
  intros q wq funds ask size price Hq Hmul Hask (Hprice & quot & Hquot & Hround).
  unfold place_buy in H. run_in H.
  pose proof (balance_get_quoted_currency_from_product_id E _ _ _ _ Hq) as Hs.
  unfold bind at 1 in H. rewrite Hq in H.
  rewrite bind_lift, Hmul in H.
  rewrite bind_call_env, Hask in H.
  rewrite bind_lift, Hprice in H.
  rewrite bind_lift, Hquot in H.
  rewrite bind_lift, Hround in H.
  destruct (Dec.lt size (min_size p)) eqn:Hlt.
  - intros q2 wq2 ask2 size2 price2 Hq2 Hask2 (Hprice2 & quot2 & Hquot2 & Hround2).
    pose proof (balance_get_quoted_currency_from_product_id E _ _ _ _ Hq2) as Hs2.
    run_in H.
    unfold bind at 1 in H. rewrite Hq2 in H.
    run_in H. rewrite bind_call_env, Hask2 in H.
    run_in H. rewrite bind_lift, Hprice2 in H.
    run_in H. rewrite bind_lift in H. cbn [to_Decimal] in H.
    run_in H. rewrite bind_lift, Hquot2 in H.
    run_in H. rewrite bind_lift, Hround2 in H.
    run_in H.
    destruct (Dec.ge size2 (min_size p)) eqn:Hge2.
    + eapply ordered_run; [| | exact H].
      * cbn. destruct Hs2 as (-> & _). cbn. destruct Hs as (-> & _). exact Hp.
      * apply balance_step_after_nil.
        eapply balance_step_trans; [| exact Hs2].
        now apply balance_after_env_nil.
    + inversion H; subst. split; [reflexivity |]. split; [reflexivity |].
      apply balance_step_events, balance_after_env_nil.
      eapply balance_step_trans; [| exact Hs2].
      now apply balance_after_env_nil.
  - run_in H. rewrite (ge_not_lt size), Hlt in H. cbn [negb] in H.
    eapply ordered_run; [| | exact H].
    + cbn. destruct Hs as (-> & _). exact Hp.
    + now apply balance_step_after_nil.
Qed.

(** X11: a call of [place_sell] places at most one order, as its last call
    to the exchange: a post-only sell limit order for its product of at
    least the minimum size, which it appends to the open orders of the
    product exactly when the exchange answers it pending or open; a call
    that raises before the order has changed nothing in the products.  The
    order is for the coins that are held.  The call reads the base balance
    and takes the part [partial] of it, truncated to 8 decimal places.  If
    that size is not under the minimum size, the call asks for exactly that
    size one quote increment above the bid and returns what the exchange
    answers.  If it is, the call reads the base balance again and takes all
    of it, as it is: it asks for that size, one quote increment above the
    bid, when it reaches the minimum size, and otherwise asks for no order
    and returns [{'status': 'done'}]. *)
Theorem place_sell_outcome E i partial p w r w' :
  products (engine w) !! i = Some p ->
  place_sell E i partial w = (r, w') ->
  placed SellSide i p w r w'
  /\ forall b wb coins size,
       get_base_currency_from_product_id E (product_id p) w = (Ok b, wb) ->
       py_mul b partial = Ret coins ->
       round_coin (Some coins) = Ret size ->
       if Dec.lt size (min_size p) then
         forall size2 wb2 bid price,
           get_base_currency_from_product_id E (product_id p) wb
           = (Ok (Some size2), wb2) ->
           book_get_bid E (tick wb2) i = Ret bid ->
           Dec.add bid (quote_increment p) = Ret price ->
           if Dec.ge size2 (min_size p) then
             ordered E SellSide p size2 price w (after_env [] wb2) r w'
           else
             r = Ok done_order /\ w' = after_env [] wb2
             /\ Forall quiet (events_since w w')
       else
         forall bid price,
           book_get_bid E (tick wb) i = Ret bid ->
           Dec.add bid (quote_increment p) = Ret price ->
           ordered E SellSide p size price w (after_env [] wb) r w'.
Proof.
  intros Hp H. split.
  { unfold place_sell in H. run_in H.
    pose proof (balance_step_refl w) as Hs.
    repeat first [advance H Hs | advance_balance H Hs];
      eapply placed_order; eassumption. }
  intros b wb coins size Hb Hmul Hround.
  unfold place_sell in H. run_in H.
  pose proof (balance_get_base_currency_from_product_id E _ _ _ _ Hb) as Hs.
  unfold bind at 1 in H. rewrite Hb in H.
  rewrite bind_lift, Hmul in H.
  rewrite bind_lift, Hround in H.
  destruct (Dec.lt size (min_size p)) eqn:Hlt.
  - intros size2 wb2 bid price Hb2 Hbid Hprice.
    pose proof (balance_get_base_currency_from_product_id E _ _ _ _ Hb2) as Hs2.
    run_in H.
    unfold bind at 1 in H. rewrite Hb2 in H.
    run_in H.
    rewrite bind_call_env, Hbid in H.
    rewrite bind_lift, Hprice in H.
    rewrite bind_lift in H.
    destruct (Dec.ge size2 (min_size p)) eqn:Hge2.
    + eapply ordered_run; [| | exact H].
      * cbn. destruct Hs2 as (-> & _). destruct Hs as (-> & _). exact Hp.
      * apply balance_step_after_nil.
        eapply balance_step_trans; [exact Hs | exact Hs2].
    + inversion H; subst. split; [reflexivity |]. split; [reflexivity |].
      apply balance_step_events, balance_after_env_nil.
      eapply balance_step_trans; [exact Hs | exact Hs2].
  - intros bid price Hbid Hprice.
    run_in H.
    rewrite bind_call_env, Hbid in H.
    rewrite bind_lift, Hprice in H.
    rewrite bind_lift in H.
    rewrite (ge_not_lt size), Hlt in H. cbn [negb] in H.
    eapply ordered_run; [| | exact H].
    + cbn. destruct Hs as (-> & _). exact Hp.
    + now apply balance_step_after_nil.
Qed.

(** ** What a chase asks of the exchange *)

Section Keeps.

Variable I : World -> Prop.
Variable ok : Event -> Prop.

Lemma keeps_here {A} (c : M A) :
  (forall w, exists r, c w = (r, w)) -> keeps I ok c.
Proof.
  intros Hc w r w' HI H. destruct (Hc w) as [r0 H0].
  rewrite H0 in H. inversion H; subst. split; [exact HI |].
  exists []. split; [now rewrite app_nil_r | constructor].
Qed.

Lemma keeps_ret {A} (a : A) : keeps I ok (ret a).
Proof. apply keeps_here. intros w. now eexists. Qed.

Lemma keeps_raise {A} (e : exn) : keeps I ok (@raise A e).
Proof. apply keeps_here. intros w. now eexists. Qed.

Lemma keeps_out_of_fuel {A} : keeps I ok (@out_of_fuel A).
Proof. apply keeps_here. intros w. now eexists. Qed.

Lemma keeps_lift {A} (x : resp A) : keeps I ok (lift x).
Proof. destruct x; [apply keeps_ret | apply keeps_raise]. Qed.

Lemma keeps_get_engine : keeps I ok get_engine.
Proof. apply keeps_here. intros w. now eexists. Qed.

Lemma keeps_get_product i : keeps I ok (get_product i).
Proof.
  apply keeps_here. intros w. unfold get_product, bind, get_engine.
  destruct (_ !! _); now eexists.
Qed.

Lemma keeps_bind {A B} (c : M A) (k : A -> M B) :
  keeps I ok c -> (forall a, keeps I ok (k a)) -> keeps I ok (bind c k).
Proof.
  intros Hc Hk w r w' HI H.
  apply bind_inv in H as [(a & w1 & H1 & H2) | [(e & H1 & _) | (H1 & _)]].
  - destruct (Hc _ _ _ HI H1) as (HI1 & evs1 & Ht1 & Hok1).
    destruct (Hk a _ _ _ HI1 H2) as (HI2 & evs2 & Ht2 & Hok2).
    split; [exact HI2 |]. exists (evs1 ++ evs2). split.
    + rewrite Ht2, Ht1. now rewrite app_assoc.
    + apply Forall_app. now split.
  - eapply Hc; eassumption.
  - eapply Hc; eassumption.
Qed.

Lemma keeps_try_except {A} (body : M A) (h : exn -> M A) :
  keeps I ok body -> (forall e, keeps I ok (h e)) ->
  keeps I ok (try_except body h).
Proof.
  intros Hb Hh w r w' HI H.
  apply try_except_inv in H as [(e & w1 & H1 & H2) | [H1 _]].
  - destruct (Hb _ _ _ HI H1) as (HI1 & evs1 & Ht1 & Hok1).
    destruct (Hh e _ _ _ HI1 H2) as (HI2 & evs2 & Ht2 & Hok2).
    split; [exact HI2 |]. exists (evs1 ++ evs2). split.
    + rewrite Ht2, Ht1. now rewrite app_assoc.
    + apply Forall_app. now split.
  - eapply Hb; eassumption.
Qed.

Lemma keeps_ask_env {A} evs (f : nat -> A) :
  (forall w, I w -> I (after_env evs w)) -> Forall ok evs ->
  keeps I ok (ask_env evs f).
Proof.
  intros HI Hok w r w' Hw H. inversion H; subst.
  split; [exact (HI w Hw) |]. now exists evs.
Qed.

Lemma keeps_call_env {A} evs (f : nat -> resp A) :
  (forall w, I w -> I (after_env evs w)) -> Forall ok evs ->
  keeps I ok (call_env evs f).
Proof.
  intros HI Hok. apply keeps_bind; [now apply keeps_ask_env |].
  intros x. apply keeps_lift.
Qed.

Lemma keeps_log_error e :
  (forall w,
     I w -> I (mkWorld (engine w) (tick w) (trace w ++ [ErrorLogged e]))) ->
  ok (ErrorLogged e) ->
  keeps I ok (log_error e).
Proof.
  intros HI Hok w r w' Hw H. inversion H; subst.
  split; [exact (HI w Hw) |]. exists [ErrorLogged e]. split; [reflexivity |].
  now repeat constructor.
Qed.

Lemma keeps_balance_step {A} (c : M A) :
  respects balance_step c ->
  (forall w w', balance_step w w' -> I w -> I w') ->
  (forall ev, quiet ev -> ok ev) ->
  keeps I ok c.
Proof.
  intros Hc HI Hok w r w' Hw H.
  pose proof (Hc _ _ _ H) as Hstep.
  split; [exact (HI _ _ Hstep Hw) |].
  destruct Hstep as (_ & _ & _ & _ & evs & Ht & Hq).
  exists evs. split; [exact Ht |].
  eapply Forall_impl; [exact Hq | exact Hok].
Qed.

End Keeps.

Section Discipline.

Variable i : nat.
Variable pid : string.
Variable m : Decimal.
Variable side : Side.

Lemma trades_balance_step w w' :
  balance_step w w' -> trades i pid m w -> trades i pid m w'.
Proof.
  intros (Hps & _) (p & Hp & H). exists p. now rewrite Hps.
Qed.

Lemma quiet_chase_event ev : quiet ev -> chase_event pid m side ev.
Proof. destruct ev; cbn; tauto. Qed.

(** Reading the product of the chase gives its id and its minimum size. *)
Lemma keeps_bind_get_product {B} (k : Product -> M B) :
  (forall p,
     product_id p = pid -> min_size p = m ->
     keeps (trades i pid m) (chase_event pid m side) (k p)) ->
  keeps (trades i pid m) (chase_event pid m side) (bind (get_product i) k).
Proof.
  intros Hk w r w' HI H.
  destruct HI as (p & Hp & Hid & Hm).
  rewrite (bind_get_product _ _ _ _ Hp) in H.
  eapply (Hk p Hid Hm); [| exact H]. now exists p.
Qed.

Lemma keeps_modify_product j f :
  (forall p, product_id (f p) = product_id p /\ min_size (f p) = min_size p) ->
  keeps (trades i pid m) (chase_event pid m side) (modify_product j f).
Proof.
  intros Hf w r w' HI H.
  destruct (products (engine w) !! j) as [q|] eqn:Hq.
  - rewrite (modify_product_run _ _ _ _ Hq) in H. inversion H; subst.
    split; [| exists []; cbn; split; [now rewrite app_nil_r | constructor]].
    destruct HI as (p & Hp & Hid & Hm).
    destruct (Nat.eq_dec j i) as [->|Hne].
    + exists (f q). rewrite (with_product_lookup _ _ _ _ Hq).
      split; [reflexivity |]. destruct (Hf q) as [-> ->]. split; congruence.
    + exists p. rewrite with_product_lookup_ne by exact Hne. auto.
  - unfold modify_product, bind in H.
    rewrite (get_product_fail _ _ Hq) in H. inversion H; subst.
    split; [exact HI |]. exists []. split; [now rewrite app_nil_r | constructor].
Qed.

Lemma keeps_sleep E :
  keeps (trades i pid m) (chase_event pid m side) (sleep E).
Proof.
  intros w r w' (p & Hp & Hid & Hm) H. unfold sleep in H. inversion H; subst.
  split.
  - eexists. cbn. rewrite list_lookup_imap, Hp. cbn. split; [reflexivity |].
    now split.
  - exists []. cbn. split; [now rewrite app_nil_r | constructor].
Qed.

Lemma keeps_get_quoted E pid' :
  keeps (trades i pid m) (chase_event pid m side)
    (get_quoted_currency_from_product_id E pid').
Proof.
  apply keeps_balance_step;
    [ apply balance_get_quoted_currency_from_product_id
    | apply trades_balance_step | apply quiet_chase_event ].
Qed.

Lemma keeps_get_base E pid' :
  keeps (trades i pid m) (chase_event pid m side)
    (get_base_currency_from_product_id E pid').
Proof.
  apply keeps_balance_step;
    [ apply balance_get_base_currency_from_product_id
    | apply trades_balance_step | apply quiet_chase_event ].
Qed.

End Discipline.

Ltac ok_event :=
  repeat constructor; cbn; repeat split; try reflexivity;
  try congruence; try tauto.

(** A tactic that follows the structure of the code of a chase. *)
Ltac keeps_step :=
  match goal with
  | |- keeps _ _ (bind (get_product ?i) _) =>
      apply keeps_bind_get_product; intros ? ? ?
  | |- keeps _ _ (bind _ _) => apply keeps_bind; [| intros]
  | |- keeps _ _ (try_except _ _) => apply keeps_try_except; [| intros]
  | |- keeps _ _ (ret _) => apply keeps_ret
  | |- keeps _ _ (raise _) => apply keeps_raise
  | |- keeps _ _ out_of_fuel => apply keeps_out_of_fuel
  | |- keeps _ _ (lift _) => apply keeps_lift
  | |- keeps _ _ get_engine => apply keeps_get_engine
  | |- keeps _ _ (get_product _) => apply keeps_get_product
  | |- keeps _ _ (get_quoted_currency_from_product_id _ _) =>
      apply keeps_get_quoted
  | |- keeps _ _ (get_base_currency_from_product_id _ _) =>
      apply keeps_get_base
  | |- keeps _ _ (sleep _) => apply keeps_sleep
  | |- keeps _ _ (modify_product _ _) =>
      apply keeps_modify_product; intros; split; reflexivity
  | |- keeps _ _ (ask_env _ _) =>
      apply keeps_ask_env; [intros; assumption | ok_event]
  | |- keeps _ _ (call_env _ _) =>
      apply keeps_call_env; [intros; assumption | ok_event]
  | |- keeps _ _ (log_error _) =>
      apply keeps_log_error; [intros; assumption | exact Logic.I]
  | |- keeps _ _ (if ?b then _ else _) => destruct b eqn:?
  | |- keeps _ _ (match ?x with _ => _ end) => destruct x eqn:?
  end.

Section Chases.

Variable E : Env.
Variable i : nat.
Variable pid : string.
Variable m : Decimal.

Lemma keeps_place_buy partial :
  keeps (trades i pid m) (chase_event pid m BuySide) (place_buy E i partial).
Proof.
  unfold place_buy, remember_order. repeat keeps_step.
Qed.

Lemma keeps_place_sell partial :
  keeps (trades i pid m) (chase_event pid m SellSide) (place_sell E i partial).
Proof.
  unfold place_sell, remember_order. repeat keeps_step.
Qed.

Lemma keeps_cancel_others side l r :
  keeps (trades i pid m) (chase_event pid m side) (cancel_others E l r).
Proof.
  induction l as [|o l IH]; cbn [cancel_others]; [apply keeps_ret |].
  apply keeps_bind; [repeat keeps_step | intros; exact IH].
Qed.

Lemma keeps_buy_chase c :
  keeps (trades i pid m) (chase_event pid m BuySide) (buy_chase E i c).
Proof.
  unfold buy_chase.
  repeat first
    [ apply keeps_place_buy | apply keeps_cancel_others | keeps_step ].
Qed.

Lemma keeps_sell_chase c :
  keeps (trades i pid m) (chase_event pid m SellSide) (sell_chase E i c).
Proof.
  unfold sell_chase.
  repeat first
    [ apply keeps_place_sell | apply keeps_cancel_others | keeps_step ].
Qed.

Lemma keeps_buy_escalate :
  keeps (trades i pid m) (chase_event pid m BuySide) (buy_escalate E i).
Proof. unfold buy_escalate. repeat keeps_step. Qed.

Lemma keeps_sell_escalate :
  keeps (trades i pid m) (chase_event pid m SellSide) (sell_escalate E i).
Proof. unfold sell_escalate. repeat keeps_step. Qed.

Lemma keeps_buy_while sp :
  forall fuel c,
    keeps (trades i pid m) (chase_event pid m BuySide)
      (buy_while E fuel sp i c).
Proof.
  induction fuel as [|fuel IH]; intros c; cbn [buy_while].
  - apply keeps_out_of_fuel.
  - unfold buy_condition, buy_slippage.
    repeat first
      [ apply IH | apply keeps_buy_chase | apply keeps_buy_escalate
      | keeps_step ].
Qed.

Lemma keeps_sell_while sp :
  forall fuel c,
    keeps (trades i pid m) (chase_event pid m SellSide)
      (sell_while E fuel sp i c).
Proof.
  induction fuel as [|fuel IH]; intros c; cbn [sell_while].
  - apply keeps_out_of_fuel.
  - unfold sell_condition, sell_slippage.
    repeat first
      [ apply IH | apply keeps_sell_chase | apply keeps_sell_escalate
      | keeps_step ].
Qed.

Lemma keeps_chase_finish side body :
  keeps (trades i pid m) (chase_event pid m side) body ->
  keeps (trades i pid m) (chase_event pid m side) (chase_finish E i body).
Proof.
  intros Hbody. unfold chase_finish.
  repeat first [ exact Hbody | keeps_step ].
Qed.

Lemma keeps_buy fuel :
  keeps (trades i pid m) (chase_event pid m BuySide) (buy E fuel i).
Proof.
  unfold buy, buy_try_tail.
  repeat first
    [ apply keeps_chase_finish | apply keeps_place_buy
    | apply keeps_buy_while | keeps_step ].
Qed.

Lemma keeps_sell fuel :
  keeps (trades i pid m) (chase_event pid m SellSide) (sell E fuel i).
Proof.
  unfold sell, sell_try_tail.
  repeat first
    [ apply keeps_chase_finish | apply keeps_place_sell
    | apply keeps_sell_while | keeps_step ].
Qed.

End Chases.

(** X12: a chase, however it ends, deals with its own product on its own
    side only: every limit order that [buy] (resp. [sell]) places is a
    post-only buy (resp. sell) order for its product of at least the
    minimum size, every market order is a buy (resp. sell) order for its
    product, every cancel-all names its product, and it starts no thread;
    the product keeps its id and its minimum size. *)
Theorem chase_trades_its_product_only E side fuel i p w r w' :
  products (engine w) !! i = Some p ->
  chase E side fuel i w = (r, w') ->
  Forall (chase_event (product_id p) (min_size p) side) (events_since w w')
  /\ exists p', products (engine w') !! i = Some p'
                /\ product_id p' = product_id p /\ min_size p' = min_size p.
Proof.
  intros Hp H.
  assert (HI : trades i (product_id p) (min_size p) w) by (exists p; auto).
  assert (Hk : keeps (trades i (product_id p) (min_size p))
                 (chase_event (product_id p) (min_size p) side)
                 (chase E side fuel i)).
  { destruct side; [apply keeps_buy | apply keeps_sell]. }
  destruct (Hk _ _ _ HI H) as (HI' & evs & Ht & Hok).
  split; [now rewrite (events_since_app _ _ _ Ht) | exact HI'].
Qed.

(** X13: when the order book raises at the first statement that reads it
    (line 135 of [buy], line 195 of [sell]), before the [try] block, the
    chase ends with that exception without a call to the exchange, and
    [order_in_progress], set at the line before, stays true. *)
Theorem chase_that_cannot_start E side fuel i p w ex :
  products (engine w) !! i = Some p ->
  chase_book E side (tick w) i = Exc ex ->
  exists w',
    chase E side fuel i w = (Raise ex, w')
    /\ products (engine w')
       = <[i := set_order_in_progress true p]> (products (engine w))
    /\ events_since w w' = [].
Proof.
  intros Hp Hbook.
  destruct side; cbn [chase chase_book] in *; unfold buy, sell; run;
    rewrite bind_call_env; cbn [tick with_product]; rewrite Hbook;
    (eexists; split; [reflexivity |]); (split; [reflexivity |]);
    unfold events_since; cbn; rewrite ?app_nil_r; apply drop_all.
Qed.

(** ** Inside the loop of a chase *)

Lemma cancel_others_trace E l r :
  forall w res w',
    cancel_others E l r w = (res, w') ->
    engine w' = engine w
    /\ exists n,
         trace w' = trace w ++ take n (cancels l r)
         /\ (res = Ok tt -> trace w' = trace w ++ cancels l r).
Proof.
  induction l as [|o l IH]; intros w res w' H; cbn [cancel_others] in H.
  - inversion H; subst. split; [reflexivity |]. exists 0%nat.
    cbn. rewrite app_nil_r. auto.
  - unfold cancels. rewrite filter_cons. fold (cancels l r).
    destruct (same_id (o_id o) (o_id r)) eqn:Hid.
    + rewrite decide_False by discriminate.
      rewrite bind_ret in H. exact (IH _ _ _ H).
    + rewrite decide_True by reflexivity. cbn [fmap list_fmap].
      fold (cancels l r).
      rewrite bind_call_env in H.
      destruct (api_cancel_order E (tick w) (o_id o)) as [[]|ex].
      * destruct (IH _ _ _ H) as (He & n & Hn & Hok).
        split; [exact He |]. exists (S n). cbn [take after_env trace] in *.
        rewrite <- app_assoc in Hn. split; [exact Hn |].
        intros Hres. rewrite (Hok Hres), <- app_assoc. reflexivity.
      * inversion H; subst. split; [reflexivity |]. exists 1%nat.
        split; [| discriminate]. cbn. now rewrite take_0.
Qed.

(** X24: the loop of lines 154 to 156 (214 to 216 in [sell]) asks the
    exchange to cancel the open orders whose id differs from the id of the
    order just placed, in their order, and nothing else: it never asks to
    cancel the order just placed, it changes nothing in the engine, and a
    cancel that raises ends it after the requests made so far. *)
Theorem cancel_others_cancels_the_others E l r w :
  engine (snd (cancel_others E l r w)) = engine w
  /\ (exists n,
        events_since w (snd (cancel_others E l r w)) = take n (cancels l r))
  /\ (fst (cancel_others E l r w) = Ok tt ->
      events_since w (snd (cancel_others E l r w)) = cancels l r)
  /\ Forall (fun ev => ev <> CancelOrder (o_id r)) (cancels l r).
Proof.
  destruct (cancel_others E l r w) as [res w'] eqn:H. cbn [fst snd].
  destruct (cancel_others_trace E l r _ _ _ H) as (He & n & Hn & Hok).
  split; [exact He |].
  split; [exists n; now apply events_since_app |].
  split; [intros Hres; apply events_since_app; now apply Hok |].
  unfold cancels. apply Forall_fmap, Forall_forall.
  intros o Ho. apply list_elem_of_filter in Ho as [Hid _]. cbn.
  intros Heq. inversion Heq as [Hsame]. rewrite Hsame in Hid.
  destruct (o_id r) as [s|]; cbn in Hid; [| discriminate].
  now rewrite String.eqb_refl in Hid.
Qed.

(** X25: in [buy], when the resting order is still the best bid and
    [get_order] is due and raises ValueError, the error is logged, the
    order is kept, and [last_order_update] is not set (line 161 is inside
    the [try]): the next iteration asks for the order again at once. *)
Theorem buy_asks_again_at_once E i p c price ask best w c' w' :
  products (engine w) !! i = Some p ->
  order_finished (c_ret c) = false ->
  c_price c = Some price ->
  book_get_ask E (tick w) i = Ret ask ->
  Dec.sub ask (quote_increment p) = Ret best ->
  Dec.lt price best = false ->
  truthy (o_id (c_ret c)) = true ->
  one_second <= time_time E (S (tick w)) - c_last_order_update c ->
  api_get_order E (S (S (tick w))) (o_id (c_ret c)) = Exc ValueError ->
  buy_chase E i c w = (Ok c', w') ->
  c_ret c' = c_ret c
  /\ c_last_order_update c' = c_last_order_update c
  /\ In (ErrorLogged ValueError) (events_since w w').
Proof.
  intros Hp Hfin Hprice Hask Hbest Hlt Hid Hdue Hget H.
  unfold buy_chase in H. run_in H. rewrite Hfin, Hprice in H.
  run_in H. rewrite bind_call_env, Hask in H. run_in H.
  rewrite bind_lift, Hbest in H. run_in H. rewrite Hlt in H. run_in H.
  rewrite Hid in H. run_in H. cbn [tick after_env] in H.
  destruct (Z.leb_spec one_second
              (time_time E (S (tick w)) - c_last_order_update c)); [| lia].
  unfold try_except at 1 in H. unfold bind at 1 in H.
  rewrite bind_call_env in H.
  change (tick (after_env [] (after_env [] w))) with (S (S (tick w))) in H.
  rewrite Hget in H. cbn [log_error bind ret] in H.
  run_in H.
  match type of H with
  | bind ?c0 _ ?w1 = _ =>
      destruct (c0 w1) as [r1 w2] eqn:Hq;
      pose proof (balance_get_quoted_currency_from_product_id _ _ _ _ _ Hq)
        as (_ & _ & _ & _ & evs & Ht & _);
      unfold bind at 1 in H; rewrite Hq in H
  end.
  destruct r1 as [a| |]; try discriminate H.
  unfold bind at 1 in H. cbn [sleep] in H. inversion H; subst.
  cbn [c_ret c_last_order_update].
  split; [reflexivity |]. split; [reflexivity |].
  unfold events_since. cbn [trace]. rewrite Ht. cbn [trace after_env].
  rewrite !app_nil_r, <- !app_assoc, drop_app_length.
  cbn. auto.
Qed.

(** X26: in [sell], in the same situation, the error is logged and the
    order is kept, but [last_order_update] is set to the clock (line 224
    is after the [try]): [sell] asks for the order again a second
    later. *)
Theorem sell_waits_a_second E i p c price bid best w c' w' :
  products (engine w) !! i = Some p ->
  order_finished (c_ret c) = false ->
  c_price c = Some price ->
  book_get_bid E (tick w) i = Ret bid ->
  Dec.add bid (quote_increment p) = Ret best ->
  Dec.gt price best = false ->
  truthy (o_id (c_ret c)) = true ->
  one_second <= time_time E (S (tick w)) - c_last_order_update c ->
  api_get_order E (S (S (tick w))) (o_id (c_ret c)) = Exc ValueError ->
  sell_chase E i c w = (Ok c', w') ->
  c_ret c' = c_ret c
  /\ c_last_order_update c' = time_time E (S (S (S (tick w))))
  /\ In (ErrorLogged ValueError) (events_since w w').
Proof.
  intros Hp Hfin Hprice Hbid Hbest Hgt Hid Hdue Hget H.
  unfold sell_chase in H. run_in H. rewrite Hfin, Hprice in H.
  run_in H. rewrite bind_call_env, Hbid in H. run_in H.
  rewrite bind_lift, Hbest in H. run_in H. rewrite Hgt in H. run_in H.
  rewrite Hid in H. run_in H. cbn [tick after_env] in H.
  destruct (Z.leb_spec one_second
              (time_time E (S (tick w)) - c_last_order_update c)); [| lia].
  rewrite bind_assoc in H. unfold bind at 1 in H.
  unfold try_except at 1 in H. rewrite call_env_run in H.
  change (tick (after_env [] (after_env [] w))) with (S (S (tick w))) in H.
  rewrite Hget in H. cbn [log_error bind ret] in H.
  run_in H. cbn [tick] in H.
  match type of H with
  | bind ?c0 _ ?w1 = _ =>
      destruct (c0 w1) as [r1 w2] eqn:Hq;
      pose proof (balance_get_base_currency_from_product_id _ _ _ _ _ Hq)
        as (_ & _ & _ & _ & evs & Ht & _);
      unfold bind at 1 in H; rewrite Hq in H
  end.
  destruct r1 as [a| |]; try discriminate H.
  unfold bind at 1 in H. cbn [sleep] in H. inversion H; subst.
  cbn [c_ret c_last_order_update].
  split; [reflexivity |]. split; [reflexivity |].
  unfold events_since. cbn [trace]. rewrite Ht. cbn [trace after_env].
  rewrite !app_nil_r, <- !app_assoc, drop_app_length.
  cbn. auto.
Qed.

(** ** Calls of the signal evaluator that cannot be evaluated *)

(** X14: a live call of [determine_trades] for a product id that no product
    of the engine has never returns: it raises, and it has changed no
    product and done nothing but refresh the balances. *)
Theorem unknown_product_raises E pid period_list indicators w r w' :
  is_live (engine w) = true ->
  get_product_by_product_id (engine w) pid = None ->
  determine_trades E pid period_list indicators w = (r, w') ->
  (exists e, r = Raise e)
  /\ products (engine w') = products (engine w)
  /\ Forall quiet (events_since w w').
Proof.
  intros Hlive Hnone H.
  apply (determine_trades_live _ _ _ _ _ _ _ Hlive) in H
    as [[Hstep He] | (w0 & w1 & c & b & s & _ & _ & Hstep & _ & Hrun)].
  - split; [exact He |]. split; [apply Hstep | now apply balance_step_events].
  - rewrite Hnone in Hrun.
    assert (r = Raise AttributeError /\ w' = w1) as [-> ->].
    { destruct b; [| destruct s]; cbn in Hrun; inversion Hrun; auto. }
    split; [eauto |]. split; [apply Hstep | now apply balance_step_events].
Qed.

(** X15: a live call of [determine_trades] whose first period has no entry
    in [indicators] never returns: it raises, and it has changed no flag
    and started no worker. *)
Theorem missing_indicator_raises E pid name rest indicators w r w' :
  is_live (engine w) = true ->
  indicators !! name = None ->
  determine_trades E pid (name :: rest) indicators w = (r, w') ->
  (exists e, r = Raise e)
  /\ products (engine w') = products (engine w)
  /\ Forall quiet (events_since w w').
Proof.
  intros Hlive Hnone H.
  apply (determine_trades_live _ _ _ _ _ _ _ Hlive) in H
    as [[Hstep He] | (w0 & w1 & c & b & s & _ & _ & _ & Hint & _)].
  - split; [exact He |]. split; [apply Hstep | now apply balance_step_events].
  - exfalso. unfold trade_intents, period_flags in Hint.
    cbn [period_loop] in Hint. unfold period_step, indicator in Hint.
    rewrite Hnone in Hint. discriminate Hint.
Qed.

(** X16: with an empty period list a live call of [determine_trades] that
    returns has put the product, if it is not LTC-BTC or ETH-BTC, in the
    buy state, whatever the indicators hold: the loop leaves the buy intent
    at its initial value. *)
Theorem no_period_means_buy E pid indicators i p w w' :
  is_live (engine w) = true ->
  pid <> "LTC-BTC"%string -> pid <> "ETH-BTC"%string ->
  get_product_by_product_id (engine w) pid = Some (i, p) ->
  determine_trades E pid [] indicators w = (Ok tt, w') ->
  exists p',
    products (engine w') !! i = Some p'
    /\ buy_flag p' = true /\ sell_flag p' = false.
Proof.
  intros Hlive Hl He Hfind H.
  apply (determine_trades_transition _ _ _ _ _ _ _ Hlive) in H
    as [(e & Hr & _) | (i' & p0 & p' & b & s & t & Hf & Hint & _ & [Hi _] & Htr & _)].
  - discriminate Hr.
  - rewrite Hfind in Hf. inversion Hf; subst i' p0.
    unfold trade_intents, period_flags in Hint.
    cbn [period_loop resp_bind] in Hint.
    unfold cross_pair_gate in Hint.
    destruct (String.eqb_spec pid "LTC-BTC"); [contradiction |].
    destruct (String.eqb_spec pid "ETH-BTC"); [contradiction |].
    cbn in Hint. inversion Hint; subst b s.
    exists p'. split; [exact Hi |]. destruct Htr as (Hb & Hs & _). auto.
Qed.

(** ** The order poller and the shutdown *)


Lemma list_find_ids (pid : string) (ps ps' : list Product) :
  product_id <$> ps = product_id <$> ps' ->
  fst <$> list_find (fun p => product_id p = pid) ps
  = fst <$> list_find (fun p => product_id p = pid) ps'.
Proof.
  revert ps'. induction ps as [|p ps IH]; intros [|p' ps'] H;
    try discriminate H; [reflexivity |].
  cbn in H. inversion H as [[Hid Hrest]].
  cbn [list_find]. rewrite Hid.
  destruct (decide (product_id p' = pid)); [reflexivity |].
  specialize (IH ps' Hrest).
  destruct (list_find _ ps) as [[i q]|], (list_find _ ps') as [[i' q']|];
    cbn in *; congruence.
Qed.

Lemma destination_ids e e' o :
  product_id <$> products e = product_id <$> products e' ->
  destination e o = destination e' o.
Proof.
  intros H. unfold destination, get_product_by_product_id.
  destruct (o_product_id o) as [pid|]; [| reflexivity].
  cbn. now apply list_find_ids.
Qed.

Lemma file_order_run e o :
  file_order e o
  = match destination e o with
    | Some i =>
        match products e !! i with
        | Some p =>
            Ret (set_products
                   (<[i := set_open_orders (open_orders p ++ [o]) p]>
                      (products e)) e)
        | None => Exc AttributeError
        end
    | None => Exc AttributeError
    end.
Proof.
  unfold file_order, destination.
  destruct (o_product_id o) as [pid|]; [| reflexivity]. cbn.
  destruct (get_product_by_product_id e pid) as [[i p]|] eqn:Hf; [| reflexivity].
  cbn. apply get_product_by_product_id_lookup in Hf as [-> _]. reflexivity.
Qed.

Lemma ids_insert_orders i p l (ps : list Product) :
  ps !! i = Some p ->
  product_id <$> <[i := set_open_orders l p]> ps = product_id <$> ps.
Proof.
  intros H. rewrite list_fmap_insert. cbn.
  apply list_insert_id. now rewrite list_lookup_fmap, H.
Qed.

Lemma filed_ids e e' l :
  product_id <$> products e = product_id <$> products e' ->
  filed e l = filed e' l.
Proof.
  intros H. induction l as [|o l IH]; [reflexivity |].
  cbn. rewrite (destination_ids _ _ _ H), IH. reflexivity.
Qed.

Lemma with_orders_ids e e' l j p :
  product_id <$> products e = product_id <$> products e' ->
  with_orders e l j p = with_orders e' l j p.
Proof.
  intros H. unfold with_orders. f_equal. f_equal.
  apply list_filter_iff. intros o. now rewrite (destination_ids _ _ _ H).
Qed.

Lemma destination_lookup e o i :
  destination e o = Some i -> is_Some (products e !! i).
Proof.
  unfold destination. destruct (o_product_id o) as [pid|]; [| discriminate].
  cbn. destruct (get_product_by_product_id e pid) as [[i' p]|] eqn:Hf;
    [| discriminate].
  cbn. intros [= <-].
  apply get_product_by_product_id_lookup in Hf as [-> _]. eauto.
Qed.

Lemma file_orders_spec l :
  forall e, exists e',
    file_orders l e
    = (e', if decide (length (filed e l) = length l) then None
           else Some AttributeError)
    /\ (forall j, products e' !! j
                  = with_orders e (filed e l) j <$> products e !! j)
    /\ set_products [] e' = set_products [] e.
Proof.
  induction l as [|o l IH]; intros e.
  - exists e. cbn. split; [reflexivity |]. split; [| reflexivity].
    intros j. destruct (products e !! j) as [p|]; [| reflexivity].
    cbn. unfold with_orders. cbn. rewrite app_nil_r. now destruct p.
  - cbn [file_orders filed]. rewrite file_order_run.
    destruct (destination e o) as [i|] eqn:Hd.
    2:{ exists e. split; [reflexivity |]. split; [| reflexivity].
        intros j. destruct (products e !! j) as [p|]; [| reflexivity].
        cbn. unfold with_orders. cbn. rewrite app_nil_r. now destruct p. }
    destruct (destination_lookup _ _ _ Hd) as [p Hp]. rewrite Hp.
    set (e1 := set_products _ e).
    assert (Hids : product_id <$> products e1 = product_id <$> products e).
    { unfold e1. cbn. now apply ids_insert_orders. }
    destruct (IH e1) as (e' & Hrun & Hps & Hrest).
    exists e'. rewrite Hrun, (filed_ids _ _ _ Hids).
    split.
    { cbn [length]. repeat destruct (decide _); try reflexivity; lia. }
    split; [| rewrite Hrest; reflexivity].
    intros j. rewrite Hps, (filed_ids _ _ _ Hids). unfold e1. cbn [products set_products].
    destruct (decide (j = i)) as [->|Hne].
    + rewrite list_lookup_insert_eq by now apply lookup_lt_Some in Hp.
      rewrite Hp. cbn. f_equal.
      rewrite (with_orders_ids _ e) by exact Hids.
      unfold with_orders. rewrite filter_cons, decide_True by exact Hd.
      cbn. now rewrite <- app_assoc.
    + rewrite list_lookup_insert_ne by congruence.
      destruct (products e !! j) as [q|]; [| reflexivity]. cbn. f_equal.
      rewrite (with_orders_ids _ e) by exact Hids.
      unfold with_orders. rewrite filter_cons, decide_False; [reflexivity |].
      rewrite Hd. congruence.
Qed.


Lemma known_destination e o : known e o <-> is_Some (destination e o).
Proof.
  unfold known, destination, get_product_by_product_id. split.
  - intros (pid & -> & Hin). cbn.
    destruct (list_find (fun p => product_id p = pid) (products e))
      as [[i p]|] eqn:Hf; [cbn; eauto |].
    exfalso. apply (list_find_None (fun p => product_id p = pid)) in Hf.
    apply list_elem_of_fmap in Hin as (p & -> & Hp).
    rewrite Forall_forall in Hf. now apply (Hf p Hp).
  - destruct (o_product_id o) as [pid|]; cbn; [| intros [? [=]]].
    destruct (list_find (fun p => product_id p = pid) (products e))
      as [[i p]|] eqn:Hf; cbn; [| intros [? [=]]].
    intros _. exists pid. split; [reflexivity |].
    apply (list_find_Some (fun p => product_id p = pid)) in Hf as (Hl & Hid & _).
    apply list_elem_of_fmap. exists p. split; [now symmetry |].
    eapply list_elem_of_lookup_2, Hl.
Qed.

Lemma destination_by_id e o j p :
  NoDup (product_id <$> products e) ->
  products e !! j = Some p ->
  destination e o = Some j <-> o_product_id o = Some (product_id p).
Proof.
  intros Hnd Hp. unfold destination, get_product_by_product_id.
  destruct (o_product_id o) as [pid|]; cbn; [| split; discriminate].
  destruct (list_find (fun p => product_id p = pid) (products e))
    as [[i q]|] eqn:Hf; cbn.
  - apply (list_find_Some (fun p => product_id p = pid)) in Hf as (Hl & Hid & _).
    split.
    + intros [= ->]. congruence.
    + intros [= ->]. f_equal.
      eapply (NoDup_lookup _ i j (product_id p) Hnd);
        rewrite list_lookup_fmap; [rewrite Hl | rewrite Hp]; cbn; congruence.
  - apply (list_find_None (fun p => product_id p = pid)) in Hf.
    split; [discriminate |]. intros [= ->]. exfalso.
    rewrite Forall_forall in Hf. apply (Hf p); [| reflexivity].
    eapply list_elem_of_lookup_2, Hp.
Qed.

Lemma filed_known e l : Forall (known e) l -> filed e l = l.
Proof.
  induction 1 as [|o l Ho _ IH]; [reflexivity |].
  cbn. apply known_destination in Ho as [i ->]. now rewrite IH.
Qed.

Lemma filed_unknown e l1 o l2 :
  Forall (known e) l1 -> ~ known e o -> filed e (l1 ++ o :: l2) = l1.
Proof.
  intros H Ho. induction H as [|o' l' Ho' Hl' IH]; cbn.
  - destruct (destination e o) eqn:Hd; [| reflexivity].
    exfalso. apply Ho, known_destination. rewrite Hd. eauto.
  - apply known_destination in Ho' as [i ->]. now rewrite IH.
Qed.

Lemma without_orders_ids e :
  product_id <$> products (without_orders e) = product_id <$> products e.
Proof.
  unfold without_orders. cbn. rewrite <- list_fmap_compose.
  apply list_fmap_ext. intros i p _. now destruct p.
Qed.

Lemma poll_orders_due now now' l k :
  need_updating k = true ->
  one_second <= now - last_order_update k ->
  exists k',
    fst (poll_orders now now' (Ret l) k) = k'
    /\ snd (poll_orders now now' (Ret l) k)
       = (if decide (length (filed (engine_of k) l) = length l) then [GetOrders]
          else [GetOrders; Logged AttributeError])
    /\ last_order_update k'
       = (if decide (length (filed (engine_of k) l) = length l) then now'
          else last_order_update k)
    /\ all_open_orders k' = Some l
    /\ stop_update_order_thread k' = stop_update_order_thread k
    /\ set_products [] (engine_of k') = set_products [] (engine_of k)
    /\ forall j,
         products (engine_of k') !! j
         = (fun p =>
              set_open_orders
                (filter (fun o => destination (engine_of k) o = Some j)
                   (filed (engine_of k) l)) p)
             <$> products (engine_of k) !! j.
Proof.
  intros Hneed Hdue. unfold poll_orders. rewrite Hneed.
  destruct (Z.leb_spec one_second (now - last_order_update k)); [| lia].
  cbn [andb set_all_open_orders engine_of].
  fold (without_orders (engine_of k)).
  destruct (file_orders_spec l (without_orders (engine_of k)))
    as (e' & Hrun & Hps & Hrest).
  rewrite Hrun.
  rewrite (filed_ids _ (engine_of k)) in * by apply without_orders_ids.
  assert (Hlook : forall j,
    products e' !! j
    = (fun p =>
         set_open_orders
           (filter (fun o => destination (engine_of k) o = Some j)
              (filed (engine_of k) l)) p)
        <$> products (engine_of k) !! j).
  { intros j. rewrite Hps. unfold without_orders. cbn [products set_products].
    rewrite list_lookup_fmap.
    destruct (products (engine_of k) !! j) as [p|]; [| reflexivity]. cbn. f_equal.
    rewrite (with_orders_ids _ (engine_of k)) by apply without_orders_ids.
    unfold with_orders. cbn. now destruct p. }
  destruct (decide (length (filed (engine_of k) l) = length l));
    eexists; (split; [reflexivity |]); cbn;
    repeat split; try reflexivity; try exact Hlook;
    rewrite Hrest; reflexivity.
Qed.

(** X17: an iteration of [update_orders] that polls (some product has an
    order in progress and the last poll is at least a second old), on an
    engine whose products have distinct ids and an answer whose orders all
    name products of the engine, replaces the open orders of every product
    by the orders of the answer with its product id, in the order of the
    answer, keeps the answer in [all_open_orders] and stamps the poll. *)
Theorem orders_filed_by_product now now' l k :
  need_updating k = true ->
  one_second <= now - last_order_update k ->
  NoDup (product_id <$> products (engine_of k)) ->
  Forall (known (engine_of k)) l ->
  exists k',
    poll_orders now now' (Ret l) k = (k', [GetOrders])
    /\ last_order_update k' = now'
    /\ all_open_orders k' = Some l
    /\ forall j,
         products (engine_of k') !! j
         = (fun p => set_open_orders (orders_of p l) p)
             <$> products (engine_of k) !! j.
Proof.
  intros Hneed Hdue Hnd Hall.
  destruct (poll_orders_due now now' l k Hneed Hdue)
    as (k' & Hk & Hreqs & Hlast & Hall' & _ & _ & Hps).
  rewrite (filed_known _ _ Hall) in *.
  rewrite decide_True in Hreqs by reflexivity.
  rewrite decide_True in Hlast by reflexivity.
  exists k'. split.
  { rewrite <- Hk, <- Hreqs. now destruct (poll_orders _ _ _ _). }
  split; [exact Hlast |]. split; [exact Hall' |].
  intros j. rewrite Hps.
  destruct (products (engine_of k) !! j) as [p|] eqn:Hp; [| reflexivity].
  cbn. f_equal. f_equal. unfold orders_of. apply list_filter_iff.
  intros o. now apply destination_by_id.
Qed.

(** X18: when the answer holds an order whose product id no product of the
    engine has, the iteration logs an AttributeError and stops there: the
    open orders of every product have been discarded, only the orders that
    came before that one have been filed, and the poll is not stamped, so
    that the next iteration polls again. *)
Theorem order_of_an_unknown_product now now' l1 o l2 k :
  need_updating k = true ->
  one_second <= now - last_order_update k ->
  NoDup (product_id <$> products (engine_of k)) ->
  Forall (known (engine_of k)) l1 ->
  ~ known (engine_of k) o ->
  exists k',
    poll_orders now now' (Ret (l1 ++ o :: l2)) k
    = (k', [GetOrders; Logged AttributeError])
    /\ last_order_update k' = last_order_update k
    /\ all_open_orders k' = Some (l1 ++ o :: l2)
    /\ forall j,
         products (engine_of k') !! j
         = (fun p => set_open_orders (orders_of p l1) p)
             <$> products (engine_of k) !! j.
Proof.
  intros Hneed Hdue Hnd Hall Ho.
  destruct (poll_orders_due now now' (l1 ++ o :: l2) k Hneed Hdue)
    as (k' & Hk & Hreqs & Hlast & Hall' & _ & _ & Hps).
  rewrite (filed_unknown _ _ _ _ Hall Ho) in *.
  rewrite decide_False in Hreqs by (rewrite length_app; cbn; lia).
  rewrite decide_False in Hlast by (rewrite length_app; cbn; lia).
  exists k'. split.
  { rewrite <- Hk, <- Hreqs. now destruct (poll_orders _ _ _ _). }
  split; [exact Hlast |]. split; [exact Hall' |].
  intros j. rewrite Hps.
  destruct (products (engine_of k) !! j) as [p|] eqn:Hp; [| reflexivity].
  cbn. f_equal. f_equal. unfold orders_of. apply list_filter_iff.
  intros o'. now apply destination_by_id.
Qed.

(** X19: an iteration of [update_orders] asks the exchange for the orders
    only if some product has an order in progress and the last stamped poll
    is at least a second old; otherwise it does nothing at all. *)
Theorem poller_waits_for_an_order_in_progress now now' orders k :
  (snd (poll_orders now now' orders k) = []
   /\ fst (poll_orders now now' orders k) = k)
  \/ ((exists p, p ∈ products (engine_of k) /\ order_in_progress p = true)
      /\ one_second <= now - last_order_update k
      /\ head (snd (poll_orders now now' orders k)) = Some GetOrders).
Proof.
  unfold poll_orders.
  destruct (need_updating k) eqn:Hneed; [| now left].
  destruct (Z.leb_spec one_second (now - last_order_update k)); [| now left].
  right. split.
  { unfold need_updating in Hneed. apply existsb_exists in Hneed as (p & Hin & Hp).
    exists p. split; [now apply list_elem_of_In | exact Hp]. }
  split; [assumption |].
  cbn [andb]. destruct orders as [l|ex]; [| reflexivity].
  destruct (file_orders _ _) as [e' [ex|]]; reflexivity.
Qed.

(** X20: whatever the exchange answers, an iteration of [update_orders]
    changes nothing but the open orders of the products, [all_open_orders]
    and [last_order_update]: the flags, the ids and the number of the
    products, the balances and the stop flag are as before. *)
Theorem poller_touches_only_the_orders now now' orders k :
  stop_update_order_thread (fst (poll_orders now now' orders k))
  = stop_update_order_thread k
  /\ set_products [] (engine_of (fst (poll_orders now now' orders k)))
     = set_products [] (engine_of k)
  /\ set_open_orders [] <$> products (engine_of (fst (poll_orders now now' orders k)))
     = set_open_orders [] <$> products (engine_of k).
Proof.
  destruct (need_updating k) eqn:Hneed.
  2:{ unfold poll_orders. rewrite Hneed. cbn. auto. }
  destruct (Z.leb_spec one_second (now - last_order_update k)) as [Hdue|Hnot].
  2:{ unfold poll_orders. rewrite Hneed.
      destruct (Z.leb_spec one_second (now - last_order_update k)); [lia |].
      cbn. auto. }
  destruct orders as [l|ex].
  - destruct (poll_orders_due now now' l k Hneed Hdue)
      as (k' & Hk & _ & _ & _ & Hstop & Hrest & Hps).
    rewrite Hk. split; [exact Hstop |]. split; [exact Hrest |].
    apply list_eq. intros j. rewrite !list_lookup_fmap, Hps.
    destruct (products (engine_of k) !! j) as [p|]; [| reflexivity].
    cbn. now destruct p.
  - unfold poll_orders. rewrite Hneed.
    destruct (Z.leb_spec one_second (now - last_order_update k)); [| lia].
    cbn. auto.
Qed.


Lemma close_engine_of cancel_all exit k :
  engine_of (fst (close cancel_all exit k))
  = set_products (close_product <$> products (engine_of k)) (engine_of k).
Proof. unfold close. destruct cancel_all, exit; reflexivity. Qed.

Lemma close_flags_false cancel_all exit k :
  Forall (fun p => buy_flag p = false /\ sell_flag p = false
                   /\ order_in_progress p = false)
    (products (engine_of (fst (close cancel_all exit k)))).
Proof.
  rewrite close_engine_of. cbn [products set_products].
  apply Forall_fmap, Forall_true. intros p. cbn. auto.
Qed.

(** X21: after [close] every product has its buy flag, its sell flag and
    [order_in_progress] false and is otherwise as before,
    the rest of the engine is unchanged, the stop flag of the poller is set
    if [exit] is true and kept otherwise, the exchange has been asked
    exactly once, to cancel all orders, whether or not that call raised,
    and a second [close] changes nothing more in the engine. *)
Theorem close_clears_every_product cancel_all exit k :
  Forall (fun p => buy_flag p = false /\ sell_flag p = false
                   /\ order_in_progress p = false)
    (products (engine_of (fst (close cancel_all exit k))))
  /\ close_product <$> products (engine_of (fst (close cancel_all exit k)))
     = close_product <$> products (engine_of k)
  /\ set_products [] (engine_of (fst (close cancel_all exit k)))
     = set_products [] (engine_of k)
  /\ stop_update_order_thread (fst (close cancel_all exit k))
     = exit || stop_update_order_thread k
  /\ filter to_exchange (snd (close cancel_all exit k)) = [CancelEverything]
  /\ forall cancel_all' exit',
       engine_of (fst (close cancel_all' exit' (fst (close cancel_all exit k))))
       = engine_of (fst (close cancel_all exit k)).
Proof.
  pose proof (close_flags_false cancel_all exit k) as Hflags.
  pose proof (close_engine_of cancel_all exit k) as Hk.
  assert (Hidem : forall ps : list Product,
            close_product <$> (close_product <$> ps) = close_product <$> ps).
  { intros ps. rewrite <- list_fmap_compose. apply list_fmap_ext.
    intros i p _. reflexivity. }
  split; [exact Hflags |].
  rewrite Hk. cbn [products set_products].
  split; [apply Hidem |].
  split; [reflexivity |].
  split; [unfold close; destruct cancel_all, exit; reflexivity |].
  split; [unfold close; destruct cancel_all; reflexivity |].
  intros c' e'.
  rewrite close_engine_of, Hk. cbn [products set_products]. now rewrite Hidem.
Qed.

(** X22: in the engine that [close] leaves, the loop of a chase on any
    product, whatever the state of the chase, is left at its next test
    without a call to the exchange: the test reads the flag before anything
    else. *)
Theorem close_ends_the_chases E cancel_all exit k i p fuel sp c t tr :
  products (engine_of k) !! i = Some p ->
  let w := mkWorld (engine_of (fst (close cancel_all exit k))) t tr in
  buy_while E (S fuel) sp i c w = (Ok (Next tt), w)
  /\ sell_while E (S fuel) sp i c w = (Ok (Next tt), w).
Proof.
  intros Hp w.
  assert (Hw : products (engine w) !! i = Some (close_product p)).
  { unfold w, close. destruct cancel_all, exit; cbn;
      now rewrite list_lookup_fmap, Hp. }
  split; cbn [buy_while sell_while]; unfold buy_condition, sell_condition;
    run; reflexivity.
Qed.

(** X23: when another thread runs [close(exit=True)] while the poller
    sleeps, [update_orders] ends at its next test, whatever is scheduled
    after it: it has made the calls of the current iteration and no other,
    and it leaves the stop flag set and every flag of every product
    false. *)
Theorem close_stops_the_poller cancel_all t rest k :
  stop_update_order_thread k = false ->
  t_others t = (fun k1 => fst (close cancel_all true k1)) ->
  exists k',
    update_orders (t :: rest) k
    = (true, k', snd (poll_orders (t_time t) (t_time' t) (t_orders t) k))
    /\ stop_update_order_thread k' = true
    /\ Forall (fun p => buy_flag p = false /\ sell_flag p = false
                        /\ order_in_progress p = false)
         (products (engine_of k')).
Proof.
  intros Hrun Hclose. cbn [update_orders]. rewrite Hrun.
  destruct (poll_orders _ _ _ k) as [k1 reqs] eqn:Hpoll.
  rewrite Hclose.
  assert (Hstop : stop_update_order_thread (fst (close cancel_all true k1)) = true).
  { unfold close. now destruct cancel_all. }
  destruct rest as [|t' rest]; cbn [update_orders]; rewrite Hstop;
    (eexists; split; [cbn; now rewrite app_nil_r |]);
    (split; [exact Hstop |]);
    apply (close_flags_false cancel_all true k1).
Qed.

(** ** Examples, witnesses and counterexamples *)

Local Open Scope string_scope.

(** C3, as it is stated, fails: with the buy flag of BTC-USD false and that
    of LTC-USD true, the two periods of the example give LTC-BTC a buy
    intent. *)
Lemma btc_fiat_flag_does_not_gate_buy :
  buy_flag_of (get_product_by_product_id (gate_engine true) "BTC-USD")
  = Ret false
  /\ forallb period_buy_condition example_sets = true
  /\ trade_intents (gate_engine true) "LTC-BTC" ["P1"; "P2"] example_indicators
     = Ret (true, false).
Proof.
  split; [vm_compute; reflexivity |].
  split; vm_compute; reflexivity.
Qed.

Lemma ltc_btc_gated_by_ltc_fiat_witness :
  Forall2 (indicators_of example_indicators) ["P1"; "P2"] example_sets
  /\ trade_intents (gate_engine false) "LTC-BTC" ["P1"; "P2"] example_indicators
     = Ret (false, false).
Proof.
  split; [exact example_indicators_of |].
  refine (proj2 (ltc_btc_gated_by_ltc_fiat (gate_engine false)
                   example_indicators ["P1"; "P2"] example_sets 1
                   (mkProduct "LTC-USD" false (D 1 (-1)) (D 1 (-2)) false
                      false false [] 0 None)
                   example_indicators_of _ _) _);
    vm_compute; reflexivity.
Defined.

Lemma cross_pair_gating_witness :
  Forall2 (indicators_of example_indicators) ["P1"; "P2"] example_sets
  /\ trade_intents (gate_engine true) "LTC-BTC" ["P1"; "P2"] example_indicators
     = Ret (true && true, false && false).
Proof.
  split; [exact example_indicators_of |].
  refine (cross_pair_gating (gate_engine true) "LTC-BTC" "LTC-USD"
            example_indicators ["P1"; "P2"] example_sets 1
            (mkProduct "LTC-USD" false (D 1 (-1)) (D 1 (-2)) true
               false false [] 0 None)
            0 (set_buy_flag false btc_usd) _ example_indicators_of _ _).
  - left. split; reflexivity.
  - vm_compute; reflexivity.
  - vm_compute; reflexivity.
Defined.

Lemma worker_started_only_when_witness :
  In (ThreadStart BuySide 0) (events_since demo_world demo_call.2)
  /\ exists p b s w0 c w1,
       is_live (engine demo_world) = true
       /\ get_product_by_product_id (engine demo_world) "BTC-USD"
          = Some (0%nat, p)
       /\ trade_intents (engine demo_world) "BTC-USD" ["P1"; "P2"]
            example_indicators = Ret (b, s)
       /\ order_in_progress p = false
       /\ update_amounts (demo_env (D 50000 0) 1000) demo_world = (Ok tt, w0)
       /\ get_base_currency_from_product_id (demo_env (D 50000 0) 1000)
            "BTC-USD" w0 = (Ok c, w1)
       /\ b = true
       /\ exists q wq ask a,
            get_quoted_currency_from_product_id (demo_env (D 50000 0) 1000)
              "BTC-USD" (buy_world (demo_env (D 50000 0) 1000) 0 p w1)
            = (Ok (Some q), wq)
            /\ book_get_ask (demo_env (D 50000 0) 1000) (tick wq) 0 = Ret ask
            /\ buy_size q ask (quote_increment p) a
            /\ Dec.ge a (min_size p) = true.
Proof.
  assert (Hin : In (ThreadStart BuySide 0) (events_since demo_world demo_call.2))
    by (vm_compute; left; reflexivity).
  split; [exact Hin |].
  exact (worker_started_only_when (demo_env (D 50000 0) 1000) "BTC-USD"
           ["P1"; "P2"] example_indicators demo_world demo_call.1
           demo_call.2 BuySide 0 (surjective_pairing _) Hin).
Defined.

Lemma flags_after_determine_trades_witness :
  is_live (engine holder_world) = true
  /\ trade_intents (engine holder_world) "BTC-USD" ["P1"; "P2"]
       example_indicators = Ret (true, false)
  /\ (exists p',
        only_product_changed 0 p' holder_world switch_call.2
        /\ flag_transition true false 2000000
             (set_sell_flag true (set_buy_flag false btc_usd)) p'
        /\ buy_flag p' && sell_flag p' = false)
  /\ flags_exclusive holder_world
  /\ flags_exclusive switch_call.2.
Proof.
  assert (Hex : flags_exclusive holder_world).
  { intros [|j] q Hq; cbn in Hq; [inversion Hq; reflexivity | discriminate Hq]. }
  destruct (flags_after_determine_trades
              (refresh_env (Ret (AccountList three_accounts))) "BTC-USD"
              ["P1"; "P2"] example_indicators holder_world
              switch_call.1 switch_call.2 eq_refl (surjective_pairing _))
    as [Hf Hinv].
  split; [reflexivity |].
  split; [vm_compute; reflexivity |].
  split; [| split; [exact Hex | exact (Hinv Hex)]].
  unfold flags_after in Hf.
  set (u := update_amounts _ _) in Hf. vm_compute in u. subst u.
  cbv beta iota in Hf.
  set (u := get_base_currency_from_product_id _ _ _) in Hf. vm_compute in u.
  subst u. cbv beta iota in Hf.
  set (u := trade_intents _ _ _ _) in Hf. vm_compute in u. subst u.
  set (u := get_product_by_product_id _ _) in Hf. vm_compute in u. subst u.
  cbv beta iota in Hf.
  exact (proj2 Hf).
Defined.

Lemma simulated_mode_is_inert_witness :
  is_live (engine simulated_world) = false
  /\ products
       (engine (determine_trades (demo_env (D 50000 0) 1000) "BTC-USD"
                  ["P1"; "P2"] example_indicators simulated_world).2)
     = products (engine simulated_world).
Proof.
  split; [reflexivity |].
  exact (proj1 (simulated_mode_is_inert (demo_env (D 50000 0) 1000) "BTC-USD"
                  ["P1"; "P2"] example_indicators simulated_world eq_refl)).
Defined.

Lemma place_buy_example_witness :
  products (engine demo_world) !! 0%nat = Some btc_usd
  /\ get_quoted_currency_from_product_id (demo_env (D 50000 0) 1000) "BTC-USD"
       demo_world
     = (Ok (Some (D 10000 (-2))), mkWorld demo_engine 1 [])
  /\ exists w',
       place_buy (demo_env (D 50000 0) 1000) 0 (D 10 (-1)) demo_world
       = (Ok resting_order, w')
       /\ trace w'
          = [PlaceLimitOrder "BTC-USD" BuySide (D 200000 (-8))
               (D 4999999 (-2)) true].
Proof.
  assert (Hq : get_quoted_currency_from_product_id
                 (demo_env (D 50000 0) 1000) "BTC-USD" demo_world
               = (Ok (Some (D 10000 (-2))), mkWorld demo_engine 1 []))
    by (vm_compute; reflexivity).
  split; [reflexivity |]. split; [exact Hq |].
  destruct (place_buy_example (demo_env (D 50000 0) 1000) demo_world 0 btc_usd
              (mkWorld demo_engine 1 []) eq_refl eq_refl eq_refl eq_refl Hq
              eq_refl)
    as (_ & _ & _ & w' & Hrun & Ht).
  exists w'. split; [exact Hrun | exact Ht].
Defined.

Lemma rounding_truncates_witness :
  0 <= Dec.coeff (D 10129 (-3))
  /\ exists r, round_fiat (Some (D 10129 (-3))) = Ret r
               /\ truncation_of (D 10129 (-3)) r 2 100.
Proof.
  assert (H : 0 <= Dec.coeff (D 10129 (-3))) by (vm_compute; discriminate).
  split; [exact H |].
  apply (proj1 (rounding_truncates (D 10129 (-3)) H)).
  vm_compute. reflexivity.
Defined.

(** C8, as it is stated, fails: 10^26 is a non-negative decimal and
    [round_fiat] does not return its truncation, nor [round_coin] that of
    10^20; each raises InvalidOperation. *)
Lemma rounding_raises_on_large_input :
  0 <= Dec.coeff (D 1 26)
  /\ round_fiat (Some (D 1 26)) = Exc InvalidOperation
  /\ 0 <= Dec.coeff (D 1 20)
  /\ round_coin (Some (D 1 20)) = Exc InvalidOperation.
Proof.
  split; [vm_compute; discriminate |].
  split; [vm_compute; reflexivity |].
  split; [vm_compute; discriminate |].
  vm_compute; reflexivity.
Qed.

Lemma slippage_escalation_witness :
  chase_condition BuySide 0 demo_chase demo_world = (Ok true, demo_world)
  /\ chase_slippage (demo_env (D 50100 0) 1000) BuySide (D 4999999 (-2)) 0
       demo_world
     = (Ok true, mkWorld demo_engine 1 [])
  /\ escalated (demo_env (D 50100 0) 1000) BuySide
       (chase_balance (demo_env (D 50100 0) 1000) BuySide "BTC-USD") 0 btc_usd
       (mkWorld demo_engine 1 [])
       (chase_from_loop (demo_env (D 50100 0) 1000) BuySide 1
          (D 4999999 (-2)) 0 demo_chase demo_world).1
       (chase_from_loop (demo_env (D 50100 0) 1000) BuySide 1
          (D 4999999 (-2)) 0 demo_chase demo_world).2
  /\ trace
       (chase_from_loop (demo_env (D 50100 0) 1000) BuySide 1
          (D 4999999 (-2)) 0 demo_chase demo_world).2
     = [CancelAll "BTC-USD";
        PlaceMarketOrder "BTC-USD" BuySide (Some (D 10000 (-2)))].
Proof.
  assert (Hc : chase_condition BuySide 0 demo_chase demo_world
               = (Ok true, demo_world)) by (vm_compute; reflexivity).
  assert (Hs : chase_slippage (demo_env (D 50100 0) 1000) BuySide
                 (D 4999999 (-2)) 0 demo_world
               = (Ok true, mkWorld demo_engine 1 []))
    by (vm_compute; reflexivity).
  split; [exact Hc |]. split; [exact Hs |].
  split; [| vm_compute; reflexivity].
  exact (slippage_escalation (demo_env (D 50100 0) 1000) BuySide 0
           (D 4999999 (-2)) 0 demo_chase demo_world (mkWorld demo_engine 1 [])
           btc_usd eq_refl Hc Hs).
Defined.

(** C1, as it is stated, fails: the loop finds the slippage above the
    maximum, the cancel-all raises, and the chase ends without a market
    order. *)
Lemma escalation_without_market_order :
  buy_condition 0 demo_chase demo_world = (Ok true, demo_world)
  /\ (buy_slippage (demo_env (D 50100 0) 0) (D 4999999 (-2)) 0 demo_world).1
     = Ok true
  /\ trace
       (buy_from_loop (demo_env (D 50100 0) 0) 1 (D 4999999 (-2)) 0
          demo_chase demo_world).2
     = [CancelAll "BTC-USD"; ErrorLogged ExchangeError; CancelAll "BTC-USD"]
  /\ forall q,
       ~ In (PlaceMarketOrder "BTC-USD" BuySide q)
           (trace
              (buy_from_loop (demo_env (D 50100 0) 0) 1 (D 4999999 (-2)) 0
                 demo_chase demo_world).2).
Proof.
  assert (Ht : trace
       (buy_from_loop (demo_env (D 50100 0) 0) 1 (D 4999999 (-2)) 0
          demo_chase demo_world).2
     = [CancelAll "BTC-USD"; ErrorLogged ExchangeError; CancelAll "BTC-USD"])
    by (vm_compute; reflexivity).
  split; [vm_compute; reflexivity |].
  split; [vm_compute; reflexivity |].
  split; [exact Ht |].
  intros q. rewrite Ht. intros [H | [H | [H | []]]]; discriminate H.
Qed.

(** C6 fails on the code.  The flags of the product are cleared while the
    chase sleeps, the loop is left by its condition, the cancel-all of the
    [try] block succeeds and the cancel-all after it raises: [buy] and
    [sell] end with that exception and leave [order_in_progress] true. *)
Theorem chase_left_locked :
  (buy (closing_env 12) 3 0 demo_world).1 = Raise ExchangeError
  /\ In (CancelAll "BTC-USD") (trace (buy (closing_env 12) 3 0 demo_world).2)
  /\ order_in_progress
       <$> products (engine (buy (closing_env 12) 3 0 demo_world).2) !! 0%nat
     = Some true
  /\ (sell (closing_env 12) 3 0 holder_world).1 = Raise ExchangeError
  /\ In (CancelAll "BTC-USD") (trace (sell (closing_env 12) 3 0 holder_world).2)
  /\ order_in_progress
       <$> products (engine (sell (closing_env 12) 3 0 holder_world).2) !! 0%nat
     = Some true.
Proof.
  split; [vm_compute; reflexivity |].
  split; [vm_compute; right; left; reflexivity |].
  split; [vm_compute; reflexivity |].
  split; [vm_compute; reflexivity |].
  split; [vm_compute; right; left; reflexivity |].
  vm_compute; reflexivity.
Qed.

(** ** Examples of the further properties *)

Lemma balances_cached_for_a_second_witness :
  time_time (demo_env (D 50000 0) 1000) (tick demo_world)
  - last_balance_update (engine demo_world) <= one_second
  /\ update_amounts (demo_env (D 50000 0) 1000) demo_world
     = (Ok tt, mkWorld (engine demo_world) (S (tick demo_world))
                 (trace demo_world)).
Proof.
  assert (H : time_time (demo_env (D 50000 0) 1000) (tick demo_world)
              - last_balance_update (engine demo_world) <= one_second)
    by (vm_compute; discriminate).
  split; [exact H |].
  exact (proj1 (balances_cached_for_a_second (demo_env (D 50000 0) 1000)
                  demo_world H)).
Defined.

Lemma failed_refresh_zeroes_balances_witness :
  refresh_due (refresh_env (Exc ExchangeError)) demo_world
  /\ exists w',
       update_amounts (refresh_env (Exc ExchangeError)) demo_world
       = (Ok tt, w')
       /\ balances (engine w') = zeroed
       /\ fiat_equivalent (engine w') = D 0 (-1)
       /\ last_balance_update (engine w')
          = time_time (refresh_env (Exc ExchangeError)) (S (tick demo_world))
       /\ products (engine w') = products (engine demo_world)
       /\ events_since demo_world w'
          = [GetAccounts; ErrorLogged ExchangeError].
Proof.
  assert (H : refresh_due (refresh_env (Exc ExchangeError)) demo_world)
    by (vm_compute; reflexivity).
  split; [exact H |].
  exact (failed_refresh_zeroes_balances (refresh_env (Exc ExchangeError))
           demo_world ExchangeError H eq_refl).
Defined.

Lemma unreadable_account_zeroes_balances_witness :
  refresh_due
    (refresh_env
       (Ret (AccountList
               [mkAccount (Some "USD") (Some (D 10000 (-2)));
                mkAccount (Some "BTC") None])))
    demo_world
  /\ exists ex w',
       update_amounts
         (refresh_env
            (Ret (AccountList
                    [mkAccount (Some "USD") (Some (D 10000 (-2)));
                     mkAccount (Some "BTC") None])))
         demo_world
       = (Ok tt, w')
       /\ balances (engine w') = zeroed
       /\ fiat_equivalent (engine w') = D 0 (-1)
       /\ last_balance_update (engine w')
          = time_time
              (refresh_env
                 (Ret (AccountList
                         [mkAccount (Some "USD") (Some (D 10000 (-2)));
                          mkAccount (Some "BTC") None])))
              (S (tick demo_world))
       /\ products (engine w') = products (engine demo_world)
       /\ events_since demo_world w' = [GetAccounts; ErrorLogged ex].
Proof.
  assert (H : refresh_due
                (refresh_env
                   (Ret (AccountList
                           [mkAccount (Some "USD") (Some (D 10000 (-2)));
                            mkAccount (Some "BTC") None])))
                demo_world)
    by (vm_compute; reflexivity).
  split; [exact H |].
  exact (unreadable_account_zeroes_balances _ demo_world
           [mkAccount (Some "USD") (Some (D 10000 (-2)));
            mkAccount (Some "BTC") None]
           (mkAccount (Some "BTC") None) BTC H eq_refl
           (or_intror (or_introl eq_refl)) eq_refl eq_refl).
Defined.

Lemma last_account_of_a_currency_wins_witness :
  refresh_due (refresh_env (Ret (AccountList three_accounts))) demo_world
  /\ Forall (readable (fiat_currency (engine demo_world))) three_accounts
  /\ refreshed "USD" three_accounts BTC (Some (D 0 (-8)))
     = Some (D 250000000 (-8))
  /\ refreshed "USD" three_accounts FIAT (Some (D 10000 (-2)))
     = Some (D 1012 (-2))
  /\ refreshed "USD" three_accounts ETH None = None
  /\ forall c,
       balance_of c
         (balances
            (engine
               (update_amounts (refresh_env (Ret (AccountList three_accounts)))
                  demo_world).2))
       = refreshed (fiat_currency (engine demo_world)) three_accounts c
           (balance_of c (balances (engine demo_world))).
Proof.
  assert (H : refresh_due (refresh_env (Ret (AccountList three_accounts)))
                demo_world)
    by (vm_compute; reflexivity).
  assert (Hall : Forall (readable (fiat_currency (engine demo_world)))
                   three_accounts).
  { repeat (apply List.Forall_cons || apply List.Forall_nil);
      intros c Hc; vm_compute in Hc; inversion Hc; subst;
      eexists; vm_compute; reflexivity. }
  split; [exact H |]. split; [exact Hall |].
  split; [vm_compute; reflexivity |].
  split; [vm_compute; reflexivity |].
  split; [vm_compute; reflexivity |].
  exact (last_account_of_a_currency_wins
           (refresh_env (Ret (AccountList three_accounts))) demo_world
           three_accounts _ _ H eq_refl Hall
           (surjective_pairing _)).
Defined.

Lemma answer_that_is_no_list_witness :
  refresh_due (refresh_env (Ret NotAList)) fresh_world
  /\ fiat (balances (engine fresh_world)) = None
  /\ balances (engine (update_amounts (refresh_env (Ret NotAList)) fresh_world).2)
     = balances (engine fresh_world)
  /\ last_balance_update
       (engine (update_amounts (refresh_env (Ret NotAList)) fresh_world).2)
     = time_time (refresh_env (Ret NotAList)) (S (tick fresh_world))
  /\ events_since fresh_world
       (update_amounts (refresh_env (Ret NotAList)) fresh_world).2
     = [GetAccounts]
  /\ (fiat (balances (engine fresh_world)) = None ->
      exists ex,
        (update_amounts (refresh_env (Ret NotAList)) fresh_world).1 = Raise ex).
Proof.
  assert (H : refresh_due (refresh_env (Ret NotAList)) fresh_world)
    by (vm_compute; reflexivity).
  split; [exact H |]. split; [reflexivity |].
  exact (answer_that_is_no_list (refresh_env (Ret NotAList)) fresh_world
           _ _ H eq_refl (surjective_pairing _)).
Defined.

Lemma rounding_is_toward_zero_witness :
  round_fiat (Some (D (-10129) (-3))) = Ret (D (-1012) (-2))
  /\ toward_zero (D (-10129) (-3)) (D (-1012) (-2)) 2 100
  /\ round_coin (Some (D (-123456789) (-9))) = Ret (D (-12345678) (-8))
  /\ toward_zero (D (-123456789) (-9)) (D (-12345678) (-8)) 8 100000000.
Proof.
  assert (Hf : round_fiat (Some (D (-10129) (-3))) = Ret (D (-1012) (-2)))
    by (vm_compute; reflexivity).
  assert (Hc : round_coin (Some (D (-123456789) (-9)))
               = Ret (D (-12345678) (-8)))
    by (vm_compute; reflexivity).
  split; [exact Hf |].
  split; [exact (proj1 (rounding_is_toward_zero _ _) Hf) |].
  split; [exact Hc |].
  exact (proj2 (rounding_is_toward_zero _ _) Hc).
Defined.

Lemma rounding_is_idempotent_witness :
  round_coin (Some (D 123456789 (-9))) = Ret (D 12345678 (-8))
  /\ round_coin (Some (D 12345678 (-8))) = Ret (D 12345678 (-8)).
Proof.
  assert (Hc : round_coin (Some (D 123456789 (-9))) = Ret (D 12345678 (-8)))
    by (vm_compute; reflexivity).
  split; [exact Hc |].
  exact (proj2 (rounding_is_idempotent _ _) Hc).
Defined.

Lemma place_buy_outcome_witness :
  products (engine demo_world) !! 0%nat = Some btc_usd
  /\ placed BuySide 0 btc_usd demo_world
       (place_buy (demo_env (D 50000 0) 1000) 0 (D 5 (-1)) demo_world).1
       (place_buy (demo_env (D 50000 0) 1000) 0 (D 5 (-1)) demo_world).2
  /\ buy_offer (D 50000 (-3)) (D 50000 0) (quote_increment btc_usd)
       (D 100000 (-8)) (D 4999999 (-2))
  /\ ordered (demo_env (D 50000 0) 1000) BuySide btc_usd (D 100000 (-8))
       (D 4999999 (-2)) demo_world (after_env [] (mkWorld demo_engine 1 []))
       (place_buy (demo_env (D 50000 0) 1000) 0 (D 5 (-1)) demo_world).1
       (place_buy (demo_env (D 50000 0) 1000) 0 (D 5 (-1)) demo_world).2
  /\ events_since demo_world
       (place_buy (demo_env (D 50000 0) 1000) 0 (D 5 (-1)) demo_world).2
     = [PlaceLimitOrder "BTC-USD" BuySide (D 100000 (-8)) (D 4999999 (-2))
          true]
  /\ products (engine holder_world) !! 0%nat
     = Some (set_sell_flag true (set_buy_flag false btc_usd))
  /\ buy_offer (D 0 (-3)) (D 50000 0) (quote_increment btc_usd)
       (D 0 (-8)) (D 4999999 (-2))
  /\ buy_offer (D 0 (-2)) (D 50000 0) (quote_increment btc_usd)
       (D 0 (-8)) (D 4999999 (-2))
  /\ (place_buy (demo_env (D 50000 0) 1000) 0 (D 5 (-1)) holder_world).1
     = Ok done_order
  /\ events_since holder_world
       (place_buy (demo_env (D 50000 0) 1000) 0 (D 5 (-1)) holder_world).2
     = [].
Proof.
  destruct (place_buy_outcome (demo_env (D 50000 0) 1000) 0 (D 5 (-1)) btc_usd
              demo_world _ _ eq_refl (surjective_pairing _)) as [Hplaced Hord].
  assert (Hoffer : buy_offer (D 50000 (-3)) (D 50000 0)
                     (quote_increment btc_usd) (D 100000 (-8))
                     (D 4999999 (-2))).
  { split; [vm_compute; reflexivity |].
    exists (D 1000000200000040000008000002 (-30)).
    split; vm_compute; reflexivity. }
  specialize (Hord (Some (D 10000 (-2))) (mkWorld demo_engine 1 [])
                (D 50000 (-3)) (D 50000 0) (D 100000 (-8)) (D 4999999 (-2))).
  assert (Hlt : Dec.lt (D 100000 (-8)) (min_size btc_usd) = false)
    by (vm_compute; reflexivity).
  rewrite Hlt in Hord.
  split; [reflexivity |]. split; [exact Hplaced |]. split; [exact Hoffer |].
  split.
  { apply Hord; [vm_compute; reflexivity | vm_compute; reflexivity
                | reflexivity | exact Hoffer]. }
  split; [vm_compute; reflexivity |].
  clear Hplaced Hord Hlt Hoffer.
  destruct (place_buy_outcome (demo_env (D 50000 0) 1000) 0 (D 5 (-1))
              (set_sell_flag true (set_buy_flag false btc_usd))
              holder_world _ _ eq_refl (surjective_pairing _)) as [_ Hord].
  assert (Hoffer : buy_offer (D 0 (-3)) (D 50000 0) (quote_increment btc_usd)
                     (D 0 (-8)) (D 4999999 (-2))).
  { split; [vm_compute; reflexivity |].
    exists (D 0 (-1)). split; vm_compute; reflexivity. }
  assert (Hoffer2 : buy_offer (D 0 (-2)) (D 50000 0) (quote_increment btc_usd)
                      (D 0 (-8)) (D 4999999 (-2))).
  { split; [vm_compute; reflexivity |].
    exists (D 0 0). split; vm_compute; reflexivity. }
  specialize (Hord (Some (D 0 (-2)))
                (mkWorld (engine holder_world) 1 [])
                (D 0 (-3)) (D 50000 0) (D 0 (-8)) (D 4999999 (-2))).
  assert (Hlt : Dec.lt (D 0 (-8))
                  (min_size (set_sell_flag true (set_buy_flag false btc_usd)))
                = true) by (vm_compute; reflexivity).
  rewrite Hlt in Hord.
  assert (Hq : get_quoted_currency_from_product_id (demo_env (D 50000 0) 1000)
                 (product_id (set_sell_flag true (set_buy_flag false btc_usd)))
                 holder_world
               = (Ok (Some (D 0 (-2))), mkWorld (engine holder_world) 1 []))
    by (vm_compute; reflexivity).
  specialize (Hord Hq ltac:(vm_compute; reflexivity) eq_refl Hoffer
                (D 0 (-2)) (mkWorld (engine holder_world) 3 [])
                (D 50000 0) (D 0 (-8)) (D 4999999 (-2))).
  assert (Hge : Dec.ge (D 0 (-8))
                  (min_size (set_sell_flag true (set_buy_flag false btc_usd)))
                = false) by (vm_compute; reflexivity).
  rewrite Hge in Hord.
  assert (Hq2 : get_quoted_currency_from_product_id (demo_env (D 50000 0) 1000)
                  (product_id (set_sell_flag true (set_buy_flag false btc_usd)))
                  (after_env [] (mkWorld (engine holder_world) 1 []))
                = (Ok (Some (D 0 (-2))), mkWorld (engine holder_world) 3 []))
    by (vm_compute; reflexivity).
  destruct (Hord Hq2 eq_refl Hoffer2) as (Hr & Hw & _).
  split; [reflexivity |]. split; [exact Hoffer |]. split; [exact Hoffer2 |].
  split; [exact Hr |].
  rewrite Hw. reflexivity.
Defined.

Lemma place_sell_outcome_witness :
  products (engine holder_world) !! 0%nat
  = Some (set_sell_flag true (set_buy_flag false btc_usd))
  /\ placed SellSide 0 (set_sell_flag true (set_buy_flag false btc_usd))
       holder_world
       (place_sell (demo_env (D 50000 0) 1000) 0 (D 5 (-1)) holder_world).1
       (place_sell (demo_env (D 50000 0) 1000) 0 (D 5 (-1)) holder_world).2
  /\ ordered (demo_env (D 50000 0) 1000) SellSide
       (set_sell_flag true (set_buy_flag false btc_usd))
       (D 50000000 (-8)) (D 5000001 (-2)) holder_world
       (after_env [] (mkWorld (engine holder_world) 1 []))
       (place_sell (demo_env (D 50000 0) 1000) 0 (D 5 (-1)) holder_world).1
       (place_sell (demo_env (D 50000 0) 1000) 0 (D 5 (-1)) holder_world).2
  /\ events_since holder_world
       (place_sell (demo_env (D 50000 0) 1000) 0 (D 5 (-1)) holder_world).2
     = [PlaceLimitOrder "BTC-USD" SellSide (D 50000000 (-8)) (D 5000001 (-2))
          true]
  /\ products (engine demo_world) !! 0%nat = Some btc_usd
  /\ (place_sell (demo_env (D 50000 0) 1000) 0 (D 5 (-1)) demo_world).1
     = Ok done_order
  /\ events_since demo_world
       (place_sell (demo_env (D 50000 0) 1000) 0 (D 5 (-1)) demo_world).2
     = [].
Proof.
  destruct (place_sell_outcome (demo_env (D 50000 0) 1000) 0 (D 5 (-1))
              (set_sell_flag true (set_buy_flag false btc_usd))
              holder_world _ _ eq_refl (surjective_pairing _))
    as [Hplaced Hord].
  specialize (Hord (Some (D 100000000 (-8)))
                (mkWorld (engine holder_world) 1 [])
                (D 500000000 (-9)) (D 50000000 (-8))).
  assert (Hlt : Dec.lt (D 50000000 (-8))
                  (min_size (set_sell_flag true (set_buy_flag false btc_usd)))
                = false) by (vm_compute; reflexivity).
  rewrite Hlt in Hord.
  split; [reflexivity |]. split; [exact Hplaced |].
  split.
  { apply (Hord ltac:(vm_compute; reflexivity) ltac:(vm_compute; reflexivity)
             ltac:(vm_compute; reflexivity) (D 50000 0) (D 5000001 (-2)));
      [reflexivity | vm_compute; reflexivity]. }
  split; [vm_compute; reflexivity |].
  clear Hplaced Hord Hlt.
  destruct (place_sell_outcome (demo_env (D 50000 0) 1000) 0 (D 5 (-1))
              btc_usd demo_world _ _ eq_refl (surjective_pairing _))
    as [_ Hord].
  specialize (Hord (Some (D 0 (-8))) (mkWorld demo_engine 1 [])
                (D 0 (-9)) (D 0 (-8))).
  assert (Hlt : Dec.lt (D 0 (-8)) (min_size btc_usd) = true)
    by (vm_compute; reflexivity).
  rewrite Hlt in Hord.
  specialize (Hord ltac:(vm_compute; reflexivity) ltac:(vm_compute; reflexivity)
                ltac:(vm_compute; reflexivity)
                (D 0 (-8)) (mkWorld demo_engine 2 [])
                (D 50000 0) (D 5000001 (-2))).
  assert (Hge : Dec.ge (D 0 (-8)) (min_size btc_usd) = false)
    by (vm_compute; reflexivity).
  rewrite Hge in Hord.
  destruct (Hord ltac:(vm_compute; reflexivity) eq_refl
              ltac:(vm_compute; reflexivity)) as (Hr & Hw & _).
  split; [reflexivity |]. split; [exact Hr |].
  rewrite Hw. reflexivity.
Defined.

Lemma chase_trades_its_product_only_witness :
  products (engine demo_world) !! 0%nat = Some btc_usd
  /\ (chase (closing_env 1000) BuySide 3 0 demo_world).1 = Ok tt
  /\ Forall (chase_event (product_id btc_usd) (min_size btc_usd) BuySide)
       (events_since demo_world
          (chase (closing_env 1000) BuySide 3 0 demo_world).2)
  /\ exists p',
       products (engine (chase (closing_env 1000) BuySide 3 0 demo_world).2)
         !! 0%nat = Some p'
       /\ product_id p' = product_id btc_usd
       /\ min_size p' = min_size btc_usd.
Proof.
  split; [reflexivity |].
  split; [vm_compute; reflexivity |].
  exact (chase_trades_its_product_only (closing_env 1000) BuySide 3 0 btc_usd
           demo_world _ _ eq_refl (surjective_pairing _)).
Defined.

Lemma chase_that_cannot_start_witness :
  products (engine demo_world) !! 0%nat = Some btc_usd
  /\ chase_book bookless_env BuySide (tick demo_world) 0 = Exc ExchangeError
  /\ exists w',
       chase bookless_env BuySide 3 0 demo_world = (Raise ExchangeError, w')
       /\ products (engine w')
          = <[0%nat := set_order_in_progress true btc_usd]>
              (products (engine demo_world))
       /\ events_since demo_world w' = [].
Proof.
  split; [reflexivity |]. split; [reflexivity |].
  exact (chase_that_cannot_start bookless_env BuySide 3 0 btc_usd demo_world
           ExchangeError eq_refl eq_refl).
Defined.

Lemma unknown_product_raises_witness :
  is_live (engine demo_world) = true
  /\ get_product_by_product_id (engine demo_world) "XRP-USD" = None
  /\ (exists e,
        (determine_trades (demo_env (D 50000 0) 1000) "XRP-USD" ["P1"; "P2"]
           example_indicators demo_world).1 = Raise e)
  /\ products
       (engine
          (determine_trades (demo_env (D 50000 0) 1000) "XRP-USD" ["P1"; "P2"]
             example_indicators demo_world).2)
     = products (engine demo_world)
  /\ Forall quiet
       (events_since demo_world
          (determine_trades (demo_env (D 50000 0) 1000) "XRP-USD" ["P1"; "P2"]
             example_indicators demo_world).2).
Proof.
  assert (Hnone : get_product_by_product_id (engine demo_world) "XRP-USD" = None)
    by (vm_compute; reflexivity).
  split; [reflexivity |]. split; [exact Hnone |].
  exact (unknown_product_raises (demo_env (D 50000 0) 1000) "XRP-USD"
           ["P1"; "P2"] example_indicators demo_world _ _ eq_refl Hnone
           (surjective_pairing _)).
Defined.

Lemma missing_indicator_raises_witness :
  is_live (engine demo_world) = true
  /\ example_indicators !! "P3" = None
  /\ (exists e,
        (determine_trades (demo_env (D 50000 0) 1000) "BTC-USD" ["P3"; "P1"]
           example_indicators demo_world).1 = Raise e)
  /\ products
       (engine
          (determine_trades (demo_env (D 50000 0) 1000) "BTC-USD" ["P3"; "P1"]
             example_indicators demo_world).2)
     = products (engine demo_world)
  /\ Forall quiet
       (events_since demo_world
          (determine_trades (demo_env (D 50000 0) 1000) "BTC-USD" ["P3"; "P1"]
             example_indicators demo_world).2).
Proof.
  assert (Hnone : example_indicators !! "P3" = None)
    by (vm_compute; reflexivity).
  split; [reflexivity |]. split; [exact Hnone |].
  exact (missing_indicator_raises (demo_env (D 50000 0) 1000) "BTC-USD"
           "P3" ["P1"] example_indicators demo_world _ _ eq_refl Hnone
           (surjective_pairing _)).
Defined.

Lemma no_period_means_buy_witness :
  is_live (engine holder_world) = true
  /\ get_product_by_product_id (engine holder_world) "BTC-USD"
     = Some (0%nat, set_sell_flag true (set_buy_flag false btc_usd))
  /\ determine_trades (demo_env (D 50000 0) 1000) "BTC-USD" []
       example_indicators holder_world
     = (Ok tt,
        (determine_trades (demo_env (D 50000 0) 1000) "BTC-USD" []
           example_indicators holder_world).2)
  /\ exists p',
       products
         (engine
            (determine_trades (demo_env (D 50000 0) 1000) "BTC-USD" []
               example_indicators holder_world).2) !! 0%nat = Some p'
       /\ buy_flag p' = true /\ sell_flag p' = false.
Proof.
  assert (Hfind : get_product_by_product_id (engine holder_world) "BTC-USD"
                  = Some (0%nat, set_sell_flag true (set_buy_flag false btc_usd)))
    by (vm_compute; reflexivity).
  assert (Hrun : determine_trades (demo_env (D 50000 0) 1000) "BTC-USD" []
                   example_indicators holder_world
                 = (Ok tt,
                    (determine_trades (demo_env (D 50000 0) 1000) "BTC-USD" []
                       example_indicators holder_world).2))
    by (vm_compute; reflexivity).
  split; [reflexivity |]. split; [exact Hfind |]. split; [exact Hrun |].
  exact (no_period_means_buy (demo_env (D 50000 0) 1000) "BTC-USD"
           example_indicators 0 _ holder_world _ eq_refl
           ltac:(discriminate) ltac:(discriminate) Hfind Hrun).
Defined.

Lemma orders_filed_by_product_witness :
  need_updating demo_housekeeping = true
  /\ one_second <= 2000000 - last_order_update demo_housekeeping
  /\ NoDup (product_id <$> products (engine_of demo_housekeeping))
  /\ Forall (known (engine_of demo_housekeeping)) demo_orders
  /\ orders_of btc_usd demo_orders
     = [order_for "o1" "BTC-USD"; order_for "o3" "BTC-USD"]
  /\ exists k',
       poll_orders 2000000 2000001 (Ret demo_orders) demo_housekeeping
       = (k', [GetOrders])
       /\ last_order_update k' = 2000001
       /\ all_open_orders k' = Some demo_orders
       /\ forall j,
            products (engine_of k') !! j
            = (fun p => set_open_orders (orders_of p demo_orders) p)
                <$> products (engine_of demo_housekeeping) !! j.
Proof.
  assert (Hdue : one_second <= 2000000 - last_order_update demo_housekeeping)
    by (vm_compute; discriminate).
  assert (Hnd : NoDup (product_id <$> products (engine_of demo_housekeeping))).
  { apply (bool_decide_unpack _). vm_compute. exact Logic.I. }
  assert (Hall : Forall (known (engine_of demo_housekeeping)) demo_orders).
  { repeat (apply List.Forall_cons || apply List.Forall_nil);
      eexists; (split; [reflexivity |]); cbn; repeat constructor. }
  split; [reflexivity |]. split; [exact Hdue |]. split; [exact Hnd |].
  split; [exact Hall |]. split; [vm_compute; reflexivity |].
  exact (orders_filed_by_product 2000000 2000001 demo_orders
           demo_housekeeping eq_refl Hdue Hnd Hall).
Defined.

Lemma order_of_an_unknown_product_witness :
  need_updating demo_housekeeping = true
  /\ one_second <= 2000000 - last_order_update demo_housekeeping
  /\ NoDup (product_id <$> products (engine_of demo_housekeeping))
  /\ Forall (known (engine_of demo_housekeeping)) [order_for "o1" "BTC-USD"]
  /\ ~ known (engine_of demo_housekeeping) (order_for "o9" "XRP-USD")
  /\ exists k',
       poll_orders 2000000 2000001
         (Ret ([order_for "o1" "BTC-USD"]
               ++ order_for "o9" "XRP-USD" :: [order_for "o2" "ETH-USD"])%list)
         demo_housekeeping
       = (k', [GetOrders; Logged AttributeError])
       /\ last_order_update k' = last_order_update demo_housekeeping
       /\ all_open_orders k'
          = Some ([order_for "o1" "BTC-USD"]
                  ++ order_for "o9" "XRP-USD" :: [order_for "o2" "ETH-USD"])%list
       /\ forall j,
            products (engine_of k') !! j
            = (fun p => set_open_orders
                          (orders_of p [order_for "o1" "BTC-USD"]) p)
                <$> products (engine_of demo_housekeeping) !! j.
Proof.
  assert (Hdue : one_second <= 2000000 - last_order_update demo_housekeeping)
    by (vm_compute; discriminate).
  assert (Hnd : NoDup (product_id <$> products (engine_of demo_housekeeping))).
  { apply (bool_decide_unpack _). vm_compute. exact Logic.I. }
  assert (Hall : Forall (known (engine_of demo_housekeeping))
                   [order_for "o1" "BTC-USD"]).
  { repeat (apply List.Forall_cons || apply List.Forall_nil);
      eexists; (split; [reflexivity |]); cbn; repeat constructor. }
  assert (Hno : ~ known (engine_of demo_housekeeping)
                    (order_for "o9" "XRP-USD")).
  { intros (pid & Hpid & Hin). inversion Hpid; subst pid.
    apply list_elem_of_In in Hin. cbn in Hin.
    destruct Hin as [H | [H | []]]; discriminate H. }
  split; [reflexivity |]. split; [exact Hdue |]. split; [exact Hnd |].
  split; [exact Hall |]. split; [exact Hno |].
  exact (order_of_an_unknown_product 2000000 2000001
           [order_for "o1" "BTC-USD"] (order_for "o9" "XRP-USD")
           [order_for "o2" "ETH-USD"] demo_housekeeping eq_refl Hdue Hnd
           Hall Hno).
Defined.

Lemma close_ends_the_chases_witness :
  products (engine_of demo_housekeeping) !! 0%nat
  = Some (set_order_in_progress true btc_usd)
  /\ buy_while (demo_env (D 50000 0) 1000) 1 (D 4999999 (-2)) 0 demo_chase
       (mkWorld (engine_of (close (Exc ExchangeError) false demo_housekeeping).1)
          0 [])
     = (Ok (Next tt),
        mkWorld (engine_of (close (Exc ExchangeError) false demo_housekeeping).1)
          0 [])
  /\ sell_while (demo_env (D 50000 0) 1000) 1 (D 4999999 (-2)) 0 demo_chase
       (mkWorld (engine_of (close (Exc ExchangeError) false demo_housekeeping).1)
          0 [])
     = (Ok (Next tt),
        mkWorld (engine_of (close (Exc ExchangeError) false demo_housekeeping).1)
          0 []).
Proof.
  split; [reflexivity |].
  exact (close_ends_the_chases (demo_env (D 50000 0) 1000)
           (Exc ExchangeError) false demo_housekeeping 0
           (set_order_in_progress true btc_usd) 0 (D 4999999 (-2)) demo_chase
           0 [] eq_refl).
Defined.

Lemma close_stops_the_poller_witness :
  stop_update_order_thread demo_housekeeping = false
  /\ t_others closing_turn = (fun k1 => fst (close (Ret tt) true k1))
  /\ exists k',
       update_orders [closing_turn; closing_turn] demo_housekeeping
       = (true, k',
          snd (poll_orders (t_time closing_turn) (t_time' closing_turn)
                 (t_orders closing_turn) demo_housekeeping))
       /\ stop_update_order_thread k' = true
       /\ Forall (fun p => buy_flag p = false /\ sell_flag p = false
                           /\ order_in_progress p = false)
            (products (engine_of k')).
Proof.
  split; [reflexivity |]. split; [reflexivity |].
  exact (close_stops_the_poller (Ret tt) closing_turn [closing_turn]
           demo_housekeeping eq_refl eq_refl).
Defined.

Lemma buy_asks_again_at_once_witness :
  products (engine demo_world) !! 0%nat = Some btc_usd
  /\ order_finished (c_ret demo_chase) = false
  /\ Dec.lt (D 4999999 (-2)) (D 4999999 (-2)) = false
  /\ one_second
     <= time_time lost_order_env (S (tick demo_world))
        - c_last_order_update demo_chase
  /\ api_get_order lost_order_env (S (S (tick demo_world)))
       (o_id (c_ret demo_chase)) = Exc ValueError
  /\ buy_chase lost_order_env 0 demo_chase demo_world
     = (Ok (mkChase resting_order (Some (D 4999999 (-2))) (Some (D 0 (-1))) 0),
        (buy_chase lost_order_env 0 demo_chase demo_world).2)
  /\ c_ret (mkChase resting_order (Some (D 4999999 (-2))) (Some (D 0 (-1))) 0)
     = c_ret demo_chase
  /\ c_last_order_update
       (mkChase resting_order (Some (D 4999999 (-2))) (Some (D 0 (-1))) 0)
     = c_last_order_update demo_chase
  /\ In (ErrorLogged ValueError)
       (events_since demo_world
          (buy_chase lost_order_env 0 demo_chase demo_world).2).
Proof.
  assert (Hdue : one_second
                 <= time_time lost_order_env (S (tick demo_world))
                    - c_last_order_update demo_chase)
    by (vm_compute; discriminate).
  assert (Hrun : buy_chase lost_order_env 0 demo_chase demo_world
                 = (Ok (mkChase resting_order (Some (D 4999999 (-2)))
                          (Some (D 0 (-1))) 0),
                    (buy_chase lost_order_env 0 demo_chase demo_world).2))
    by (vm_compute; reflexivity).
  split; [reflexivity |]. split; [reflexivity |]. split; [reflexivity |].
  split; [exact Hdue |]. split; [reflexivity |]. split; [exact Hrun |].
  exact (buy_asks_again_at_once lost_order_env 0 btc_usd demo_chase
           (D 4999999 (-2)) (D 50000 0) (D 4999999 (-2)) demo_world _ _
           eq_refl eq_refl eq_refl eq_refl eq_refl eq_refl eq_refl Hdue
           eq_refl Hrun).
Defined.

Lemma sell_waits_a_second_witness :
  products (engine holder_world) !! 0%nat
  = Some (set_sell_flag true (set_buy_flag false btc_usd))
  /\ order_finished (c_ret demo_chase) = false
  /\ Dec.gt (D 4999999 (-2)) (D 5000001 (-2)) = false
  /\ one_second
     <= time_time lost_order_env (S (tick holder_world))
        - c_last_order_update demo_chase
  /\ api_get_order lost_order_env (S (S (tick holder_world)))
       (o_id (c_ret demo_chase)) = Exc ValueError
  /\ sell_chase lost_order_env 0 demo_chase holder_world
     = (Ok (mkChase resting_order (Some (D 4999999 (-2))) (Some (D 0 (-1)))
              2000000),
        (sell_chase lost_order_env 0 demo_chase holder_world).2)
  /\ c_ret
       (mkChase resting_order (Some (D 4999999 (-2))) (Some (D 0 (-1)))
          2000000)
     = c_ret demo_chase
  /\ c_last_order_update
       (mkChase resting_order (Some (D 4999999 (-2))) (Some (D 0 (-1)))
          2000000)
     = time_time lost_order_env (S (S (S (tick holder_world))))
  /\ In (ErrorLogged ValueError)
       (events_since holder_world
          (sell_chase lost_order_env 0 demo_chase holder_world).2).
Proof.
  assert (Hdue : one_second
                 <= time_time lost_order_env (S (tick holder_world))
                    - c_last_order_update demo_chase)
    by (vm_compute; discriminate).
  assert (Hrun : sell_chase lost_order_env 0 demo_chase holder_world
                 = (Ok (mkChase resting_order (Some (D 4999999 (-2)))
                          (Some (D 0 (-1))) 2000000),
                    (sell_chase lost_order_env 0 demo_chase holder_world).2))
    by (vm_compute; reflexivity).
  split; [reflexivity |]. split; [reflexivity |]. split; [reflexivity |].
  split; [exact Hdue |]. split; [reflexivity |]. split; [exact Hrun |].
  exact (sell_waits_a_second lost_order_env 0
           (set_sell_flag true (set_buy_flag false btc_usd)) demo_chase
           (D 4999999 (-2)) (D 50000 0) (D 5000001 (-2)) holder_world _ _
           eq_refl eq_refl eq_refl eq_refl eq_refl eq_refl eq_refl Hdue
           eq_refl Hrun).
Defined.
